(** * The server-side action dispatcher of the rpc package

    A shallow embedding of [packages/rpc/src/server/action.ts]
    (class [RpcServerAction]) and the properties of its handlers.

    The class keeps four tables ([cachedActionsTypes], [observableSubjects],
    [collections], [observables]).  Its handlers create closures that share
    mutable objects with those tables: the [{ active, sub }] object of a
    client subscription, the [unsubscribed] variable of a collection, the
    rxjs [Subscription] objects.  These objects live in explicit stores here
    and are referred to by their index, so that aliasing is preserved.

    Everything the class imports from elsewhere (message parsing, the schema
    system, the injector, the controller itself, rxjs) is a field of the
    record [Collab]; the handlers are functions of it. *)

From Stdlib Require Import ZArith List String Bool Lia.
From stdpp Require Import base tactics option list gmap strings.

Set Warnings "-register-all".

Local Open Scope Z_scope.
Local Open Scope string_scope.
Local Open Scope list_scope.

(** ** Wire-level vocabulary *)

(** [RpcTypes] (imported from [../model]): the closed enumeration of message
    types, inbound first. *)
Module RpcTypes.
Inductive t :=
| ActionType
| Action
| ActionObservableSubscribe
| ActionObservableUnsubscribe
| ActionObservableSubjectUnsubscribe
| ResponseActionCollectionUnsubscribe
| ResponseActionType
| ResponseActionSimple
| ResponseEntity
| ResponseActionObservable
| ResponseActionObservableNext
| ResponseActionObservableError
| ResponseActionObservableComplete
| ResponseActionCollection
| ResponseActionCollectionModel
| ResponseActionCollectionState
| ResponseActionCollectionSet
| ResponseActionCollectionChange
| ResponseActionCollectionAdd
| ResponseActionCollectionRemove
| Error.

#[global] Instance eq_dec : EqDecision t.
Proof. solve_decision. Defined.
End RpcTypes.

(** [ActionObservableTypes] (imported from [../model]). *)
Module ActionObservableTypes.
Inductive t := observable | subject | behaviorSubject.

#[global] Instance eq_dec : EqDecision t.
Proof. solve_decision. Defined.
End ActionObservableTypes.

(** Plain JavaScript values that travel in bodies. *)
Inductive Value :=
| VUndefined
| VNum (n : Z)
| VStr (s : string).

#[global] Instance Value_eq_dec : EqDecision Value.
Proof. solve_decision. Defined.

Record ValidationFailedItem := {
  vf_path : string;
  vf_code : string;
  vf_message : string;
}.

#[global] Instance ValidationFailedItem_eq_dec : EqDecision ValidationFailedItem.
Proof. solve_decision. Defined.

(** Thrown values: [new Error(message)] and [new ValidationError(errors)]. *)
Inductive Exception :=
| Error (message : string)
| ValidationError (errors : list ValidationFailedItem).

#[global] Instance Exception_eq_dec : EqDecision Exception.
Proof. solve_decision. Defined.

(** A computation that returns or throws. *)
Inductive Completion (A : Type) :=
| Return (a : A)
| Throw (e : Exception).
Arguments Return {A} a.
Arguments Throw {A} e.

(** ** Classes, property schemas, class schemas *)

(** A JavaScript class as the dispatcher sees it: its name ([getClassName])
    and the names of the classes on its prototype chain, itself included. *)
Record ClassType := {
  className : string;
  prototypeChain : list string;
}.

#[global] Instance ClassType_eq_dec : EqDecision ClassType.
Proof. solve_decision. Defined.

(** [isPrototypeOfBase(prototype, base)] of [@deepkit/core]. *)
Definition isPrototypeOfBase (prototype : ClassType) (base : string) : bool :=
  bool_decide (base ∈ prototypeChain prototype).

(** [PropertySchema] of [@deepkit/type], with the fields the dispatcher reads
    or writes. *)
Inductive PropertySchema := mkPropertySchema {
  name : string;
  type : string;
  isOptional : bool;
  classType : option ClassType;
  templateArgs : list PropertySchema;
}.

(** [ClassSchema]: the properties in registration order. *)
Definition ClassSchema := list PropertySchema.

Definition createClassSchema : ClassSchema := [].

Definition registerProperty (s : ClassSchema) (p : PropertySchema) : ClassSchema :=
  s ++ [p].

Definition getProperty (s : ClassSchema) (n : string) : option PropertySchema :=
  List.find (fun p => bool_decide (name p = n)) s.

(** [rpcActionObservableSubscribeId] (imported from [../model]): the schema
    [{ id: number }]. *)
Definition rpcActionObservableSubscribeId : ClassSchema :=
  [mkPropertySchema "id" "number" false None []].

(** [t.schema({ args: argSchema })]: a schema with the one property [args],
    whose members are those of [argSchema]. *)
Definition t_schema_args (argSchema : ClassSchema) : ClassSchema :=
  [mkPropertySchema "args" "class" false None argSchema].

(** ** Bodies and frames *)

(** The bodies the dispatcher hands to the response channel. *)
Inductive Body :=
| BodyV (v : Value)                                (* { v: result } *)
| BodyItems (v : list Value)                       (* { v: items } *)
| BodyIds (ids : list Value)                       (* { ids: event.ids } *)
| BodyModel (model : Value)                        (* collection.model *)
| BodyState (state : Value)                        (* collection.state *)
| BodyType (type : ActionObservableTypes.t)        (* { type } *)
| BodyNext (id : Z) (v : Value)                    (* { id, v: next } *)
| BodyObservableError (extracted : Exception) (id : Z)  (* { ...extracted, id } *)
| BodyId (id : Z)                                  (* { id } *)
| BodyActionType (parameters : list PropertySchema) (result : option PropertySchema).

(** What leaves through an [RpcResponse]: [reply(type, schema, body)], a
    composite closed by [send()], or [error(e)].  Each carries the id of the
    inbound message the response object was made for. *)
Inductive Frame :=
| Reply (id : Z) (type : RpcTypes.t) (body : Body)
| Composite (id : Z) (type : RpcTypes.t) (parts : list (RpcTypes.t * Body))
| ErrorReply (id : Z) (error : Exception).

Definition frame_id (f : Frame) : Z :=
  match f with
  | Reply id _ _ | Composite id _ _ | ErrorReply id _ => id
  end.

Definition frame_type (f : Frame) : RpcTypes.t :=
  match f with
  | Reply _ ty _ | Composite _ ty _ => ty
  | ErrorReply _ _ => RpcTypes.Error
  end.

(** An inbound [RpcMessage]. *)
Record RpcMessage := {
  msg_id : Z;
  msg_type : RpcTypes.t;
  msg_body : string;
}.

(** ** Results of controller methods, push sources, collections *)

(** The value a controller method resolves to: its class, if it is an object
    of a class, and the value that is serialized for it. *)
Record ResultObj := {
  classOf : option ClassType;
  payload : Value;
}.

(** [result instanceof C]. *)
Definition instanceof (result : ResultObj) (C : string) : bool :=
  match classOf result with
  | Some c => isPrototypeOfBase c C
  | None => false
  end.

(** What an rxjs source hands to the callbacks of [subscribe]. *)
Inductive Notification :=
| OnNext (next : Value)
| OnError (error : Exception)
| OnComplete.

Definition isTerminal (n : Notification) : bool :=
  match n with
  | OnNext _ => false
  | _ => true
  end.

(** [CollectionEvent] (imported from [../collection]). *)
Record CollectionEvent := {
  ev_type : string;
  ev_items : list Value;
  ev_ids : list Value;
}.

(** A resolved controller instance. *)
Inductive Instance := instanceOfClass (c : ClassType).

(** How the promise returned by the controller method settles. *)
Inductive Settled :=
| Fulfilled (result : ResultObj)
| Rejected (error : Exception).

(** ** External collaborators *)

(** The behaviour of everything [action.ts] imports, during one turn of the
    event loop.  [subscribeEmits] lists what a source delivers synchronously
    inside [subscribe] (a [BehaviorSubject] replays its current value);
    [delivers] says whether the source library hands a notification to the
    callbacks of a subscription, given whether the subscription is closed.
    [sendThrows] says whether building or encoding a frame throws. *)
Record Collab := {
  parseBody_rpcActionType : string -> Completion (string * string);
  parseBody_parameterSchema : ClassSchema -> string -> Completion (list Value);
  parseBody_rpcActionObservableSubscribeId : string -> Completion Z;
  getActions : ClassType -> list string;
  getActionParameters : ClassType -> string -> list PropertySchema;
  getMethod : ClassType -> string -> PropertySchema;
  getClassPropertyName : ClassType -> string -> string;
  getXToClassFunction : ClassSchema -> list Value -> Completion (list Value);
  jitValidate : ClassSchema -> list Value -> list ValidationFailedItem;
  injector_get : ClassType -> Completion Instance;
  callMethod : Instance -> string -> list Value -> Completion Settled;
  sendThrows : Frame -> option Exception;
  subscribeEmits : ResultObj -> list Notification;
  delivers : bool -> Notification -> bool;
  deliversEvent : bool -> CollectionEvent -> bool;
  collection_model : ResultObj -> Value;
  collection_state : ResultObj -> Value;
  collection_all : ResultObj -> list Value;
}.

(** ** The dispatcher's data *)

Record ActionTypes := {
  parameters : list PropertySchema;
  parameterSchema : ClassSchema;
  resultSchema : ClassSchema;
  parametersDeserialize : list Value -> Completion (list Value);
  parametersValidate : list Value -> list ValidationFailedItem;
  observableNextSchema : ClassSchema;
  collectionSchema : option ClassSchema;
}.

Definition set_collectionSchema (types : ActionTypes) (s : ClassSchema) : ActionTypes :=
  {| parameters := parameters types;
     parameterSchema := parameterSchema types;
     resultSchema := resultSchema types;
     parametersDeserialize := parametersDeserialize types;
     parametersValidate := parametersValidate types;
     observableNextSchema := observableNextSchema types;
     collectionSchema := Some s |}.

(** An entry of [observables]: [subscriptions] maps a subscription id to the
    index of its [{ active, sub }] object. *)
Record ObservableEntry := {
  observable : ResultObj;
  subscriptions : gmap Z nat;
  oe_observableNextSchema : ClassSchema;
}.

(** An entry of [collections]: the [unsubscribe] closure, given by the
    variables it captured ([unsubscribed] lives in the bridge, [eventsSub] is
    a subscription). *)
Record CollectionEntry := {
  ce_bridge : nat;
  ce_eventsSub : nat;
}.

Record RpcServerAction := {
  cachedActionsTypes : gmap string ActionTypes;
  observableSubjects : gmap Z nat;
  collections : gmap Z CollectionEntry;
  observables : gmap Z ObservableEntry;
  controllers : gmap string ClassType;
}.

Definition new_RpcServerAction (controllers : gmap string ClassType) : RpcServerAction :=
  {| cachedActionsTypes := ∅; observableSubjects := ∅; collections := ∅;
     observables := ∅; controllers := controllers |}.

Definition set_cachedActionsTypes (this : RpcServerAction) (c : gmap string ActionTypes) :=
  {| cachedActionsTypes := c; observableSubjects := observableSubjects this;
     collections := collections this; observables := observables this;
     controllers := controllers this |}.

Definition set_observableSubjects (this : RpcServerAction) (o : gmap Z nat) :=
  {| cachedActionsTypes := cachedActionsTypes this; observableSubjects := o;
     collections := collections this; observables := observables this;
     controllers := controllers this |}.

Definition set_collections (this : RpcServerAction) (c : gmap Z CollectionEntry) :=
  {| cachedActionsTypes := cachedActionsTypes this;
     observableSubjects := observableSubjects this;
     collections := c; observables := observables this;
     controllers := controllers this |}.

Definition set_observables (this : RpcServerAction) (o : gmap Z ObservableEntry) :=
  {| cachedActionsTypes := cachedActionsTypes this;
     observableSubjects := observableSubjects this;
     collections := collections this; observables := o;
     controllers := controllers this |}.

(** ** [loadTypes] *)

Definition newline : string := String (Ascii.ascii_of_nat 10) EmptyString.

(** The message of the error thrown for a wrapper type without generic. *)
Definition missingGenericMessage (propertyName className method : string) : string :=
  "Your method " +:+ propertyName +:+ " returns " +:+ className +:+
  " and you have not specified a generic type using @t.generic() decorator. " +:+
  "Please define the generic type of your " +:+ className +:+
  "<T>, e.g. @t.generic(T), where T is your actual type. Any is now used, which is much slower to serialize and produces no class instances." +:+
  newline +:+ "Example:" +:+
  newline +:+ "   @t.generic(t.string)" +:+
  newline +:+ "   " +:+ method +:+ "(): " +:+ className +:+ "<string> {}" +:+
  newline +:+ "   @t.generic(MyModel)" +:+
  newline +:+ "   " +:+ method +:+ "(): " +:+ className +:+ "<MyModel> {}".

(** Lines 108 to 127: unwrap [Observable<T>], [Collection<T>], [Promise<T>]. *)
Definition unwrapResultProperty (c : Collab) (controllerClass : ClassType)
    (method : string) (resultProperty : PropertySchema) : Completion PropertySchema :=
  match classType resultProperty with
  | Some rc =>
      if isPrototypeOfBase rc "Observable" || isPrototypeOfBase rc "Collection"
         || isPrototypeOfBase rc "Promise"
      then
        match templateArgs resultProperty with
        | generic :: _ => Return generic
        | [] =>
            Throw (Error (missingGenericMessage
                            (getClassPropertyName c controllerClass method)
                            (className rc) method))
        end
      else Return resultProperty
  | None => Return resultProperty
  end.

Definition cacheIdOf (controller method : string) : string :=
  controller +:+ "!" +:+ method.

(** [loadTypes(controller, method)]: the new table and the types or the
    error.  The table changes only when a new entry is stored. *)
Definition loadTypes (c : Collab) (this : RpcServerAction) (controller method : string)
    : RpcServerAction * Completion ActionTypes :=
  let cacheId := cacheIdOf controller method in
  match cachedActionsTypes this !! cacheId with
  | Some types => (this, Return types)
  | None =>
      match controllers this !! controller with
      | None => (this, Throw (Error ("No controller registered for id " +:+ controller)))
      | Some controllerClass =>
          if negb (bool_decide (method ∈ getActions c controllerClass))
          then (this, Throw (Error ("Action unknown " +:+ method)))
          else
            let parameters := getActionParameters c controllerClass method in
            let argSchema := fold_left registerProperty parameters createClassSchema in
            let resultSchema := createClassSchema in
            match unwrapResultProperty c controllerClass method
                    (getMethod c controllerClass method) with
            | Throw e => (this, Throw e)
            | Return resultProperty =>
                let resultProperty :=
                  {| name := "v"; type := type resultProperty; isOptional := true;
                     classType := classType resultProperty;
                     templateArgs := templateArgs resultProperty |} in
                let observableNextSchema :=
                  registerProperty rpcActionObservableSubscribeId resultProperty in
                let resultSchema := registerProperty resultSchema resultProperty in
                let types :=
                  {| parameters := parameters;
                     parameterSchema := t_schema_args argSchema;
                     resultSchema := resultSchema;
                     parametersDeserialize := getXToClassFunction c argSchema;
                     parametersValidate := jitValidate c argSchema;
                     observableNextSchema := observableNextSchema;
                     collectionSchema := None |} in
                (set_cachedActionsTypes this (<[cacheId := types]> (cachedActionsTypes this)),
                 Return types)
            end
      end
  end.

(** ** Objects shared between the tables and the closures *)

(** The object [{ active, sub }] of a client subscription (line 159).  The
    table entry and the [next] callback refer to the same object; [sub] is the
    index of the rxjs subscription once [subscribe] has returned. *)
Record SubObj := {
  active : bool;
  sub : option nat;
}.

(** The callbacks handed to [subscribe], by the place that creates them and
    the variables they capture. *)
Inductive Subscriber :=
| ClientSubscriber (id : Z) (body_id : Z) (subObj : nat)   (* lines 162 to 175 *)
| SubjectSubscriber (id : Z)                               (* lines 293 to 305 *)
| EventsSubscriber (bridge : nat).                         (* line 256 *)

(** An rxjs [Subscription]: [closed] once [unsubscribe()] was called on it
    or its source has handed over an error or the completion. *)
Record Subscription := {
  subscriber : Subscriber;
  closed : bool;
}.

(** The variables of one run of the collection branch (lines 236 to 283):
    [message.id] of its response, the collection, [unsubscribed], and the
    two variables [items] and [taskScheduled] of [collectForMicrotask]. *)
Record Bridge := {
  br_id : Z;
  br_collection : ResultObj;
  unsubscribed : bool;
  br_items : list CollectionEvent;
  taskScheduled : bool;
}.

(** A call of [handleAction] suspended at its [await]. *)
Record Pending := {
  pe_id : Z;
  pe_cacheId : string;
  pe_types : ActionTypes;
  pe_settled : Settled;
  pe_resumed : bool;
}.

Record Sys := {
  this : RpcServerAction;
  subObjs : list SubObj;
  rxSubscriptions : list Subscription;
  bridges : list Bridge;
  pendings : list Pending;
}.

Definition new_Sys (controllers : gmap string ClassType) : Sys :=
  {| this := new_RpcServerAction controllers; subObjs := [];
     rxSubscriptions := []; bridges := []; pendings := [] |}.

Definition set_this (σ : Sys) (t : RpcServerAction) : Sys :=
  {| this := t; subObjs := subObjs σ; rxSubscriptions := rxSubscriptions σ;
     bridges := bridges σ; pendings := pendings σ |}.

Definition set_subObjs (σ : Sys) (l : list SubObj) : Sys :=
  {| this := this σ; subObjs := l; rxSubscriptions := rxSubscriptions σ;
     bridges := bridges σ; pendings := pendings σ |}.

Definition set_rxSubscriptions (σ : Sys) (l : list Subscription) : Sys :=
  {| this := this σ; subObjs := subObjs σ; rxSubscriptions := l;
     bridges := bridges σ; pendings := pendings σ |}.

Definition set_bridges (σ : Sys) (l : list Bridge) : Sys :=
  {| this := this σ; subObjs := subObjs σ; rxSubscriptions := rxSubscriptions σ;
     bridges := l; pendings := pendings σ |}.

Definition set_pendings (σ : Sys) (l : list Pending) : Sys :=
  {| this := this σ; subObjs := subObjs σ; rxSubscriptions := rxSubscriptions σ;
     bridges := bridges σ; pendings := l |}.

Definition deactivate (o : SubObj) : SubObj := {| active := false; sub := sub o |}.
Definition set_sub (k : nat) (o : SubObj) : SubObj := {| active := active o; sub := Some k |}.
Definition close (s : Subscription) : Subscription :=
  {| subscriber := subscriber s; closed := true |}.

(** [subscription.unsubscribe()]. *)
Definition rx_unsubscribe (k : nat) (σ : Sys) : Sys :=
  set_rxSubscriptions σ (alter close k (rxSubscriptions σ)).

(** The source has handed [n] to subscription [k]: rxjs closes a
    subscription once it has handed over an error or the completion. *)
Definition rx_delivered (k : nat) (n : Notification) (σ : Sys) : Sys :=
  if isTerminal n then set_rxSubscriptions σ (alter close k (rxSubscriptions σ)) else σ.

(** ** What the handlers do to the outside *)

(** Who wrote a frame: the body of a handler, a callback of the subscription
    with the given index, or the batch callback of the collection branch with
    the given bridge. *)
Inductive Origin :=
| ByHandler
| BySubscription (k : nat)
| ByBridge (b : nat).

#[global] Instance Origin_eq_dec : EqDecision Origin.
Proof. solve_decision. Defined.

Inductive Effect :=
| Invoked (controller : Instance) (method : string) (args : list Value)
| Sent (origin : Origin) (f : Frame)
| CollectionUnsubscribed (collection : ResultObj)
| Escaped (e : Exception).

Definition frames (log : list Effect) : list Frame :=
  omap (fun e => match e with Sent _ f => Some f | _ => None end) log.

Definition framesBy (o : Origin) (log : list Effect) : list Frame :=
  omap (fun e => match e with
                 | Sent o' f => if decide (o' = o) then Some f else None
                 | _ => None
                 end) log.

(** ** The callbacks *)

(** The frames a subscriber writes when its source hands it [n].
    A client subscriber (lines 162 to 175) tests [sub.active] in [next] only;
    a subject subscriber (lines 293 to 305) tests nothing and uses
    [message.id] as the id in the body. *)
Definition onNotification (σ : Sys) (s : Subscriber) (n : Notification) : list Frame :=
  match s with
  | ClientSubscriber id body_id subObj =>
      match n with
      | OnNext next =>
          match subObjs σ !! subObj with
          | Some o =>
              if negb (active o) then []
              else [Reply id RpcTypes.ResponseActionObservableNext (BodyNext body_id next)]
          | None => []
          end
      | OnError error =>
          [Reply id RpcTypes.ResponseActionObservableError (BodyObservableError error body_id)]
      | OnComplete =>
          [Reply id RpcTypes.ResponseActionObservableComplete (BodyId body_id)]
      end
  | SubjectSubscriber id =>
      match n with
      | OnNext next =>
          [Reply id RpcTypes.ResponseActionObservableNext (BodyNext id next)]
      | OnError error =>
          [Reply id RpcTypes.ResponseActionObservableError (BodyObservableError error id)]
      | OnComplete =>
          [Reply id RpcTypes.ResponseActionObservableComplete (BodyId id)]
      end
  | EventsSubscriber _ => []
  end.

(** [subscribe] on a source: the new subscription and what its callbacks
    write while the source emits synchronously.  The subscription that
    [subscribe] returns is closed when the source has ended inside
    [subscribe]. *)
Definition rx_subscribe (c : Collab) (source : ResultObj) (s : Subscriber) (σ : Sys)
    : Sys * nat * list Effect :=
  let k := length (rxSubscriptions σ) in
  let σ' := set_rxSubscriptions σ
              (rxSubscriptions σ
               ++ [{| subscriber := s;
                      closed := existsb isTerminal (subscribeEmits c source) |}]) in
  (σ', k,
   Sent (BySubscription k) <$> flat_map (onNotification σ' s) (subscribeEmits c source)).

(** [collection.event.subscribe(adapter)]: the event feed of a collection
    hands nothing to a new subscriber inside [subscribe]. *)
Definition rx_subscribe_events (b : nat) (σ : Sys) : Sys * nat :=
  (set_rxSubscriptions σ
     (rxSubscriptions σ ++ [{| subscriber := EventsSubscriber b; closed := false |}]),
   length (rxSubscriptions σ)).

(** The sub-frames of a change composite (lines 260 to 273). *)
Definition changePart (c : Collab) (collection : ResultObj) (event : CollectionEvent)
    : list (RpcTypes.t * Body) :=
  if bool_decide (ev_type event = "add") then
    [(RpcTypes.ResponseActionCollectionAdd, BodyItems (ev_items event))]
  else if bool_decide (ev_type event = "remove") then
    [(RpcTypes.ResponseActionCollectionRemove, BodyIds (ev_ids event))]
  else if bool_decide (ev_type event = "set") then
    [(RpcTypes.ResponseActionCollectionSet, BodyItems (collection_all c collection))]
  else if bool_decide (ev_type event = "state") then
    [(RpcTypes.ResponseActionCollectionState, BodyState (collection_state c collection))]
  else [].

(** The callback given to [collectForMicrotask] (lines 256 to 275). *)
Definition eventsCallback (c : Collab) (b : Bridge) (events : list CollectionEvent)
    : list Frame :=
  if unsubscribed b then []
  else [Composite (br_id b) RpcTypes.ResponseActionCollectionChange
          (flat_map (changePart c (br_collection b)) events)].

(** Modelled from the spec: [collectForMicrotask] of [@deepkit/core], the
    microtask-batching adapter of section 4.3.  The function it returns
    appends the event to [items] and schedules one microtask if none is
    scheduled. *)
Definition adapter_push (event : CollectionEvent) (b : Bridge) : Bridge :=
  {| br_id := br_id b; br_collection := br_collection b;
     unsubscribed := unsubscribed b;
     br_items := br_items b ++ [event]; taskScheduled := true |}.

(** Modelled from the spec: the scheduled microtask of [collectForMicrotask].
    It hands all collected events to the callback at once and empties
    [items]. *)
Definition adapter_flush (b : Bridge) : Bridge :=
  {| br_id := br_id b; br_collection := br_collection b;
     unsubscribed := unsubscribed b;
     br_items := []; taskScheduled := false |}.

Definition set_unsubscribed (b : Bridge) : Bridge :=
  {| br_id := br_id b; br_collection := br_collection b;
     unsubscribed := true;
     br_items := br_items b; taskScheduled := taskScheduled b |}.

(** The closure stored in [collections] (lines 278 to 282). *)
Definition collection_unsubscribe (e : CollectionEntry) (σ : Sys) : Sys * list Effect :=
  let σ1 := set_bridges σ (alter set_unsubscribed (ce_bridge e) (bridges σ)) in
  let σ2 := rx_unsubscribe (ce_eventsSub e) σ1 in
  (σ2, match bridges σ !! ce_bridge e with
       | Some b => [CollectionUnsubscribed (br_collection b)]
       | None => []
       end).

(** ** [handle] *)

Definition set_subscriptions (o : ObservableEntry) (m : gmap Z nat) : ObservableEntry :=
  {| observable := observable o; subscriptions := m;
     oe_observableNextSchema := oe_observableNextSchema o |}.

Definition response_error (id : Z) (e : Exception) : Effect :=
  Sent ByHandler (ErrorReply id e).

(** Lines 159 to 175: a new [{ active: true }] object is stored under
    [body.id], the source is subscribed to, and [sub.sub] is assigned when
    [subscribe] has returned. *)
Definition client_subscribe (c : Collab) (id body_id : Z) (entry : ObservableEntry) (σ : Sys)
    : Sys * list Effect :=
  let subObj := length (subObjs σ) in
  let σ1 := set_subObjs σ (subObjs σ ++ [{| active := true; sub := None |}]) in
  let σ2 := set_this σ1 (set_observables (this σ1)
              (<[id := set_subscriptions entry (<[body_id := subObj]> (subscriptions entry))]>
                 (observables (this σ1)))) in
  let '(σ3, k, written) :=
    rx_subscribe c (observable entry) (ClientSubscriber id body_id subObj) σ2 in
  (set_subObjs σ3 (alter (set_sub k) subObj (subObjs σ3)), written).

(** Lines 194 to 198: [sub.active = false], [sub.sub.unsubscribe()] when
    [sub.sub] is set, and the entry is deleted. *)
Definition client_unsubscribe (id body_id : Z) (entry : ObservableEntry) (subObj : nat)
    (σ : Sys) : Sys :=
  let σ1 := set_subObjs σ (alter deactivate subObj (subObjs σ)) in
  let σ2 :=
    match subObjs σ !! subObj ≫= sub with
    | Some k => rx_unsubscribe k σ1
    | None => σ1
    end in
  set_this σ2 (set_observables (this σ2)
    (<[id := set_subscriptions entry (delete body_id (subscriptions entry))]>
       (observables (this σ2)))).

(** Lines 159 to 162 as far as the call of [subscribe]: the new object is
    stored under [body.id] without [sub], and rxjs makes the subscription
    that [subscribe] is going to return.  (Its [closed] is what it will be
    when [subscribe] returns; nothing reads it before.) *)
Definition client_subscribe_open (c : Collab) (id body_id : Z) (entry : ObservableEntry)
    (σ : Sys) : Sys :=
  let subObj := length (subObjs σ) in
  let σ1 := set_subObjs σ (subObjs σ ++ [{| active := true; sub := None |}]) in
  let σ2 := set_this σ1 (set_observables (this σ1)
              (<[id := set_subscriptions entry (<[body_id := subObj]> (subscriptions entry))]>
                 (observables (this σ1)))) in
  set_rxSubscriptions σ2
    (rxSubscriptions σ2
     ++ [{| subscriber := ClientSubscriber id body_id subObj;
            closed := existsb isTerminal (subscribeEmits c (observable entry)) |}]).

(** [handle(message, response)]: the new state, what was written, and
    whether the promise resolves or rejects. *)
Definition handle (c : Collab) (message : RpcMessage) (σ : Sys)
    : Sys * list Effect * Completion unit :=
  let id := msg_id message in
  match msg_type message with
  | RpcTypes.ActionObservableSubscribe =>
      match observables (this σ) !! id with
      | None => (σ, [response_error id (Error "No observable found")], Return ())
      | Some entry =>
          match parseBody_rpcActionObservableSubscribeId c (msg_body message) with
          | Throw e => (σ, [], Throw e)
          | Return body_id =>
              match subscriptions entry !! body_id with
              | Some _ =>
                  (σ, [response_error id (Error "Subscription already created")], Return ())
              | None =>
                  let '(σ', written) := client_subscribe c id body_id entry σ in
                  (σ', written, Return ())
              end
          end
      end
  | RpcTypes.ResponseActionCollectionUnsubscribe =>
      match collections (this σ) !! id with
      | None => (σ, [response_error id (Error "No collection found")], Return ())
      | Some collection =>
          let '(σ1, written) := collection_unsubscribe collection σ in
          (set_this σ1 (set_collections (this σ1) (delete id (collections (this σ1)))),
           written, Return ())
      end
  | RpcTypes.ActionObservableUnsubscribe =>
      match observables (this σ) !! id with
      | None => (σ, [response_error id (Error "No observable found")], Return ())
      | Some entry =>
          match parseBody_rpcActionObservableSubscribeId c (msg_body message) with
          | Throw e => (σ, [], Throw e)
          | Return body_id =>
              match subscriptions entry !! body_id with
              | None => (σ, [response_error id (Error "No subscription found")], Return ())
              | Some subObj => (client_unsubscribe id body_id entry subObj σ, [], Return ())
              end
          end
      end
  | RpcTypes.ActionObservableSubjectUnsubscribe =>
      match observableSubjects (this σ) !! id with
      | None => (σ, [response_error id (Error "No observable found")], Return ())
      | Some subscription => (rx_unsubscribe subscription σ, [], Return ())
      end
  | _ => (σ, [], Return ())
  end.

(** [handle] gets as far as line 159: the message is an
    [ActionObservableSubscribe] for a call id that has an entry, and the
    subscription id of its body is free. *)
Definition subscribing (c : Collab) (message : RpcMessage) (σ : Sys)
    : option (Z * ObservableEntry) :=
  match msg_type message with
  | RpcTypes.ActionObservableSubscribe =>
      match observables (this σ) !! msg_id message with
      | None => None
      | Some entry =>
          match parseBody_rpcActionObservableSubscribeId c (msg_body message) with
          | Throw _ => None
          | Return body_id =>
              match subscriptions entry !! body_id with
              | Some _ => None
              | None => Some (body_id, entry)
              end
          end
      end
  | _ => None
  end.

(** ** [handleActionTypes] *)

Definition handleActionTypes (c : Collab) (message : RpcMessage) (σ : Sys)
    : Sys * list Effect * Completion unit :=
  match parseBody_rpcActionType c (msg_body message) with
  | Throw e => (σ, [], Throw e)
  | Return (controller, method) =>
      match loadTypes c (this σ) controller method with
      | (this', Throw e) => (set_this σ this', [], Throw e)
      | (this', Return types) =>
          (set_this σ this',
           [Sent ByHandler
              (Reply (msg_id message) RpcTypes.ResponseActionType
                 (BodyActionType (parameters types) (getProperty (resultSchema types) "v")))],
           Return ())
      end
  end.

(** ** [handleAction] *)

(** What lines 213 to 223 have computed when none of them throws. *)
Record Prepared := {
  pr_controller : string;
  pr_method : string;
  pr_types : ActionTypes;
  pr_instance : Instance;
  pr_converted : list Value;
  pr_errors : list ValidationFailedItem;
}.

(** Lines 213 to 223, the statements before [try]: parse the body, look the
    controller up, load the types, parse the arguments, resolve the
    controller, decode and validate.  The table of types may have grown even
    when a later statement throws. *)
Definition prepare (c : Collab) (message : RpcMessage) (this : RpcServerAction)
    : RpcServerAction * Completion Prepared :=
  match parseBody_rpcActionType c (msg_body message) with
  | Throw e => (this, Throw e)
  | Return (controller, method) =>
      match controllers this !! controller with
      | None => (this, Throw (Error ("No controller registered for id " +:+ controller)))
      | Some controllerClass =>
          match loadTypes c this controller method with
          | (this', Throw e) => (this', Throw e)
          | (this', Return types) =>
              match parseBody_parameterSchema c (parameterSchema types) (msg_body message) with
              | Throw e => (this', Throw e)
              | Return args =>
                  match injector_get c controllerClass with
                  | Throw e => (this', Throw e)
                  | Return controllerInstance =>
                      match parametersDeserialize types args with
                      | Throw e => (this', Throw e)
                      | Return converted =>
                          (this',
                           Return {| pr_controller := controller; pr_method := method;
                                     pr_types := types; pr_instance := controllerInstance;
                                     pr_converted := converted;
                                     pr_errors := parametersValidate types converted |})
                      end
                  end
              end
          end
      end
  end.

(** Lines 213 to 230, up to the [await]: what the statements before [try]
    throw goes into the promise of [handleAction]; a failed validation is
    answered and the handler returns; the call of the method is inside [try].
    [Return (Some p)]: suspended at [await]; [Return None]: returned. *)
Definition handleAction_begin (c : Collab) (message : RpcMessage) (this : RpcServerAction)
    : RpcServerAction * list Effect * Completion (option Pending) :=
  let id := msg_id message in
  match prepare c message this with
  | (this', Throw e) => (this', [], Throw e)
  | (this', Return call) =>
      if negb (bool_decide (length (pr_errors call) = 0%nat)) then
        (this', [response_error id (ValidationError (pr_errors call))], Return None)
      else
        match callMethod c (pr_instance call) (pr_method call) (pr_converted call) with
        | Throw e =>
            (this',
             [Invoked (pr_instance call) (pr_method call) (pr_converted call);
              response_error id e],
             Return None)
        | Return settled =>
            (this',
             [Invoked (pr_instance call) (pr_method call) (pr_converted call)],
             Return (Some {| pe_id := id;
                             pe_cacheId := cacheIdOf (pr_controller call) (pr_method call);
                             pe_types := pr_types call;
                             pe_settled := settled;
                             pe_resumed := false |}))
        end
  end.

(** [response.reply] or [composite.send] inside [try]: the frame, or the
    answer of [catch] when building it throws. *)
Definition try_send (c : Collab) (id : Z) (f : Frame) : list Effect :=
  match sendThrows c f with
  | Some e => [response_error id e]
  | None => [Sent ByHandler f]
  end.

(** Lines 238 to 244: [types.collectionSchema] is built on the cached object
    when it is not there yet. *)
Definition ensure_collectionSchema (types : ActionTypes) : ActionTypes :=
  match collectionSchema types with
  | Some _ => types
  | None =>
      let v := {| name := "v"; type := "array"; isOptional := false; classType := None;
                  templateArgs := option_list (getProperty (resultSchema types) "v") |} in
      set_collectionSchema types (registerProperty createClassSchema v)
  end.

(** The opening composite of a collection (lines 246 to 250). *)
Definition openingComposite (c : Collab) (id : Z) (collection : ResultObj) : Frame :=
  Composite id RpcTypes.ResponseActionCollection
    [(RpcTypes.ResponseActionCollectionModel, BodyModel (collection_model c collection));
     (RpcTypes.ResponseActionCollectionState, BodyState (collection_state c collection));
     (RpcTypes.ResponseActionCollectionSet, BodyItems (collection_all c collection))].

(** Lines 230 to 319, from the [await] on: the promise has settled.  A
    rejection and everything thrown in a branch end in [catch]. *)
Definition handleAction_resume (c : Collab) (p : Pending) (σ : Sys) : Sys * list Effect :=
  let id := pe_id p in
  match pe_settled p with
  | Rejected e => (σ, [response_error id e])
  | Fulfilled result =>
      if instanceof result "EntitySubject" then
        (σ, try_send c id (Reply id RpcTypes.ResponseEntity (BodyV (payload result))))
      else if instanceof result "Collection" then
        let collection := result in
        let σ1 := set_this σ (set_cachedActionsTypes (this σ)
                    (alter ensure_collectionSchema (pe_cacheId p)
                       (cachedActionsTypes (this σ)))) in
        match sendThrows c (openingComposite c id collection) with
        | Some e => (σ1, [response_error id e])
        | None =>
            let b := length (bridges σ1) in
            let σ2 := set_bridges σ1
                        (bridges σ1 ++ [{| br_id := id; br_collection := collection;
                                           unsubscribed := false; br_items := [];
                                           taskScheduled := false |}]) in
            let '(σ3, eventsSub) := rx_subscribe_events b σ2 in
            (set_this σ3 (set_collections (this σ3)
               (<[id := {| ce_bridge := b; ce_eventsSub := eventsSub |}]>
                  (collections (this σ3)))),
             [Sent ByHandler (openingComposite c id collection)])
        end
      else if instanceof result "Observable" then
        let σ1 := set_this σ (set_observables (this σ)
                    (<[id := {| observable := result; subscriptions := ∅;
                                oe_observableNextSchema := observableNextSchema (pe_types p) |}]>
                       (observables (this σ)))) in
        let '(σ2, type, written) :=
          if instanceof result "Subject" then
            let '(σ', k, written) := rx_subscribe c result (SubjectSubscriber id) σ1 in
            (set_this σ' (set_observableSubjects (this σ')
               (<[id := k]> (observableSubjects (this σ')))),
             if instanceof result "BehaviorSubject"
             then ActionObservableTypes.behaviorSubject
             else ActionObservableTypes.subject,
             written)
          else (σ1, ActionObservableTypes.observable, []) in
        (σ2, written ++ try_send c id (Reply id RpcTypes.ResponseActionObservable (BodyType type)))
      else
        (σ, try_send c id (Reply id RpcTypes.ResponseActionSimple (BodyV (payload result))))
  end.

(** [handleAction(message, response)] when nothing else runs between the
    call of the method and the continuation after [await]. *)
Definition handleAction (c : Collab) (message : RpcMessage) (σ : Sys)
    : Sys * list Effect * Completion unit :=
  match handleAction_begin c message (this σ) with
  | (this', written, Throw e) => (set_this σ this', written, Throw e)
  | (this', written, Return None) => (set_this σ this', written, Return ())
  | (this', written, Return (Some p)) =>
      let '(σ', written') := handleAction_resume c p (set_this σ this') in
      (σ', written ++ written', Return ())
  end.

(** ** The event loop *)

(** One turn of the event loop, as the dispatcher sees it: the kernel hands
    it an inbound message; the promise awaited by a suspended [handleAction]
    has settled; a push source hands a notification to a subscription; the
    event feed of a collection hands an event to the adapter; a scheduled
    microtask of an adapter runs.  [Reentered]: the kernel hands it an
    [ActionObservableSubscribe] message, and while [subscribe] of line 162 is
    running, after the source has handed over [upto] notifications, it hands
    [handle] the message [inner] (a transport that delivers synchronously:
    the client answers a frame while the callback that wrote it is still
    running).  This is the one place where a handler is entered again while
    another one runs, the place line 195 provides for; a [Reentered] turn
    whose message does not get as far as [subscribe] changes nothing. *)
Inductive Input :=
| Receive (message : RpcMessage)
| Resume (p : nat)
| Emit (k : nat) (n : Notification)
| EmitEvent (k : nat) (event : CollectionEvent)
| Microtask (b : nat)
| Reentered (message : RpcMessage) (upto : nat) (inner : RpcMessage).

Definition set_resumed (p : Pending) : Pending :=
  {| pe_id := pe_id p; pe_cacheId := pe_cacheId p; pe_types := pe_types p;
     pe_settled := pe_settled p; pe_resumed := true |}.

Definition escaped {A} (r : Completion A) : list Effect :=
  match r with
  | Throw e => [Escaped e]
  | Return _ => []
  end.

(** Modelled from the spec: the kernel's routing of inbound messages
    (section 2): [Action] goes to [handleAction], [ActionType] to
    [handleActionTypes], every other type to [handle]. *)
Definition receive (c : Collab) (message : RpcMessage) (σ : Sys) : Sys * list Effect :=
  match msg_type message with
  | RpcTypes.Action =>
      match handleAction_begin c message (this σ) with
      | (this', written, Return (Some p)) =>
          (set_pendings (set_this σ this') (pendings σ ++ [p]), written)
      | (this', written, r) => (set_this σ this', written ++ escaped r)
      end
  | RpcTypes.ActionType =>
      let '(σ', written, r) := handleActionTypes c message σ in
      (σ', written ++ escaped r)
  | _ =>
      let '(σ', written, r) := handle c message σ in
      (σ', written ++ escaped r)
  end.

(** Lines 159 to 175 when [handle] is called again while [subscribe] of
    line 162 is still running: the source has handed over its first [upto]
    notifications, [handle] runs for [inner] and finds the new object
    without [sub] (the case line 195 tests for), the source hands over the
    rest, [subscribe] returns and [sub.sub] is assigned. *)
Definition client_subscribe_reentered (c : Collab) (id body_id : Z) (entry : ObservableEntry)
    (upto : nat) (inner : RpcMessage) (σ : Sys) : Sys * list Effect :=
  let subObj := length (subObjs σ) in
  let k := length (rxSubscriptions σ) in
  let s := ClientSubscriber id body_id subObj in
  let ns := subscribeEmits c (observable entry) in
  let σ1 := client_subscribe_open c id body_id entry σ in
  let '(σ2, written, r) := handle c inner σ1 in
  (set_subObjs σ2 (alter (set_sub k) subObj (subObjs σ2)),
   (Sent (BySubscription k) <$> flat_map (onNotification σ1 s) (take upto ns))
   ++ (written ++ escaped r)
   ++ (Sent (BySubscription k) <$> flat_map (onNotification σ2 s) (drop upto ns))).

Definition step (c : Collab) (i : Input) (σ : Sys) : Sys * list Effect :=
  match i with
  | Receive message => receive c message σ
  | Resume p =>
      match pendings σ !! p with
      | Some pe =>
          if pe_resumed pe then (σ, [])
          else handleAction_resume c pe
                 (set_pendings σ (alter set_resumed p (pendings σ)))
      | None => (σ, [])
      end
  | Emit k n =>
      match rxSubscriptions σ !! k with
      | Some s =>
          if delivers c (closed s) n
          then (rx_delivered k n σ,
                Sent (BySubscription k) <$> onNotification σ (subscriber s) n)
          else (σ, [])
      | None => (σ, [])
      end
  | EmitEvent k event =>
      match rxSubscriptions σ !! k with
      | Some s =>
          match subscriber s with
          | EventsSubscriber b =>
              if deliversEvent c (closed s) event
              then (set_bridges σ (alter (adapter_push event) b (bridges σ)), [])
              else (σ, [])
          | _ => (σ, [])
          end
      | None => (σ, [])
      end
  | Microtask b =>
      match bridges σ !! b with
      | Some br =>
          if taskScheduled br
          then (set_bridges σ (alter adapter_flush b (bridges σ)),
                Sent (ByBridge b) <$> eventsCallback c br (br_items br))
          else (σ, [])
      | None => (σ, [])
      end
  | Reentered message upto inner =>
      match subscribing c message σ with
      | Some (body_id, entry) =>
          client_subscribe_reentered c (msg_id message) body_id entry upto inner σ
      | None => (σ, [])
      end
  end.

(** A run: each turn comes with the behaviour of the collaborators during
    that turn. *)
Fixpoint run (turns : list (Collab * Input)) (σ : Sys) : Sys * list Effect :=
  match turns with
  | [] => (σ, [])
  | (c, i) :: rest =>
      let '(σ1, written1) := step c i σ in
      let '(σ2, written2) := run rest σ1 in
      (σ2, written1 ++ written2)
  end.

(** ** A small world to run the dispatcher in *)

Module Sample.

Definition Observable : ClassType :=
  {| className := "Observable"; prototypeChain := ["Observable"] |}.
Definition Subject : ClassType :=
  {| className := "Subject"; prototypeChain := ["Subject"; "Observable"] |}.
Definition BehaviorSubject : ClassType :=
  {| className := "BehaviorSubject";
     prototypeChain := ["BehaviorSubject"; "Subject"; "Observable"] |}.
Definition Collection : ClassType :=
  {| className := "Collection";
     prototypeChain := ["Collection"; "ReplaySubject"; "Subject"; "Observable"] |}.
Definition EntitySubject : ClassType :=
  {| className := "EntitySubject";
     prototypeChain := ["EntitySubject"; "StreamBehaviorSubject"; "BehaviorSubject";
                        "Subject"; "Observable"] |}.

(** The controller [c1] of the scenarios. *)
Definition C1 : ClassType := {| className := "C1"; prototypeChain := ["C1"] |}.

Definition number (n : string) : PropertySchema :=
  {| name := n; type := "number"; isOptional := false; classType := None;
     templateArgs := [] |}.
Definition string_ (n : string) : PropertySchema :=
  {| name := n; type := "string"; isOptional := false; classType := None;
     templateArgs := [] |}.
Definition class_ (n : string) (c : ClassType) (args : list PropertySchema) : PropertySchema :=
  {| name := n; type := "class"; isOptional := false; classType := Some c;
     templateArgs := args |}.

(** The declared return type of each method of [c1]. *)
Definition returnOf (method : string) : PropertySchema :=
  if bool_decide (method = "add") then number "add"
  else if bool_decide (method = "greet") then class_ "greet" BehaviorSubject [string_ "T"]
  else if bool_decide (method = "stream") then class_ "stream" Observable [string_ "T"]
  else if bool_decide (method = "list") then class_ "list" Collection [string_ "T"]
  else if bool_decide (method = "bare") then class_ "bare" Observable []
  else number method.

(** What each method resolves to. [add] adds its two arguments. *)
Definition resultOf (method : string) (args : list Value) : Completion Settled :=
  if bool_decide (method = "add") then
    match args with
    | [VNum a; VNum b] => Return (Fulfilled {| classOf := None; payload := VNum (a + b) |})
    | _ => Throw (Error "not a number")
    end
  else if bool_decide (method = "greet") then
    Return (Fulfilled {| classOf := Some BehaviorSubject; payload := VStr "hi" |})
  else if bool_decide (method = "stream") then
    Return (Fulfilled {| classOf := Some Observable; payload := VUndefined |})
  else if bool_decide (method = "list") then
    Return (Fulfilled {| classOf := Some Collection; payload := VUndefined |})
  else if bool_decide (method = "fail") then
    Return (Rejected (Error "failed"))
  else Return (Fulfilled {| classOf := None; payload := VUndefined |}).

(** Bodies are written [controller method arg ...], or a number for a
    subscription id. *)
Definition parseAction (body : string) : Completion (string * string) :=
  match String.words body with
  | controller :: method :: _ => Return (controller, method)
  | _ => Throw (Error "Invalid message body")
  end.

Definition parseValue (word : string) : Value :=
  if bool_decide (word = "2") then VNum 2
  else if bool_decide (word = "3") then VNum 3
  else VStr word.

Definition parseArgs (body : string) : Completion (list Value) :=
  match String.words body with
  | _ :: _ :: args => Return (parseValue <$> args)
  | _ => Throw (Error "Invalid message body")
  end.

Definition parseId (body : string) : Completion Z :=
  if bool_decide (body = "1") then Return 1
  else if bool_decide (body = "2") then Return 2
  else Throw (Error "Invalid message body").

(** A value fails validation when its parameter is a number and it is not. *)
Fixpoint validate (schema : ClassSchema) (args : list Value) : list ValidationFailedItem :=
  match schema, args with
  | p :: schema', a :: args' =>
      (if bool_decide (type p = "number")
       then match a with
            | VNum _ => []
            | _ => [{| vf_path := name p; vf_code := "invalid_number";
                       vf_message := "No number given" |}]
            end
       else []) ++ validate schema' args'
  | _, _ => []
  end.

(** rxjs: a [BehaviorSubject] replays its current value inside [subscribe];
    a closed subscription is handed nothing. *)
Definition world : Collab :=
  {| parseBody_rpcActionType := parseAction;
     parseBody_parameterSchema := fun _ => parseArgs;
     parseBody_rpcActionObservableSubscribeId := parseId;
     getActions := fun _ => ["add"; "greet"; "stream"; "list"; "bare"; "fail"];
     getActionParameters := fun _ method =>
       if bool_decide (method = "add") then [number "a"; number "b"] else [];
     getMethod := fun _ => returnOf;
     getClassPropertyName := fun c method => className c +:+ "." +:+ method;
     getXToClassFunction := fun _ args => Return args;
     jitValidate := validate;
     injector_get := fun c => Return (instanceOfClass c);
     callMethod := fun _ => resultOf;
     sendThrows := fun _ => None;
     subscribeEmits := fun r =>
       if instanceof r "BehaviorSubject" then [OnNext (payload r)] else [];
     delivers := fun closed _ => negb closed;
     deliversEvent := fun closed _ => negb closed;
     collection_model := fun _ => VStr "model";
     collection_state := fun _ => VStr "state";
     collection_all := fun _ => [VStr "x"; VStr "y"] |}.

(** The same world, except that a value already on its way is still handed
    to the callbacks of a closed subscription, and so are collection
    events. *)
Definition racing : Collab :=
  {| parseBody_rpcActionType := parseAction;
     parseBody_parameterSchema := fun _ => parseArgs;
     parseBody_rpcActionObservableSubscribeId := parseId;
     getActions := getActions world;
     getActionParameters := getActionParameters world;
     getMethod := fun _ => returnOf;
     getClassPropertyName := getClassPropertyName world;
     getXToClassFunction := fun _ args => Return args;
     jitValidate := validate;
     injector_get := fun c => Return (instanceOfClass c);
     callMethod := fun _ => resultOf;
     sendThrows := fun _ => None;
     subscribeEmits := subscribeEmits world;
     delivers := fun closed n => negb closed || negb (isTerminal n);
     deliversEvent := fun _ _ => true;
     collection_model := fun _ => VStr "model";
     collection_state := fun _ => VStr "state";
     collection_all := fun _ => [VStr "x"; VStr "y"] |}.

Definition start : Sys := new_Sys {["c1" := C1]}.

(** The types [loadTypes] builds for [c1.add]. *)
Definition addTypes : ActionTypes :=
  {| parameters := [number "a"; number "b"];
     parameterSchema := t_schema_args [number "a"; number "b"];
     resultSchema := [{| name := "v"; type := "number"; isOptional := true;
                         classType := None; templateArgs := [] |}];
     parametersDeserialize := getXToClassFunction world [number "a"; number "b"];
     parametersValidate := jitValidate world [number "a"; number "b"];
     observableNextSchema :=
       [number "id"; {| name := "v"; type := "number"; isOptional := true;
                        classType := None; templateArgs := [] |}];
     collectionSchema := None |}.

Definition action (id : Z) (body : string) : RpcMessage :=
  {| msg_id := id; msg_type := RpcTypes.Action; msg_body := body |}.

Definition control (type : RpcTypes.t) (id : Z) (body : string) : RpcMessage :=
  {| msg_id := id; msg_type := type; msg_body := body |}.

End Sample.

(** ** Vocabulary of the statements *)




Definition isErrorFrame (f : Frame) : bool :=
  match f with
  | ErrorReply _ _ => true
  | _ => false
  end.

(** The four ways a result is answered. *)
Inductive Branch :=
| EntitySubjectBranch
| CollectionBranch
| PushSourceBranch
| PlainBranch.

(** Section 4.2, step 9, in the words of the specification: the classes are
    tested in this fixed order and the first match is taken; a result that
    matches none is plain. *)
Definition classificationOrder : list (string * Branch) :=
  [("EntitySubject", EntitySubjectBranch);
   ("Collection", CollectionBranch);
   ("Observable", PushSourceBranch)].

Definition classify (result : ResultObj) : Branch :=
  match List.find (fun t => instanceof result t.1) classificationOrder with
  | Some (_, b) => b
  | None => PlainBranch
  end.

(** Sample runs used to exercise the statements. *)
Module SampleRuns.
Import Sample.

(** Call 4 returns a plain stream and the client has subscribed with
    subscription id 1. *)
Definition streamSubscribed : Sys :=
  (run [(world, Receive (action 4 "c1 stream"));
        (world, Resume 0%nat);
        (world, Receive (control RpcTypes.ActionObservableSubscribe 4 "1"))] start).1.

(** The stream of call 4 has ended after the client has subscribed. *)
Definition streamEnded : Sys :=
  (run [(world, Emit 0%nat OnComplete)] streamSubscribed).1.

(** Call 9 returns a collection; two events are waiting in the adapter. *)
Definition collectionOpen : Sys :=
  (run [(world, Receive (action 9 "c1 list"));
        (world, Resume 0%nat);
        (world, EmitEvent 0%nat {| ev_type := "add"; ev_items := [VStr "z"]; ev_ids := [] |});
        (world, EmitEvent 0%nat {| ev_type := "set"; ev_items := []; ev_ids := [] |})]
     start).1.

End SampleRuns.

(** The error frames among what was written. *)
Definition errorFrames (log : list Effect) : list Frame :=
  filter (fun f => isErrorFrame f = true) (frames log).

(** ** How the stores evolve *)

(** Every object of [l] is still there in [l'], related by [R]. *)
Definition extends {A} (R : A -> A -> Prop) (l l' : list A) : Prop :=
  forall i x, l !! i = Some x -> exists x', l' !! i = Some x' /\ R x x'.

(** An object [{ active, sub }] keeps its [sub]; [active] is never set again. *)
Definition subObj_later (o o' : SubObj) : Prop :=
  sub o' = sub o /\ (active o = false -> active o' = false).

(** A subscription keeps its callbacks; once closed it stays closed. *)
Definition subscription_later (s s' : Subscription) : Prop :=
  subscriber s' = subscriber s /\ (closed s = true -> closed s' = true).

(** A bridge keeps its id and collection; [unsubscribed] is never reset. *)
Definition bridge_later (b b' : Bridge) : Prop :=
  br_id b' = br_id b /\ br_collection b' = br_collection b
  /\ (unsubscribed b = true -> unsubscribed b' = true).

Definition sys_later (σ σ' : Sys) : Prop :=
  extends subObj_later (subObjs σ) (subObjs σ')
  /\ extends subscription_later (rxSubscriptions σ) (rxSubscriptions σ')
  /\ extends bridge_later (bridges σ) (bridges σ').

(** Every subscription id in [observables] leads to its [{ active, sub }]
    object, whose [sub] is the subscription made for it. *)
Definition wf_observables (σ : Sys) : Prop :=
  forall cid entry subID subObj,
    observables (this σ) !! cid = Some entry ->
    subscriptions entry !! subID = Some subObj ->
    exists o k s,
      subObjs σ !! subObj = Some o /\ sub o = Some k
      /\ rxSubscriptions σ !! k = Some s
      /\ subscriber s = ClientSubscriber cid subID subObj.

(** Every entry of [collections] leads to its bridge and to the subscription
    on the event feed. *)
Definition wf_collections (σ : Sys) : Prop :=
  forall cid e,
    collections (this σ) !! cid = Some e ->
    exists br s,
      bridges σ !! ce_bridge e = Some br /\ br_id br = cid
      /\ rxSubscriptions σ !! ce_eventsSub e = Some s
      /\ subscriber s = EventsSubscriber (ce_bridge e).

Definition wf (σ : Sys) : Prop := wf_observables σ /\ wf_collections σ.

(** The states the dispatcher can be in: those a run reaches from a new
    dispatcher. *)
Definition reachable (σ : Sys) : Prop :=
  exists controllers turns, (run turns (new_Sys controllers)).1 = σ.




(** The opening composite of a collection for call [id]: exactly the model,
    the state and the set, in this order. *)
Definition isOpening (id : Z) (f : Frame) : Prop :=
  exists model state items,
    f = Composite id RpcTypes.ResponseActionCollection
          [(RpcTypes.ResponseActionCollectionModel, BodyModel model);
           (RpcTypes.ResponseActionCollectionState, BodyState state);
           (RpcTypes.ResponseActionCollectionSet, BodyItems items)].

(** Every bridge has had its opening composite written. *)
Definition opened (σ : Sys) (log : list Effect) : Prop :=
  forall b br, bridges σ !! b = Some br ->
    exists o f, Sent o f ∈ log /\ isOpening (br_id br) f.

(** The bridge at [b], with the same id, was there in [σ]. *)
Definition sameBridgeBefore (σ : Sys) (b : nat) (br' : Bridge) : Prop :=
  exists br, bridges σ !! b = Some br /\ br_id br' = br_id br.

(** What can have happened to a cached [ActionTypes] since it was read:
    nothing, or the collection branch has filled in [collectionSchema], which
    was absent. *)
Definition typesLater (types types' : ActionTypes) : Prop :=
  types' = types
  \/ (collectionSchema types = None /\ types' = ensure_collectionSchema types).

Module SampleCache.
Import Sample.

(** The types of [c1.list] are loaded by a type request; then call 9 is
    received and its method resolves to a collection. *)
Definition loaded : Sys :=
  (run [(world, Receive (control RpcTypes.ActionType 1 "c1 list"))] start).1.

Definition afterCollection : Sys :=
  (run [(world, Receive (action 9 "c1 list")); (world, Resume 0%nat)] loaded).1.

End SampleCache.

(** The shape of a cached [ActionTypes]: one optional result property [v],
    which is also the second property of [observableNextSchema] after [id];
    the parameter schema wraps the parameters; [collectionSchema], when it
    is there, is an array of [v]. *)
Definition wellShaped (types : ActionTypes) : Prop :=
  exists v,
    name v = "v" /\ isOptional v = true
    /\ resultSchema types = [v]
    /\ observableNextSchema types = rpcActionObservableSubscribeId ++ [v]
    /\ parameterSchema types = t_schema_args (parameters types)
    /\ (collectionSchema types = None
        \/ collectionSchema types
           = Some [{| name := "v"; type := "array"; isOptional := false;
                      classType := None; templateArgs := [v] |}]).

(** The messages of the errors [handle] answers with. *)
Definition controlErrors : list string :=
  ["No observable found"; "Subscription already created";
   "No collection found"; "No subscription found"].

(** The call ids of the [Action] messages received in the given turns. *)
Definition actionIds (turns : list (Collab * Input)) : list Z :=
  omap (fun turn => match turn.2 with
                    | Receive message =>
                        if decide (msg_type message = RpcTypes.Action)
                        then Some (msg_id message) else None
                    | _ => None
                    end) turns.

(** Call id [cid] has been used by one call at most: at most one suspended
    or resumed call has this id, and only once an [Action] message with it
    was processed; at most one bridge has it, and then that call was
    resumed. *)
Definition calledOnce (cid : Z) (σ : Sys) (processed : list (Collab * Input)) : Prop :=
  (cid ∉ actionIds processed -> cid ∉ pe_id <$> pendings σ)
  /\ (forall p1 p2, (pe_id <$> pendings σ) !! p1 = Some cid ->
                    (pe_id <$> pendings σ) !! p2 = Some cid -> p1 = p2)
  /\ (cid ∈ br_id <$> bridges σ ->
        exists p pe, pendings σ !! p = Some pe /\ pe_id pe = cid /\ pe_resumed pe = true)
  /\ (forall b1 b2, (br_id <$> bridges σ) !! b1 = Some cid ->
                    (br_id <$> bridges σ) !! b2 = Some cid -> b1 = b2).

(** Every subscription id in [observables] leads to an object that says
    [active: true] and whose [sub] is the subscription made for this call id
    and this subscription id.  [hole] excepts the object of a subscription
    whose [subscribe] is still running. *)
Definition live_but (hole : option nat) (σ : Sys) : Prop :=
  forall cid entry subID subObj,
    observables (this σ) !! cid = Some entry ->
    subscriptions entry !! subID = Some subObj ->
    hole <> Some subObj ->
    exists o k s,
      subObjs σ !! subObj = Some o /\ active o = true /\ sub o = Some k
      /\ rxSubscriptions σ !! k = Some s
      /\ subscriber s = ClientSubscriber cid subID subObj.

Definition live (σ : Sys) : Prop := live_but None σ.

(** [subscribe] for subscription id [body_id] of call id [id] is running:
    the object [subObj] has no [sub] yet, and no other subscription id leads
    to it. *)
Definition opening (id body_id : Z) (subObj : nat) (σ : Sys) : Prop :=
  (subObj < length (subObjs σ))%nat
  /\ forall cid entry subID,
       observables (this σ) !! cid = Some entry ->
       subscriptions entry !! subID = Some subObj ->
       cid = id /\ subID = body_id
       /\ subObjs σ !! subObj = Some {| active := true; sub := None |}.

(** Every entry of [observableSubjects] leads to the subscription made for
    the subject of that call. *)
Definition wf_subjects (σ : Sys) : Prop :=
  forall id k,
    observableSubjects (this σ) !! id = Some k ->
    exists s, rxSubscriptions σ !! k = Some s /\ subscriber s = SubjectSubscriber id.

Definition consistent (σ : Sys) : Prop :=
  live σ /\ wf_subjects σ /\ wf_collections σ.

(** The source library hands nothing at all to the callbacks of a
    subscription that is closed. *)
Definition stopsOnUnsubscribe (c : Collab) : Prop :=
  forall n, delivers c true n = false.

Module SampleSubject.
Import Sample.

(** Call 5 returns a [BehaviorSubject]; the dispatcher has subscribed to it
    and announced it. *)
Definition forwarded : Sys :=
  (run [(world, Receive (action 5 "c1 greet")); (world, Resume 0%nat)] start).1.

Definition unsubscribe : RpcMessage :=
  control RpcTypes.ActionObservableSubjectUnsubscribe 5 "".

(** The client has sent [ActionObservableSubjectUnsubscribe] for call 5. *)
Definition unsubscribed : Sys := (handle world unsubscribe forwarded).1.1.

End SampleSubject.

(** The call id under which the callbacks of a subscription write. *)
Definition subscriber_id (s : Subscriber) : option Z :=
  match s with
  | ClientSubscriber id _ _ | SubjectSubscriber id => Some id
  | EventsSubscriber _ => None
  end.

(** Every call id kept by a callback, by the variables of a collection
    branch or by a suspended call satisfies [S]. *)
Definition idsFrom (S : Z -> Prop) (σ : Sys) : Prop :=
  Forall (fun s => from_option S True (subscriber_id s)) (subscriber <$> rxSubscriptions σ)
  /\ Forall S (br_id <$> bridges σ)
  /\ Forall S (pe_id <$> pendings σ).

(** The ids of the messages received in these turns. *)
Definition receivedIds (turns : list (Collab * Input)) : list Z :=
  flat_map (fun t => match t.2 with
                     | Receive message => [msg_id message]
                     | Reentered message _ inner => [msg_id message; msg_id inner]
                     | _ => []
                     end) turns.

(** The frame the callbacks of lines 162 to 175 (with [body.id]) and of
    lines 293 to 305 (with [message.id]) write for a notification. *)
Definition notificationFrame (id body_id : Z) (n : Notification) : Frame :=
  match n with
  | OnNext v => Reply id RpcTypes.ResponseActionObservableNext (BodyNext body_id v)
  | OnError e =>
      Reply id RpcTypes.ResponseActionObservableError (BodyObservableError e body_id)
  | OnComplete => Reply id RpcTypes.ResponseActionObservableComplete (BodyId body_id)
  end.

(** The [type] of the announcement (lines 288 to 311). *)
Definition observableType (result : ResultObj) : ActionObservableTypes.t :=
  if instanceof result "Subject" then
    if instanceof result "BehaviorSubject" then ActionObservableTypes.behaviorSubject
    else ActionObservableTypes.subject
  else ActionObservableTypes.observable.

(** The frame that answers a fulfilled result, by branch (lines 233, 246 to
    250, 313 and 315). *)
Definition resultFrame (c : Collab) (id : Z) (result : ResultObj) : Frame :=
  match classify result with
  | EntitySubjectBranch => Reply id RpcTypes.ResponseEntity (BodyV (payload result))
  | CollectionBranch => openingComposite c id result
  | PushSourceBranch =>
      Reply id RpcTypes.ResponseActionObservable (BodyType (observableType result))
  | PlainBranch => Reply id RpcTypes.ResponseActionSimple (BodyV (payload result))
  end.

Module SampleRace.
Import Sample.

(** The sample world, except that every stream hands over the value ["a"]
    inside [subscribe]. *)
Definition eager : Collab :=
  {| parseBody_rpcActionType := parseAction;
     parseBody_parameterSchema := fun _ => parseArgs;
     parseBody_rpcActionObservableSubscribeId := parseId;
     getActions := getActions world;
     getActionParameters := getActionParameters world;
     getMethod := fun _ => returnOf;
     getClassPropertyName := getClassPropertyName world;
     getXToClassFunction := fun _ args => Return args;
     jitValidate := validate;
     injector_get := fun c => Return (instanceOfClass c);
     callMethod := fun _ => resultOf;
     sendThrows := fun _ => None;
     subscribeEmits := fun _ => [OnNext (VStr "a")];
     delivers := fun closed _ => negb closed;
     deliversEvent := fun closed _ => negb closed;
     collection_model := fun _ => VStr "model";
     collection_state := fun _ => VStr "state";
     collection_all := fun _ => [VStr "x"; VStr "y"] |}.

Definition subscribe : RpcMessage := control RpcTypes.ActionObservableSubscribe 4 "1".
Definition unsubscribe : RpcMessage := control RpcTypes.ActionObservableUnsubscribe 4 "1".


(** Call 4 returns a stream and the client subscribes with subscription id
    1.  The stream hands over ["a"] inside [subscribe]; the client wants one
    value and unsubscribes as soon as the frame arrives, which is while
    [subscribe] is still running. *)
Definition unsubscribedInSubscribe : list (Collab * Input) :=
  [(world, Receive (action 4 "c1 stream"));
   (world, Resume 0%nat);
   (eager, Reentered subscribe 1 unsubscribe)].

Definition unsubscribed : Sys := (run unsubscribedInSubscribe start).1.

End SampleRace.

(** * Properties *)

(** ** Scenarios of the specification *)

(** Scenario S1: [add(2, 3)] with call id 7. *)
Example scenario_plain_value :
  frames (handleAction Sample.world (Sample.action 7 "c1 add 2 3") Sample.start).1.2
  = [Reply 7 RpcTypes.ResponseActionSimple (BodyV (VNum 5))].
Proof. vm_compute. reflexivity. Qed.

(** Scenario S2: [add("x", 3)] is answered by a validation error and the
    method is not called. *)
Example scenario_validation_failure :
  (handleAction Sample.world (Sample.action 7 "c1 add x 3") Sample.start).1.2
  = [Sent ByHandler
       (ErrorReply 7 (ValidationError
          [{| vf_path := "a"; vf_code := "invalid_number"; vf_message := "No number given" |}]))].
Proof. vm_compute. reflexivity. Qed.

(** Scenario S6: a method declared to return a bare [Observable]. *)
Example scenario_wrapper_without_generic :
  exists msg,
    handleAction Sample.world (Sample.action 1 "c1 bare") Sample.start
    = (Sample.start, [], Throw (Error msg)).
Proof. eexists. vm_compute. reflexivity. Qed.

(** ** [loadTypes] *)










(** ** Validation *)

(** C9: when the statements before validation succeed and the decoded
    arguments give a non-empty list of failures, [handleAction] writes exactly
    one error frame, carrying a [ValidationError] with that list, and does not
    call the method; when the list is empty, the method is called. *)
Theorem validation_rejects_before_invocation
    c message (σ : Sys) controller method controllerClass this' types args
    controllerInstance converted :
  parseBody_rpcActionType c (msg_body message) = Return (controller, method) ->
  controllers (this σ) !! controller = Some controllerClass ->
  loadTypes c (this σ) controller method = (this', Return types) ->
  parseBody_parameterSchema c (parameterSchema types) (msg_body message) = Return args ->
  injector_get c controllerClass = Return controllerInstance ->
  parametersDeserialize types args = Return converted ->
  (parametersValidate types converted <> [] ->
     handleAction c message σ
     = (set_this σ this',
        [Sent ByHandler
           (ErrorReply (msg_id message)
              (ValidationError (parametersValidate types converted)))],
        Return ()))
  /\ (parametersValidate types converted = [] ->
        exists σ' rest,
          handleAction c message σ
          = (σ', Invoked controllerInstance method converted :: rest, Return ())).
Proof.
  intros Hparse Hctrl Hload Hargs Hinj Hdes.
  unfold handleAction, handleAction_begin, prepare.
  rewrite Hparse, Hctrl, Hload, Hargs, Hinj, Hdes. simpl.
  split; intros Herr.
  - rewrite bool_decide_eq_false_2; [reflexivity |].
    intros Hlen. by apply nil_length_inv in Hlen.
  - rewrite Herr. simpl.
    destruct (callMethod c controllerInstance method converted) as [settled | e].
    + destruct (handleAction_resume _ _ _) as [σ' written'] eqn:Hres.
      by exists σ', written'.
    + by eexists _, _.
Qed.

Lemma validation_rejects_before_invocation_witness :
  handleAction Sample.world (Sample.action 7 "c1 add x 3") Sample.start
  = (set_this Sample.start
       (loadTypes Sample.world (this Sample.start) "c1" "add").1,
     [Sent ByHandler
        (ErrorReply 7 (ValidationError
           [{| vf_path := "a"; vf_code := "invalid_number";
               vf_message := "No number given" |}]))],
     Return ())
  /\ exists σ' rest,
       handleAction Sample.world (Sample.action 8 "c1 add 2 3") Sample.start
       = (σ', Invoked (instanceOfClass Sample.C1) "add" [VNum 2; VNum 3] :: rest, Return ()).
Proof.
  split.
  - apply (proj1 (validation_rejects_before_invocation Sample.world
              (Sample.action 7 "c1 add x 3") Sample.start "c1" "add" Sample.C1
              (loadTypes Sample.world (this Sample.start) "c1" "add").1 Sample.addTypes
              [VStr "x"; VNum 3] (instanceOfClass Sample.C1) [VStr "x"; VNum 3]
              eq_refl eq_refl eq_refl eq_refl eq_refl eq_refl)).
    discriminate.
  - apply (proj2 (validation_rejects_before_invocation Sample.world
              (Sample.action 8 "c1 add 2 3") Sample.start "c1" "add" Sample.C1
              (loadTypes Sample.world (this Sample.start) "c1" "add").1 Sample.addTypes
              [VNum 2; VNum 3] (instanceOfClass Sample.C1) [VNum 2; VNum 3]
              eq_refl eq_refl eq_refl eq_refl eq_refl eq_refl)).
    reflexivity.
Defined.

(** ** Frames of a log *)

Lemma frames_app l1 l2 : frames (l1 ++ l2) = frames l1 ++ frames l2.
Proof. unfold frames. by rewrite omap_app. Qed.

Lemma frames_Sent o fs : frames (Sent o <$> fs) = fs.
Proof. induction fs as [| f fs IH]; [done |]. unfold frames in *. simpl. by f_equal. Qed.

Lemma errorFrames_app l1 l2 : errorFrames (l1 ++ l2) = errorFrames l1 ++ errorFrames l2.
Proof. unfold errorFrames. by rewrite frames_app, filter_app. Qed.

Lemma onNotification_not_error σ s n f :
  f ∈ onNotification σ s n -> isErrorFrame f = false.
Proof.
  destruct s, n; simpl; try (by intros ?%elem_of_nil);
    try (by intros ->%list_elem_of_singleton).
  destruct (subObjs σ !! subObj) as [o |]; [destruct (negb (active o)) |];
    try (by intros ?%elem_of_nil); by intros ->%list_elem_of_singleton.
Qed.

(** ** Classification of the result *)

Lemma classify_cases result :
  (instanceof result "EntitySubject" = true /\ classify result = EntitySubjectBranch)
  \/ (instanceof result "EntitySubject" = false /\ instanceof result "Collection" = true
      /\ classify result = CollectionBranch)
  \/ (instanceof result "EntitySubject" = false /\ instanceof result "Collection" = false
      /\ instanceof result "Observable" = true /\ classify result = PushSourceBranch)
  \/ (instanceof result "EntitySubject" = false /\ instanceof result "Collection" = false
      /\ instanceof result "Observable" = false /\ classify result = PlainBranch).
Proof.
  unfold classify, classificationOrder. simpl.
  destruct (instanceof result "EntitySubject"); [by left |].
  destruct (instanceof result "Collection"); [by right; left |].
  destruct (instanceof result "Observable"); [by right; right; left |].
  by right; right; right.
Qed.

(** C3: the continuation of [handleAction] answers a fulfilled result along
    the branch that the fixed order entity-subject, collection, push source,
    plain selects, whatever other classes the result is an instance of.
    Entity branch and plain branch: one frame of that type (or the error of
    [catch]) and no change of state.  Collection branch: the opening composite
    and a new entry of [collections], [observables] and [observableSubjects]
    untouched.  Push-source branch: a new entry of [observables], the
    announcement written last, [collections] untouched. *)
Theorem classification_order c id cacheId types result resumed (σ : Sys) :
  let p := {| pe_id := id; pe_cacheId := cacheId; pe_types := types;
              pe_settled := Fulfilled result; pe_resumed := resumed |} in
  let σ' := (handleAction_resume c p σ).1 in
  let written := (handleAction_resume c p σ).2 in
  match classify result with
  | EntitySubjectBranch =>
      σ' = σ
      /\ written = try_send c id (Reply id RpcTypes.ResponseEntity (BodyV (payload result)))
  | CollectionBranch =>
      observables (this σ') = observables (this σ)
      /\ observableSubjects (this σ') = observableSubjects (this σ)
      /\ ((exists e, sendThrows c (openingComposite c id result) = Some e
                     /\ written = [Sent ByHandler (ErrorReply id e)]
                     /\ collections (this σ') = collections (this σ))
          \/ (sendThrows c (openingComposite c id result) = None
              /\ written = [Sent ByHandler (openingComposite c id result)]
              /\ collections (this σ') !! id
                 = Some {| ce_bridge := length (bridges σ);
                           ce_eventsSub := length (rxSubscriptions σ) |}))
  | PushSourceBranch =>
      collections (this σ') = collections (this σ)
      /\ observables (this σ') !! id
         = Some {| observable := result; subscriptions := ∅;
                   oe_observableNextSchema := observableNextSchema types |}
      /\ exists type before,
           written = before ++ try_send c id
                       (Reply id RpcTypes.ResponseActionObservable (BodyType type))
  | PlainBranch =>
      σ' = σ
      /\ written = try_send c id (Reply id RpcTypes.ResponseActionSimple (BodyV (payload result)))
  end.
Proof.
  intros p σ' written. subst p σ' written. unfold handleAction_resume. simpl.
  destruct (classify_cases result) as
    [[He ->] | [(He & Hc & ->) | [(He & Hc & Ho & ->) | (He & Hc & Ho & ->)]]].
  - rewrite He. done.
  - rewrite He, Hc.
    destruct (sendThrows c (openingComposite c id result)) as [e |] eqn:Hsend; simpl.
    + split; [done |]. split; [done |]. left. by exists e.
    + split; [done |]. split; [done |]. right.
      split; [done |]. split; [done |]. by rewrite lookup_insert_eq.
  - rewrite He, Hc, Ho.
    destruct (instanceof result "Subject"); simpl.
    + split; [done |]. split; [by rewrite lookup_insert_eq |]. by eexists _, _.
    + split; [done |]. split; [by rewrite lookup_insert_eq |]. by eexists _, [].
  - rewrite He, Hc, Ho. done.
Qed.

(** ** Push sources: the announcement *)

Lemma run_cons c i rest σ :
  run ((c, i) :: rest) σ
  = ((run rest (step c i σ).1).1, (step c i σ).2 ++ (run rest (step c i σ).1).2).
Proof.
  destruct (step c i σ) as [σ1 w1] eqn:Hstep. cbn [run]. rewrite Hstep.
  cbn [fst snd]. by destruct (run rest σ1).
Qed.

Lemma flat_map_singleton {A B} (f : A -> B) (l : list A) :
  flat_map (fun x => [f x]) l = f <$> l.
Proof. induction l as [| x l IH]; [done |]. simpl. by rewrite IH. Qed.

Lemma onNotification_subject σ id n :
  onNotification σ (SubjectSubscriber id) n = [notificationFrame id id n].
Proof. by destruct n. Qed.

(** C1, as the code has it: for a subject, [handleAction] subscribes first
    and announces last.  When the promise of call [id] has settled with a
    subject, the frames of that turn are the frames for what the subject
    hands over inside [subscribe] (a [BehaviorSubject] its current value),
    each with the call id in the body, and after them the announcement
    [ResponseActionObservable] with type [subject] or [behaviorSubject];
    every frame of a later turn, those of the subscription [k] made here
    included, comes after the announcement. *)
Theorem subject_announced_after_subscribe c (σ : Sys) p pe result turns :
  pendings σ !! p = Some pe ->
  pe_resumed pe = false ->
  pe_settled pe = Fulfilled result ->
  instanceof result "EntitySubject" = false ->
  instanceof result "Collection" = false ->
  instanceof result "Observable" = true ->
  instanceof result "Subject" = true ->
  let id := pe_id pe in
  let k := length (rxSubscriptions σ) in
  let announcement :=
    Reply id RpcTypes.ResponseActionObservable
      (BodyType (if instanceof result "BehaviorSubject"
                 then ActionObservableTypes.behaviorSubject
                 else ActionObservableTypes.subject)) in
  let σ' := (step c (Resume p) σ).1 in
  (run ((c, Resume p) :: turns) σ).2
  = (Sent (BySubscription k) <$> (notificationFrame id id <$> subscribeEmits c result))
    ++ try_send c id announcement
    ++ (run turns σ').2
  /\ observableSubjects (this σ') !! id = Some k.
Proof.
  intros Hp Hres Hset He Hc Ho Hs id k announcement σ'.
  assert (Hstep : step c (Resume p) σ
                  = handleAction_resume c pe
                      (set_pendings σ (alter set_resumed p (pendings σ)))).
  { simpl. by rewrite Hp, Hres. }
  rewrite run_cons. cbn [snd]. subst σ'. rewrite Hstep.
  unfold handleAction_resume. rewrite Hset, He, Hc, Ho, Hs. unfold rx_subscribe.
  cbn [fst snd]. split.
  - rewrite <- app_assoc. f_equal.
    rewrite (flat_map_ext _ (fun n => [notificationFrame id id n]))
      by (intros n; apply onNotification_subject).
    by rewrite flat_map_singleton.
  - simpl. by rewrite lookup_insert_eq.
Qed.

(** The subject of call 11 hands over ["hi"] inside [subscribe] and ["ho"]
    in a later turn. *)
Lemma subject_announced_after_subscribe_witness :
  frames (run [(Sample.world, Resume 0%nat);
               (Sample.world, Emit 0%nat (OnNext (VStr "ho")))]
            (run [(Sample.world, Receive (Sample.action 11 "c1 greet"))] Sample.start).1).2
  = [Reply 11 RpcTypes.ResponseActionObservableNext (BodyNext 11 (VStr "hi"));
     Reply 11 RpcTypes.ResponseActionObservable
       (BodyType ActionObservableTypes.behaviorSubject);
     Reply 11 RpcTypes.ResponseActionObservableNext (BodyNext 11 (VStr "ho"))].
Proof.
  destruct (subject_announced_after_subscribe Sample.world
              (run [(Sample.world, Receive (Sample.action 11 "c1 greet"))] Sample.start).1
              0%nat
              {| pe_id := 11; pe_cacheId := "c1!greet";
                 pe_types :=
                   match (loadTypes Sample.world (this Sample.start) "c1" "greet").2 with
                   | Return types => types
                   | Throw _ => Sample.addTypes
                   end;
                 pe_settled :=
                   Fulfilled {| classOf := Some Sample.BehaviorSubject;
                                payload := VStr "hi" |};
                 pe_resumed := false |}
              {| classOf := Some Sample.BehaviorSubject; payload := VStr "hi" |}
              [(Sample.world, Emit 0%nat (OnNext (VStr "ho")))])
    as [H _]; [reflexivity .. |].
  rewrite H. vm_compute. reflexivity.
Defined.

(** C1, as stated, fails: scenario S3 on the code.  The method returns a
    [BehaviorSubject] whose current value is ["hi"], the call id is 11: the
    frame [ResponseActionObservableNext] with the replayed value is written
    first, the announcement [ResponseActionObservable] after it. *)
Lemma latched_subject_value_precedes_announcement :
  frames (handleAction Sample.world (Sample.action 11 "c1 greet") Sample.start).1.2
  = [Reply 11 RpcTypes.ResponseActionObservableNext (BodyNext 11 (VStr "hi"));
     Reply 11 RpcTypes.ResponseActionObservable
       (BodyType ActionObservableTypes.behaviorSubject)].
Proof. vm_compute. reflexivity. Qed.

(** ** Client subscriptions *)

(** C10: on a call id with an entry in [observables], once
    [ActionObservableUnsubscribe] has removed subscription id [subID], an
    [ActionObservableSubscribe] with the same [subID] is accepted: no error
    frame is written, and the table holds a new [{ active: true }] object,
    different from the one that was removed, on a new subscription. *)
Theorem resubscribe_after_unsubscribe
    c c' (σ : Sys) cid subID entry subObj unsubscribeBody subscribeBody :
  observables (this σ) !! cid = Some entry ->
  subscriptions entry !! subID = Some subObj ->
  (subObj < length (subObjs σ))%nat ->
  parseBody_rpcActionObservableSubscribeId c unsubscribeBody = Return subID ->
  parseBody_rpcActionObservableSubscribeId c' subscribeBody = Return subID ->
  let unsubscribeMessage :=
    {| msg_id := cid; msg_type := RpcTypes.ActionObservableUnsubscribe;
       msg_body := unsubscribeBody |} in
  let subscribeMessage :=
    {| msg_id := cid; msg_type := RpcTypes.ActionObservableSubscribe;
       msg_body := subscribeBody |} in
  let σ1 := (handle c unsubscribeMessage σ).1.1 in
  let σ2 := (handle c' subscribeMessage σ1).1.1 in
  handle c unsubscribeMessage σ = (σ1, [], Return ())
  /\ (exists entry1, observables (this σ1) !! cid = Some entry1
                     /\ subscriptions entry1 !! subID = None)
  /\ (handle c' subscribeMessage σ1).2 = Return ()
  /\ (forall f, f ∈ frames (handle c' subscribeMessage σ1).1.2 -> isErrorFrame f = false)
  /\ exists entry2 subObj' k,
       observables (this σ2) !! cid = Some entry2
       /\ subscriptions entry2 !! subID = Some subObj'
       /\ subObj' <> subObj
       /\ subObjs σ2 !! subObj' = Some {| active := true; sub := Some k |}
       /\ rxSubscriptions σ2 !! k
          = Some {| subscriber := ClientSubscriber cid subID subObj';
                    closed := existsb isTerminal (subscribeEmits c' (observable entry)) |}.
Proof.
  intros Hentry Hsub Hlt Hp Hp' unsubscribeMessage subscribeMessage σ1 σ2.
  assert (H1 : handle c unsubscribeMessage σ
               = (client_unsubscribe cid subID entry subObj σ, [], Return ())).
  { unfold handle. simpl. by rewrite Hentry, Hp, Hsub. }
  assert (Hσ1 : σ1 = client_unsubscribe cid subID entry subObj σ).
  { subst σ1. by rewrite H1. }
  set (entry1 := set_subscriptions entry (delete subID (subscriptions entry))).
  assert (Hobs1 : observables (this σ1) !! cid = Some entry1).
  { rewrite Hσ1. unfold client_unsubscribe. simpl. by rewrite lookup_insert_eq. }
  assert (Hlen1 : length (subObjs σ1) = length (subObjs σ)).
  { rewrite Hσ1. unfold client_unsubscribe. simpl.
    destruct (subObjs σ !! subObj ≫= sub); simpl; by rewrite length_alter. }
  assert (H2 : handle c' subscribeMessage σ1
               = ((client_subscribe c' cid subID entry1 σ1).1,
                  (client_subscribe c' cid subID entry1 σ1).2, Return ())).
  { unfold handle. simpl. rewrite Hobs1, Hp'. simpl. rewrite lookup_delete_eq.
    by destruct (client_subscribe c' cid subID entry1 σ1). }
  split; [by rewrite <- Hσ1 in H1 |].
  split.
  { exists entry1. split; [exact Hobs1 |]. simpl. by rewrite lookup_delete_eq. }
  split; [by rewrite H2 |].
  split.
  { rewrite H2. simpl. intros f Hf. unfold client_subscribe, rx_subscribe in Hf.
    simpl in Hf. rewrite frames_Sent in Hf.
    apply list_elem_of_In, in_flat_map in Hf as (n & _ & Hn).
    apply list_elem_of_In in Hn. by apply onNotification_not_error in Hn. }
  assert (Hσ2 : σ2 = (client_subscribe c' cid subID entry1 σ1).1).
  { subst σ2. by rewrite H2. }
  rewrite Hσ2. unfold client_subscribe, rx_subscribe. simpl.
  eexists _, (length (subObjs σ1)), (length (rxSubscriptions σ1)).
  split; [by rewrite lookup_insert_eq |].
  split; [simpl; by rewrite lookup_insert_eq |].
  split; [lia |].
  split.
  - rewrite list_lookup_alter_eq, lookup_app_r, Nat.sub_diag by lia. reflexivity.
  - rewrite lookup_app_r, Nat.sub_diag by lia. reflexivity.
Qed.

Lemma resubscribe_after_unsubscribe_witness :
  let unsubscribed :=
    (handle Sample.world (Sample.control RpcTypes.ActionObservableUnsubscribe 4 "1")
       SampleRuns.streamSubscribed).1.1 in
  let resubscribed :=
    (handle Sample.world (Sample.control RpcTypes.ActionObservableSubscribe 4 "1")
       unsubscribed).1.1 in
  exists entry2 subObj',
    observables (this resubscribed) !! 4 = Some entry2
    /\ subscriptions entry2 !! 1 = Some subObj'
    /\ subObj' <> 0%nat
    /\ (active <$> subObjs resubscribed !! subObj') = Some true.
Proof.
  destruct (resubscribe_after_unsubscribe Sample.world Sample.world
              SampleRuns.streamSubscribed 4 1
              {| observable := {| classOf := Some Sample.Observable; payload := VUndefined |};
                 subscriptions := {[1 := 0%nat]};
                 oe_observableNextSchema :=
                   registerProperty rpcActionObservableSubscribeId
                     {| name := "v"; type := "string"; isOptional := true;
                        classType := None; templateArgs := [] |} |}
              0%nat "1" "1")
    as (_ & _ & _ & _ & entry2 & subObj' & k & H1 & H2 & H3 & H4 & _).
  - vm_compute. reflexivity.
  - reflexivity.
  - vm_compute. lia.
  - reflexivity.
  - reflexivity.
  - exists entry2, subObj'. split; [exact H1 |]. split; [exact H2 |].
    split; [exact H3 |]. exact (f_equal (fmap active) H4).
Defined.

(** ** Failures *)

Lemma filter_none {A} (P : A -> Prop) `{forall x, Decision (P x)} (l : list A) :
  (forall x, x ∈ l -> ~ P x) -> filter P l = [].
Proof.
  induction l as [| x l IH]; intros Hl; [done |].
  rewrite filter_cons_False by (apply Hl; left).
  apply IH. intros y Hy. apply Hl. by right.
Qed.

Lemma errorFrames_notifications o σ s ns :
  errorFrames (Sent o <$> flat_map (onNotification σ s) ns) = [].
Proof.
  unfold errorFrames. rewrite frames_Sent.
  apply filter_none. intros f Hf Herr.
  apply list_elem_of_In, in_flat_map in Hf as (n & _ & Hn).
  apply list_elem_of_In, onNotification_not_error in Hn. congruence.
Qed.

Lemma errorFrames_try_send c id f :
  isErrorFrame f = false -> (length (errorFrames (try_send c id f)) <= 1)%nat.
Proof.
  intros Hf. unfold try_send, errorFrames, frames.
  destruct (sendThrows c f); simpl; [lia |].
  rewrite filter_cons_False by congruence. simpl. lia.
Qed.

Lemma handleAction_resume_one_error c p σ :
  (length (errorFrames (handleAction_resume c p σ).2) <= 1)%nat.
Proof.
  unfold handleAction_resume.
  destruct (pe_settled p) as [result | e]; [| by cbv; lia].
  destruct (instanceof result "EntitySubject"); [by apply errorFrames_try_send |].
  destruct (instanceof result "Collection").
  { destruct (sendThrows c _); simpl; cbv; lia. }
  destruct (instanceof result "Observable"); [| by apply errorFrames_try_send].
  destruct (instanceof result "Subject"); simpl.
  - rewrite errorFrames_app, errorFrames_notifications. simpl.
    by apply errorFrames_try_send.
  - by apply errorFrames_try_send.
Qed.

Lemma try_send_answer c id f :
  isErrorFrame f = false ->
  errorFrames (try_send c id f)
  = match sendThrows c f with
    | Some e => [ErrorReply id e]
    | None => []
    end
  /\ (sendThrows c f = None -> f ∈ frames (try_send c id f)).
Proof.
  intros Hf. unfold try_send, errorFrames, frames, response_error.
  destruct (sendThrows c f); simpl.
  - by rewrite filter_cons_True.
  - rewrite filter_cons_False by congruence. split; [done |]. intros _. by left.
Qed.

(** The continuation answers a fulfilled result with the frame of its
    branch, or with the error that building this frame throws. *)
Lemma handleAction_resume_answer c p σ result :
  pe_settled p = Fulfilled result ->
  errorFrames (handleAction_resume c p σ).2
  = match sendThrows c (resultFrame c (pe_id p) result) with
    | Some e => [ErrorReply (pe_id p) e]
    | None => []
    end
  /\ (sendThrows c (resultFrame c (pe_id p) result) = None ->
      resultFrame c (pe_id p) result ∈ frames (handleAction_resume c p σ).2).
Proof.
  intros Hset. unfold handleAction_resume, resultFrame, observableType. rewrite Hset.
  destruct (classify_cases result) as
    [(He & ->) | [(He & Hc & ->) | [(He & Hc & Ho & ->) | (He & Hc & Ho & ->)]]];
    rewrite ?He, ?Hc, ?Ho.
  - by apply try_send_answer.
  - destruct (sendThrows c _); simpl; [done |]. split; [done |]. intros _.
    unfold frames. simpl. by left.
  - destruct (instanceof result "Subject"); simpl.
    + rewrite errorFrames_app, errorFrames_notifications, frames_app. simpl.
      destruct (try_send_answer c (pe_id p)
                  (Reply (pe_id p) RpcTypes.ResponseActionObservable
                     (BodyType (if instanceof result "BehaviorSubject"
                                then ActionObservableTypes.behaviorSubject
                                else ActionObservableTypes.subject))) eq_refl) as [H1 H2].
      split; [exact H1 |]. intros Hnone. apply elem_of_app. right. by apply H2.
    + by apply try_send_answer.
  - by apply try_send_answer.
Qed.

(** C2, as the code has it: [handleAction] rejects exactly when a statement
    before [try] throws (body parsing, controller lookup, loading of the
    types, parsing of the arguments, resolution of the controller, decoding),
    and then it has written nothing.  Otherwise it resolves and has written at
    most one error frame: exactly the validation error when validation fails;
    exactly the error of the method when the method throws or its promise
    rejects; and when the promise fulfils, exactly the error that building
    the frame of the result throws, and no error frame, but that frame, when
    building it does not throw. *)
Theorem failures_caught_inside_try_only c message (σ : Sys) :
  let id := msg_id message in
  let out := handleAction c message σ in
  (forall e, (prepare c message (this σ)).2 = Throw e ->
     out = (set_this σ (prepare c message (this σ)).1, [], Throw e))
  /\ (forall call, (prepare c message (this σ)).2 = Return call ->
        out.2 = Return ()
        /\ (length (errorFrames out.1.2) <= 1)%nat
        /\ (pr_errors call <> [] ->
              out.1.2 = [Sent ByHandler (ErrorReply id (ValidationError (pr_errors call)))])
        /\ (pr_errors call = [] ->
              (forall e,
                  callMethod c (pr_instance call) (pr_method call) (pr_converted call)
                  = Throw e
                  \/ callMethod c (pr_instance call) (pr_method call) (pr_converted call)
                     = Return (Rejected e) ->
                  frames out.1.2 = [ErrorReply id e])
              /\ (forall result,
                    callMethod c (pr_instance call) (pr_method call) (pr_converted call)
                    = Return (Fulfilled result) ->
                    (forall e, sendThrows c (resultFrame c id result) = Some e ->
                               errorFrames out.1.2 = [ErrorReply id e])
                    /\ (sendThrows c (resultFrame c id result) = None ->
                        errorFrames out.1.2 = []
                        /\ resultFrame c id result ∈ frames out.1.2)))).
Proof.
  intros id out. subst out id. unfold handleAction, handleAction_begin.
  destruct (prepare c message (this σ)) as [this' [call | e0]] eqn:Hprep; simpl.
  - split; [intros e He; discriminate |].
    intros call' [= <-].
    destruct (pr_errors call) as [| err errs] eqn:Herrs; simpl.
    + destruct (callMethod c _ _ _) as [settled | e] eqn:Hcall; simpl.
      * set (p := {| pe_id := msg_id message;
                     pe_cacheId := cacheIdOf (pr_controller call) (pr_method call);
                     pe_types := pr_types call; pe_settled := settled;
                     pe_resumed := false |}).
        pose proof (handleAction_resume_one_error c p (set_this σ this')) as Hone.
        pose proof (handleAction_resume_answer c p (set_this σ this')) as Hanswer.
        destruct (handleAction_resume c p (set_this σ this')) as [σ' written'] eqn:Hres.
        cbn [fst snd] in *.
        assert (Herr : errorFrames
                         (Invoked (pr_instance call) (pr_method call) (pr_converted call)
                          :: written')
                       = errorFrames written') by done.
        split; [done |]. split; [by rewrite Herr |]. split; [done |].
        intros _. split.
        -- intros e [? | [= ->]]; [discriminate |].
           unfold handleAction_resume in Hres. simpl in Hres. by simplify_eq.
        -- intros result [= ->]. rewrite Herr.
           destruct (Hanswer result eq_refl) as [H1 H2].
           change (pe_id p) with (msg_id message) in H1, H2. split.
           ++ intros e He. by rewrite H1, He.
           ++ intros Hnone. split; [by rewrite H1, Hnone | by apply H2].
      * split; [done |]. split; [cbv; lia |]. split; [done |].
        intros _. split; [| intros result; discriminate].
        intros e' [[= ->] | ?]; [done | discriminate].
    + split; [done |]. split; [cbv; lia |]. split; [done |]. done.
  - split; [by intros e [= ->] |]. intros call. discriminate.
Qed.

(** C2, as stated, fails: a call for a controller that is not registered
    makes [handleAction] reject, and no error frame is written. *)
Lemma unknown_controller_escapes :
  handleAction Sample.world (Sample.action 1 "c9 add 2 3") Sample.start
  = (Sample.start, [], Throw (Error "No controller registered for id c9")).
Proof. vm_compute. reflexivity. Qed.

(** ** Stores only grow *)

Section Extends.
Context {A : Type} (R : A -> A -> Prop).
Hypothesis R_refl : forall x, R x x.
Hypothesis R_trans : forall x y z, R x y -> R y z -> R x z.

Lemma extends_refl (l : list A) : extends R l l.
Proof using R_refl. intros i x Hx. eauto. Qed.

Lemma extends_trans (l1 l2 l3 : list A) :
  extends R l1 l2 -> extends R l2 l3 -> extends R l1 l3.
Proof using R_trans.
  intros H12 H23 i x Hx.
  destruct (H12 i x Hx) as (y & Hy & Hxy).
  destruct (H23 i y Hy) as (z & Hz & Hyz). eauto.
Qed.

Lemma extends_app (l : list A) (x : A) : extends R l (l ++ [x]).
Proof using R_refl.
  intros i y Hy. exists y. split; [by apply lookup_app_l_Some | done].
Qed.

Lemma extends_alter (f : A -> A) (i : nat) (l : list A) :
  (forall x, R x (f x)) -> extends R l (alter f i l).
Proof using R_refl.
  intros Hf j x Hx. destruct (decide (i = j)) as [-> | Hne].
  - exists (f x). by rewrite list_lookup_alter_eq, Hx.
  - exists x. by rewrite list_lookup_alter_ne.
Qed.

Lemma extends_alter_new (f : A -> A) (l l' : list A) :
  extends R l l' -> extends R l (alter f (length l) l').
Proof.
  intros H j y Hy. destruct (H j y Hy) as (y' & Hy' & Hyy'). exists y'.
  split; [| done]. rewrite list_lookup_alter_ne by (apply lookup_lt_Some in Hy; lia).
  done.
Qed.

Lemma extends_app_alter_last (f : A -> A) (l : list A) (x : A) :
  extends R l (alter f (length l) (l ++ [x])).
Proof using R_refl.
  intros j y Hy. exists y. split; [| done].
  rewrite list_lookup_alter_ne by (apply lookup_lt_Some in Hy; lia).
  by apply lookup_app_l_Some.
Qed.
End Extends.

Lemma subObj_later_refl o : subObj_later o o.
Proof. by split. Qed.
Lemma subObj_later_trans o1 o2 o3 :
  subObj_later o1 o2 -> subObj_later o2 o3 -> subObj_later o1 o3.
Proof. intros [? ?] [? ?]. split; [congruence | auto]. Qed.
Lemma subscription_later_refl s : subscription_later s s.
Proof. by split. Qed.
Lemma subscription_later_trans s1 s2 s3 :
  subscription_later s1 s2 -> subscription_later s2 s3 -> subscription_later s1 s3.
Proof. intros [? ?] [? ?]. split; [congruence | auto]. Qed.
Lemma bridge_later_refl b : bridge_later b b.
Proof. by repeat split. Qed.
Lemma bridge_later_trans b1 b2 b3 :
  bridge_later b1 b2 -> bridge_later b2 b3 -> bridge_later b1 b3.
Proof. intros (? & ? & ?) (? & ? & ?). repeat split; [congruence | congruence | auto]. Qed.

Create HintDb later.
#[local] Hint Resolve subObj_later_refl subscription_later_refl bridge_later_refl : later.
#[local] Hint Resolve subObj_later_trans subscription_later_trans bridge_later_trans : later.

Lemma sys_later_refl σ : sys_later σ σ.
Proof. repeat split; apply extends_refl; auto with later. Qed.

Lemma sys_later_trans σ1 σ2 σ3 : sys_later σ1 σ2 -> sys_later σ2 σ3 -> sys_later σ1 σ3.
Proof.
  intros (? & ? & ?) (? & ? & ?).
  repeat split; eapply extends_trans; eauto with later.
Qed.

Ltac solve_later :=
  unfold sys_later; simpl; split_and!;
  first
    [ apply extends_refl; auto with later
    | apply extends_app; auto with later
    | apply extends_app_alter_last; auto with later
    | apply extends_alter; [auto with later | by intros []] ].

Lemma rx_unsubscribe_later k σ : sys_later σ (rx_unsubscribe k σ).
Proof. unfold rx_unsubscribe. solve_later. Qed.

Lemma client_subscribe_later c id body_id entry σ :
  sys_later σ (client_subscribe c id body_id entry σ).1.
Proof. unfold client_subscribe, rx_subscribe. solve_later. Qed.

Lemma client_unsubscribe_later id body_id entry subObj σ :
  sys_later σ (client_unsubscribe id body_id entry subObj σ).
Proof.
  unfold client_unsubscribe, rx_unsubscribe.
  destruct (subObjs σ !! subObj ≫= sub); solve_later.
Qed.

Lemma collection_unsubscribe_later e σ : sys_later σ (collection_unsubscribe e σ).1.
Proof. unfold collection_unsubscribe, rx_unsubscribe. solve_later. Qed.

Lemma handle_later c message σ : sys_later σ (handle c message σ).1.1.
Proof.
  unfold handle.
  destruct (msg_type message); try apply sys_later_refl.
  - destruct (observables (this σ) !! msg_id message) as [entry |];
      [| apply sys_later_refl].
    destruct (parseBody_rpcActionObservableSubscribeId c _) as [body_id | e];
      [| apply sys_later_refl].
    destruct (subscriptions entry !! body_id); [apply sys_later_refl |].
    pose proof (client_subscribe_later c (msg_id message) body_id entry σ) as H.
    by destruct (client_subscribe c (msg_id message) body_id entry σ).
  - destruct (observables (this σ) !! msg_id message) as [entry |];
      [| apply sys_later_refl].
    destruct (parseBody_rpcActionObservableSubscribeId c _) as [body_id | e];
      [| apply sys_later_refl].
    destruct (subscriptions entry !! body_id) as [subObj |]; [| apply sys_later_refl].
    apply client_unsubscribe_later.
  - destruct (observableSubjects (this σ) !! msg_id message);
      [| apply sys_later_refl].
    apply rx_unsubscribe_later.
  - destruct (collections (this σ) !! msg_id message) as [e |];
      [| apply sys_later_refl].
    pose proof (collection_unsubscribe_later e σ) as H.
    destruct (collection_unsubscribe e σ) as [σ1 w]. simpl in *.
    eapply sys_later_trans; [exact H |]. solve_later.
Qed.

Lemma handleAction_resume_later c p σ : sys_later σ (handleAction_resume c p σ).1.
Proof.
  unfold handleAction_resume.
  destruct (pe_settled p) as [result | e]; [| apply sys_later_refl].
  destruct (instanceof result "EntitySubject"); [apply sys_later_refl |].
  destruct (instanceof result "Collection").
  { destruct (sendThrows c _); simpl; solve_later. }
  destruct (instanceof result "Observable"); [| apply sys_later_refl].
  destruct (instanceof result "Subject"); simpl; solve_later.
Qed.

Lemma rx_delivered_later k n σ : sys_later σ (rx_delivered k n σ).
Proof.
  unfold rx_delivered. destruct (isTerminal n); [solve_later | apply sys_later_refl].
Qed.

Lemma client_subscribe_open_later c id body_id entry σ :
  sys_later σ (client_subscribe_open c id body_id entry σ).
Proof. unfold client_subscribe_open. solve_later. Qed.

Lemma client_subscribe_reentered_later c id body_id entry upto inner σ :
  sys_later σ (client_subscribe_reentered c id body_id entry upto inner σ).1.
Proof.
  unfold client_subscribe_reentered.
  pose proof (client_subscribe_open_later c id body_id entry σ) as H1.
  pose proof (handle_later c inner (client_subscribe_open c id body_id entry σ)) as H2.
  destruct (handle c inner (client_subscribe_open c id body_id entry σ)) as [[σ2 w] r].
  cbn [fst] in *.
  destruct (sys_later_trans _ _ _ H1 H2) as (Hso & Hrx & Hbr).
  split_and!; [| done | done]. simpl. by apply extends_alter_new.
Qed.

Lemma step_later c i σ : sys_later σ (step c i σ).1.
Proof.
  destruct i as [message | p | k n | k event | b | message upto inner]; simpl.
  - unfold receive.
    destruct (msg_type message) eqn:Hty;
      try (pose proof (handle_later c message σ) as H;
           destruct (handle c message σ) as [[σ' w] r]; exact H).
    + unfold handleActionTypes.
      destruct (parseBody_rpcActionType c _) as [[controller method] | e]; simpl;
        [| apply sys_later_refl].
      destruct (loadTypes c (this σ) controller method) as [this' [types | e]]; simpl;
        solve_later.
    + destruct (handleAction_begin c message (this σ)) as [[this' w] [[p |] | e]]; simpl;
        solve_later.
  - destruct (pendings σ !! p) as [pe |]; [| apply sys_later_refl].
    destruct (pe_resumed pe); [apply sys_later_refl |].
    eapply sys_later_trans; [| apply handleAction_resume_later]. solve_later.
  - destruct (rxSubscriptions σ !! k) as [s |]; [| apply sys_later_refl].
    destruct (delivers c (closed s) n);
      [apply rx_delivered_later | apply sys_later_refl].
  - destruct (rxSubscriptions σ !! k) as [s |]; [| apply sys_later_refl].
    destruct (subscriber s); try apply sys_later_refl.
    destruct (deliversEvent c (closed s) event); [| apply sys_later_refl].
    solve_later.
  - destruct (bridges σ !! b) as [br |]; [| apply sys_later_refl].
    destruct (taskScheduled br); [| apply sys_later_refl].
    solve_later.
  - destruct (subscribing c message σ) as [[body_id entry] |]; [| apply sys_later_refl].
    apply client_subscribe_reentered_later.
Qed.

Lemma run_later turns σ : sys_later σ (run turns σ).1.
Proof.
  revert σ. induction turns as [| [c i] turns IH]; intros σ; simpl.
  - apply sys_later_refl.
  - pose proof (step_later c i σ) as H1.
    destruct (step c i σ) as [σ1 w1]. specialize (IH σ1).
    destruct (run turns σ1) as [σ2 w2]. simpl in *.
    by eapply sys_later_trans.
Qed.

(** ** Reachable states are well formed *)

Lemma wf_collections_later σ σ' :
  wf_collections σ -> sys_later σ σ' ->
  (forall cid e, collections (this σ') !! cid = Some e ->
                 collections (this σ) !! cid = Some e) ->
  wf_collections σ'.
Proof.
  intros Hcoll (_ & Hrx & Hbr) Hold cid e He.
  destruct (Hcoll _ _ (Hold _ _ He)) as (br & s & Hb & Hid & Hs & Hcb).
  destruct (Hbr _ _ Hb) as (br' & Hb' & Hid' & _).
  destruct (Hrx _ _ Hs) as (s' & Hs' & Hcb' & _).
  exists br', s'. split_and!; congruence.
Qed.

Lemma wf_subjects_later σ σ' :
  wf_subjects σ -> sys_later σ σ' ->
  observableSubjects (this σ') = observableSubjects (this σ) ->
  wf_subjects σ'.
Proof.
  intros Hsub (_ & Hrx & _) E id k Hk. rewrite E in Hk.
  destruct (Hsub _ _ Hk) as (s & Hs & Hcb).
  destruct (Hrx _ _ Hs) as (s' & Hs' & Hcb' & _).
  exists s'. split; congruence.
Qed.

(** Entries that were there before stay live when their object is not
    touched. *)
Lemma live_but_kept hole σ σ' :
  live_but hole σ ->
  extends subscription_later (rxSubscriptions σ) (rxSubscriptions σ') ->
  (forall cid entry' subID subObj,
      observables (this σ') !! cid = Some entry' ->
      subscriptions entry' !! subID = Some subObj ->
      hole <> Some subObj ->
      exists entry, observables (this σ) !! cid = Some entry
                    /\ subscriptions entry !! subID = Some subObj
                    /\ subObjs σ' !! subObj = subObjs σ !! subObj) ->
  live_but hole σ'.
Proof.
  intros Hlive Hrx Hold cid entry' subID subObj He' Hs' Hh.
  destruct (Hold _ _ _ _ He' Hs' Hh) as (entry & He & Hs & Hobj).
  destruct (Hlive _ _ _ _ He Hs Hh) as (o & k & s & Ho & Ha & Hk & Hsk & Hcb).
  destruct (Hrx _ _ Hsk) as (s' & Hs'' & Hcb' & _).
  exists o, k, s'. rewrite Hobj. split_and!; congruence.
Qed.

Lemma opening_kept id body_id x σ σ' :
  opening id body_id x σ ->
  (length (subObjs σ) <= length (subObjs σ'))%nat ->
  (forall cid entry' subID,
      observables (this σ') !! cid = Some entry' ->
      subscriptions entry' !! subID = Some x ->
      exists entry, observables (this σ) !! cid = Some entry
                    /\ subscriptions entry !! subID = Some x
                    /\ subObjs σ' !! x = subObjs σ !! x) ->
  opening id body_id x σ'.
Proof.
  intros [Hlt Hx] Hlen Hold. split; [lia |].
  intros cid entry' subID He' Hs'.
  destruct (Hold _ _ _ He' Hs') as (entry & He & Hs & Hobj).
  destruct (Hx _ _ _ He Hs) as (-> & -> & Ho). by rewrite Hobj.
Qed.

(** A step that leaves [observables] and the objects alone. *)
Lemma live_but_same hole σ σ' :
  live_but hole σ -> sys_later σ σ' ->
  observables (this σ') = observables (this σ) ->
  subObjs σ' = subObjs σ ->
  live_but hole σ'.
Proof.
  intros Hlive (_ & Hrx & _) Eo Eso. eapply live_but_kept; [done.. |].
  intros cid entry' subID subObj He' Hs' _. rewrite Eo in He'. rewrite Eso. eauto.
Qed.

Lemma opening_same id body_id x σ σ' :
  opening id body_id x σ ->
  observables (this σ') = observables (this σ) ->
  subObjs σ' = subObjs σ ->
  opening id body_id x σ'.
Proof.
  intros Hop Eo Eso. eapply opening_kept; [done | by rewrite Eso |].
  intros cid entry' subID He' Hs'. rewrite Eo in He'. rewrite Eso. eauto.
Qed.

Lemma client_subscribe_open_eq c id body_id entry σ :
  client_subscribe c id body_id entry σ
  = (let σ1 := client_subscribe_open c id body_id entry σ in
     set_subObjs σ1
       (alter (set_sub (length (rxSubscriptions σ))) (length (subObjs σ)) (subObjs σ1)),
     Sent (BySubscription (length (rxSubscriptions σ)))
       <$> flat_map (onNotification (client_subscribe_open c id body_id entry σ)
                       (ClientSubscriber id body_id (length (subObjs σ))))
             (subscribeEmits c (observable entry))).
Proof. reflexivity. Qed.

(** The entries of [observables] after a new object was stored. *)
Lemma client_subscribe_open_entries c id body_id entry σ cid entry' subID subObj :
  observables (this σ) !! id = Some entry ->
  observables (this (client_subscribe_open c id body_id entry σ)) !! cid = Some entry' ->
  subscriptions entry' !! subID = Some subObj ->
  (cid = id /\ subID = body_id /\ subObj = length (subObjs σ))
  \/ exists entry0, observables (this σ) !! cid = Some entry0
                    /\ subscriptions entry0 !! subID = Some subObj.
Proof.
  intros Hentry He' Hs'. unfold client_subscribe_open in He'. simpl in He'.
  destruct (decide (id = cid)) as [<- | Hc].
  - rewrite lookup_insert_eq in He'. simplify_eq. simpl in Hs'.
    destruct (decide (body_id = subID)) as [<- | Hb].
    + rewrite lookup_insert_eq in Hs'. simplify_eq. auto.
    + rewrite lookup_insert_ne in Hs' by done. eauto.
  - rewrite lookup_insert_ne in He' by done. eauto.
Qed.

(** [handle] for [ActionObservableSubscribe], with nothing entering in
    between. *)
Lemma client_subscribe_during hole id0 body0 c id body_id entry σ :
  live_but hole σ ->
  (forall x, hole = Some x -> opening id0 body0 x σ) ->
  observables (this σ) !! id = Some entry ->
  live_but hole (client_subscribe c id body_id entry σ).1
  /\ (forall x, hole = Some x -> opening id0 body0 x (client_subscribe c id body_id entry σ).1).
Proof.
  intros Hlive Hop Hentry. rewrite client_subscribe_open_eq. cbn [fst].
  pose proof (client_subscribe_open_later c id body_id entry σ) as (_ & Hrx & _).
  split.
  - intros cid entry' subID subObj He' Hs' Hh. cbn [this set_subObjs] in He'.
    destruct (client_subscribe_open_entries _ _ _ _ _ _ _ _ _ Hentry He' Hs')
      as [(-> & -> & ->) | (entry0 & He0 & Hs0)].
    + eexists _, _, _. simpl. split.
      { rewrite list_lookup_alter_eq, lookup_app_r, Nat.sub_diag by lia. reflexivity. }
      split; [reflexivity |]. split; [reflexivity |]. split.
      { rewrite lookup_app_r, Nat.sub_diag by lia. reflexivity. }
      reflexivity.
    + destruct (Hlive _ _ _ _ He0 Hs0 Hh) as (o & k & s & Ho & Ha & Hk & Hsk & Hcb).
      exists o, k, s. simpl. split_and!; try done.
      * rewrite list_lookup_alter_ne by (apply lookup_lt_Some in Ho; lia).
        by apply lookup_app_l_Some.
      * by apply lookup_app_l_Some.
  - intros x ->. destruct (Hop x eq_refl) as [Hlt Hx]. split.
    { simpl. rewrite length_alter, length_app. lia. }
    intros cid entry' subID He' Hs'. cbn [this set_subObjs] in He'.
    destruct (client_subscribe_open_entries _ _ _ _ _ _ _ _ _ Hentry He' Hs')
      as [(_ & _ & ->) | (entry0 & He0 & Hs0)]; [lia |].
    destruct (Hx _ _ _ He0 Hs0) as (-> & -> & Ho). split_and!; try done.
    simpl. rewrite list_lookup_alter_ne by lia. by apply lookup_app_l_Some.
Qed.

(** Up to the call of [subscribe]: the new object is the one excepted. *)
Lemma client_subscribe_open_during c id body_id entry σ :
  live σ ->
  observables (this σ) !! id = Some entry ->
  live_but (Some (length (subObjs σ))) (client_subscribe_open c id body_id entry σ)
  /\ opening id body_id (length (subObjs σ)) (client_subscribe_open c id body_id entry σ).
Proof.
  intros Hlive Hentry. split.
  - intros cid entry' subID subObj He' Hs' Hh.
    destruct (client_subscribe_open_entries _ _ _ _ _ _ _ _ _ Hentry He' Hs')
      as [(_ & _ & ->) | (entry0 & He0 & Hs0)]; [done |].
    destruct (Hlive _ _ _ _ He0 Hs0) as (o & k & s & Ho & Ha & Hk & Hsk & Hcb); [done |].
    exists o, k, s. unfold client_subscribe_open. simpl.
    split_and!; try done; by apply lookup_app_l_Some.
  - split.
    { unfold client_subscribe_open. simpl. rewrite length_app. simpl. lia. }
    intros cid entry' subID He' Hs'.
    destruct (client_subscribe_open_entries _ _ _ _ _ _ _ _ _ Hentry He' Hs')
      as [(-> & -> & _) | (entry0 & He0 & Hs0)].
    + split_and!; try done. unfold client_subscribe_open. simpl.
      rewrite lookup_app_r, Nat.sub_diag by lia. reflexivity.
    + destruct (Hlive _ _ _ _ He0 Hs0) as (o & _ & _ & Ho & _); [done |].
      apply lookup_lt_Some in Ho. lia.
Qed.

(** [subscribe] has returned and [sub.sub] is assigned. *)
Lemma client_subscribe_assigned id body_id x k s σ :
  live_but (Some x) σ -> opening id body_id x σ ->
  rxSubscriptions σ !! k = Some s ->
  subscriber s = ClientSubscriber id body_id x ->
  live (set_subObjs σ (alter (set_sub k) x (subObjs σ))).
Proof.
  intros Hlive [Hlt Hx] Hk Hcb cid entry subID subObj He Hs _. simpl in *.
  destruct (decide (subObj = x)) as [-> | Hne].
  - destruct (Hx _ _ _ He Hs) as (-> & -> & Ho).
    eexists _, k, s. split.
    { rewrite list_lookup_alter_eq, Ho. reflexivity. }
    by split_and!.
  - destruct (Hlive _ _ _ _ He Hs) as (o & k' & s' & Ho & Ha & Hk' & Hsk & Hcb');
      [congruence |].
    exists o, k', s'. split_and!; try done. by rewrite list_lookup_alter_ne.
Qed.

Lemma client_unsubscribe_this id body_id entry subObj σ :
  this (client_unsubscribe id body_id entry subObj σ)
  = set_observables (this σ)
      (<[id := set_subscriptions entry (delete body_id (subscriptions entry))]>
         (observables (this σ))).
Proof.
  unfold client_unsubscribe. by destruct (subObjs σ !! subObj ≫= sub).
Qed.

Lemma client_unsubscribe_subObjs id body_id entry subObj σ :
  subObjs (client_unsubscribe id body_id entry subObj σ)
  = alter deactivate subObj (subObjs σ).
Proof.
  unfold client_unsubscribe, rx_unsubscribe. by destruct (subObjs σ !! subObj ≫= sub).
Qed.

(** The entries of [observables] after a subscription id was deleted. *)
Lemma client_unsubscribe_entries id body_id entry subObj0 σ cid entry' subID subObj :
  observables (this σ) !! id = Some entry ->
  observables (this (client_unsubscribe id body_id entry subObj0 σ)) !! cid = Some entry' ->
  subscriptions entry' !! subID = Some subObj ->
  exists entry1, observables (this σ) !! cid = Some entry1
                 /\ subscriptions entry1 !! subID = Some subObj
                 /\ (cid, subID) <> (id, body_id).
Proof.
  intros Hentry He' Hs'. rewrite client_unsubscribe_this in He'. simpl in He'.
  destruct (decide (id = cid)) as [<- | Hc].
  - rewrite lookup_insert_eq in He'. simplify_eq. simpl in Hs'.
    apply lookup_delete_Some in Hs' as [Hb Hs']. exists entry.
    split_and!; [done | done |]. intros [= ->]. done.
  - rewrite lookup_insert_ne in He' by done. exists entry'.
    split_and!; [done | done |]. intros [= -> _]. done.
Qed.

Lemma client_unsubscribe_during hole id0 body0 id body_id entry subObj0 σ :
  live_but hole σ ->
  (forall x, hole = Some x -> opening id0 body0 x σ) ->
  observables (this σ) !! id = Some entry ->
  subscriptions entry !! body_id = Some subObj0 ->
  live_but hole (client_unsubscribe id body_id entry subObj0 σ)
  /\ (forall x, hole = Some x ->
        opening id0 body0 x (client_unsubscribe id body_id entry subObj0 σ)).
Proof.
  intros Hlive Hop Hentry Hsub0.
  pose proof (client_unsubscribe_later id body_id entry subObj0 σ) as (_ & Hrx & _).
  split.
  - eapply live_but_kept; [done.. |].
    intros cid entry' subID subObj He' Hs' Hh.
    destruct (client_unsubscribe_entries _ _ _ _ _ _ _ _ _ Hentry He' Hs')
      as (entry1 & He1 & Hs1 & Hne).
    exists entry1. split_and!; try done.
    rewrite client_unsubscribe_subObjs. apply list_lookup_alter_ne.
    intros ->.
    destruct (Hlive _ _ _ _ Hentry Hsub0 Hh) as (o0 & k0 & s0 & Ho0 & _ & Hk0 & Hs0 & Hcb0).
    destruct (Hlive _ _ _ _ He1 Hs1 Hh) as (o & k & s & Ho & _ & Hk & Hsk & Hcb).
    assert (o = o0) as -> by congruence. assert (k = k0) as -> by congruence.
    assert (s = s0) as -> by congruence. rewrite Hcb0 in Hcb.
    injection Hcb as <- <-. done.
  - intros x ->. eapply opening_kept; [by apply Hop | |].
    { rewrite client_unsubscribe_subObjs. by rewrite length_alter. }
    intros cid entry' subID He' Hs'.
    destruct (client_unsubscribe_entries _ _ _ _ _ _ _ _ _ Hentry He' Hs')
      as (entry1 & He1 & Hs1 & Hne).
    exists entry1. split_and!; try done.
    rewrite client_unsubscribe_subObjs. apply list_lookup_alter_ne.
    intros ->. destruct (Hop x eq_refl) as [_ Hx].
    destruct (Hx _ _ _ Hentry Hsub0) as (-> & -> & _).
    destruct (Hx _ _ _ He1 Hs1) as (-> & -> & _). done.
Qed.

Lemma handle_during hole id0 body0 c message σ :
  live_but hole σ ->
  (forall x, hole = Some x -> opening id0 body0 x σ) ->
  live_but hole (handle c message σ).1.1
  /\ (forall x, hole = Some x -> opening id0 body0 x (handle c message σ).1.1).
Proof.
  intros Hlive Hop. unfold handle.
  destruct (msg_type message); try done.
  - destruct (observables (this σ) !! msg_id message) as [entry |] eqn:Hentry; [| done].
    destruct (parseBody_rpcActionObservableSubscribeId c _) as [body_id | e]; [| done].
    destruct (subscriptions entry !! body_id); [done |].
    pose proof (client_subscribe_during hole id0 body0 c (msg_id message) body_id entry σ
                  Hlive Hop Hentry) as H.
    by destruct (client_subscribe c (msg_id message) body_id entry σ).
  - destruct (observables (this σ) !! msg_id message) as [entry |] eqn:Hentry; [| done].
    destruct (parseBody_rpcActionObservableSubscribeId c _) as [body_id | e]; [| done].
    destruct (subscriptions entry !! body_id) as [subObj |] eqn:Hsub; [| done].
    by apply client_unsubscribe_during.
  - destruct (observableSubjects (this σ) !! msg_id message) as [k |]; [| done].
    split.
    + eapply live_but_same; [done | apply rx_unsubscribe_later | done | done].
    + intros x Hx. eapply opening_same; [by apply Hop | done | done].
  - destruct (collections (this σ) !! msg_id message) as [e |]; [| done].
    pose proof (collection_unsubscribe_later e σ) as Hlater.
    unfold collection_unsubscribe, rx_unsubscribe in *. simpl in *.
    split.
    + eapply live_but_same; [done | exact Hlater | done | done].
    + intros x Hx. eapply opening_same; [by apply Hop | done | done].
Qed.

Lemma handle_subjects c message σ :
  observableSubjects (this (handle c message σ).1.1) = observableSubjects (this σ).
Proof.
  unfold handle.
  destruct (msg_type message); try done.
  - destruct (observables (this σ) !! msg_id message) as [entry |]; [| done].
    destruct (parseBody_rpcActionObservableSubscribeId c _) as [body_id | e]; [| done].
    by destruct (subscriptions entry !! body_id).
  - destruct (observables (this σ) !! msg_id message) as [entry |]; [| done].
    destruct (parseBody_rpcActionObservableSubscribeId c _) as [body_id | e]; [| done].
    destruct (subscriptions entry !! body_id) as [subObj |]; [| done].
    cbn [fst]. by rewrite client_unsubscribe_this.
  - by destruct (observableSubjects (this σ) !! msg_id message).
  - by destruct (collections (this σ) !! msg_id message).
Qed.

Lemma handle_wf_subjects c message σ :
  wf_subjects σ -> wf_subjects (handle c message σ).1.1.
Proof.
  intros H. eapply wf_subjects_later; [done | apply handle_later | apply handle_subjects].
Qed.

Lemma handle_wf_collections c message σ :
  wf_collections σ -> wf_collections (handle c message σ).1.1.
Proof.
  intros Hcoll. eapply wf_collections_later; [done | apply handle_later |].
  unfold handle.
  destruct (msg_type message); try done.
  - destruct (observables (this σ) !! msg_id message) as [entry |]; [| done].
    destruct (parseBody_rpcActionObservableSubscribeId c _) as [body_id | e]; [| done].
    by destruct (subscriptions entry !! body_id).
  - destruct (observables (this σ) !! msg_id message) as [entry |]; [| done].
    destruct (parseBody_rpcActionObservableSubscribeId c _) as [body_id | e]; [| done].
    destruct (subscriptions entry !! body_id) as [subObj |]; [| done].
    cbn [fst]. by rewrite client_unsubscribe_this.
  - by destruct (observableSubjects (this σ) !! msg_id message).
  - destruct (collections (this σ) !! msg_id message) as [e |]; [| done].
    simpl. intros cid e' He'. by apply lookup_delete_Some in He' as [_ He'].
Qed.

Lemma handle_consistent c message σ : consistent σ -> consistent (handle c message σ).1.1.
Proof.
  intros (Hlive & Hsubj & Hcoll). split_and!.
  - by apply (handle_during None 0 0).
  - by apply handle_wf_subjects.
  - by apply handle_wf_collections.
Qed.

Lemma handleAction_resume_consistent c p σ :
  consistent σ -> consistent (handleAction_resume c p σ).1.
Proof.
  intros (Hlive & Hsubj & Hcoll).
  pose proof (handleAction_resume_later c p σ) as Hlater.
  unfold handleAction_resume in *.
  destruct (pe_settled p) as [result | e]; [| done].
  destruct (instanceof result "EntitySubject"); [done |].
  destruct (instanceof result "Collection").
  { destruct (sendThrows c _); simpl in *.
    { split_and!; [by eapply live_but_same | by eapply wf_subjects_later
                   | by eapply wf_collections_later]. }
    split_and!; [by eapply live_but_same | by eapply wf_subjects_later |].
    intros cid e He. simpl in He.
    destruct (decide (pe_id p = cid)) as [<- | Hne].
    + rewrite lookup_insert_eq in He. simplify_eq. simpl.
      eexists _, _. split.
      { rewrite lookup_app_r, Nat.sub_diag by lia. reflexivity. }
      split; [reflexivity |]. split.
      { rewrite lookup_app_r, Nat.sub_diag by lia. reflexivity. }
      reflexivity.
    + rewrite lookup_insert_ne in He by done.
      destruct (Hcoll _ _ He) as (br & s & Hb & Hid & Hs & Hcb).
      destruct Hlater as (_ & Hrx & Hbr).
      destruct (Hbr _ _ Hb) as (br' & Hb' & Hid' & _).
      destruct (Hrx _ _ Hs) as (s' & Hs' & Hcb' & _).
      exists br', s'. split_and!; congruence. }
  destruct (instanceof result "Observable"); [| done].
  assert (Hgen : forall σ' : Sys,
             sys_later σ σ' ->
             subObjs σ' = subObjs σ ->
             observables (this σ')
             = <[pe_id p := {| observable := result; subscriptions := ∅;
                               oe_observableNextSchema := observableNextSchema (pe_types p) |}]>
                 (observables (this σ)) ->
             collections (this σ') = collections (this σ) ->
             live σ' /\ wf_collections σ').
  { intros σ' Hl Eso Eo Ec. split.
    - destruct Hl as (_ & Hrx & _). eapply live_but_kept; [exact Hlive | done |].
      intros cid entry' subID subObj He' Hs' _. rewrite Eo in He'.
      destruct (decide (pe_id p = cid)) as [<- | Hne].
      + rewrite lookup_insert_eq in He'. simplify_eq.
      + rewrite lookup_insert_ne in He' by done. rewrite Eso. eauto.
    - eapply wf_collections_later; [done.. |]. intros cid e. by rewrite Ec. }
  destruct (instanceof result "Subject"); simpl in *.
  - destruct (Hgen _ Hlater eq_refl eq_refl eq_refl) as [H1 H3].
    split_and!; [done | | done].
    intros id k Hk. simpl in Hk.
    destruct (decide (pe_id p = id)) as [<- | Hne].
    + rewrite lookup_insert_eq in Hk. simplify_eq.
      eexists. split.
      { simpl. rewrite lookup_app_r, Nat.sub_diag by lia. reflexivity. }
      reflexivity.
    + rewrite lookup_insert_ne in Hk by done.
      destruct (Hsubj _ _ Hk) as (s & Hs & Hcb).
      exists s. split; [| done]. simpl. by apply lookup_app_l_Some.
  - destruct (Hgen _ Hlater eq_refl eq_refl eq_refl) as [H1 H3].
    split_and!; [done | by eapply wf_subjects_later | done].
Qed.

Lemma client_subscribe_reentered_consistent c id body_id entry upto inner σ :
  consistent σ ->
  observables (this σ) !! id = Some entry ->
  consistent (client_subscribe_reentered c id body_id entry upto inner σ).1.
Proof.
  intros (Hlive & Hsubj & Hcoll) Hentry. unfold client_subscribe_reentered.
  set (σ1 := client_subscribe_open c id body_id entry σ).
  pose proof (client_subscribe_open_later c id body_id entry σ) as Hl1.
  destruct (client_subscribe_open_during c id body_id entry σ Hlive Hentry) as [Hlive1 Hop1].
  fold σ1 in Hl1, Hlive1, Hop1.
  assert (Hk1 : rxSubscriptions σ1 !! length (rxSubscriptions σ)
                = Some {| subscriber := ClientSubscriber id body_id (length (subObjs σ));
                          closed := existsb isTerminal (subscribeEmits c (observable entry)) |}).
  { subst σ1. unfold client_subscribe_open. simpl.
    rewrite lookup_app_r, Nat.sub_diag by lia. reflexivity. }
  assert (Hsubj1 : wf_subjects σ1) by (by eapply wf_subjects_later).
  assert (Hcoll1 : wf_collections σ1) by (by eapply wf_collections_later).
  pose proof (handle_later c inner σ1) as (_ & Hrx2 & _).
  destruct (handle_during (Some (length (subObjs σ))) id body_id c inner σ1 Hlive1)
    as [Hlive2 Hop2].
  { by intros x [= <-]. }
  pose proof (handle_wf_subjects c inner σ1 Hsubj1) as Hsubj2.
  pose proof (handle_wf_collections c inner σ1 Hcoll1) as Hcoll2.
  destruct (handle c inner σ1) as [[σ2 w] r]. cbn [fst] in *.
  destruct (Hrx2 _ _ Hk1) as (s2 & Hs2 & Hcb2 & _).
  split_and!.
  - eapply client_subscribe_assigned; [done | by apply Hop2 | exact Hs2 | done].
  - intros a k Hk. by apply Hsubj2.
  - intros cid e He. by apply Hcoll2.
Qed.

Lemma subscribing_Some c message σ body_id entry :
  subscribing c message σ = Some (body_id, entry) ->
  msg_type message = RpcTypes.ActionObservableSubscribe
  /\ observables (this σ) !! msg_id message = Some entry
  /\ parseBody_rpcActionObservableSubscribeId c (msg_body message) = Return body_id
  /\ subscriptions entry !! body_id = None.
Proof.
  unfold subscribing.
  destruct (msg_type message); try done.
  destruct (observables (this σ) !! msg_id message) as [entry0 |]; [| done].
  destruct (parseBody_rpcActionObservableSubscribeId c _) as [b | e]; [| done].
  destruct (subscriptions entry0 !! b) eqn:Hb; [done |].
  by intros [= <- <-].
Qed.

(** [loadTypes] touches [cachedActionsTypes] only. *)
Lemma loadTypes_tables c this controller method :
  let this' := (loadTypes c this controller method).1 in
  observableSubjects this' = observableSubjects this
  /\ collections this' = collections this
  /\ observables this' = observables this
  /\ controllers this' = controllers this.
Proof.
  unfold loadTypes.
  destruct (cachedActionsTypes this !! _); [done |].
  destruct (controllers this !! controller) as [controllerClass |]; [| done].
  destruct (negb _); [done |].
  by destruct (unwrapResultProperty _ _ _ _).
Qed.

Lemma prepare_tables c message this :
  let this' := (prepare c message this).1 in
  observableSubjects this' = observableSubjects this
  /\ collections this' = collections this
  /\ observables this' = observables this
  /\ controllers this' = controllers this.
Proof.
  unfold prepare.
  destruct (parseBody_rpcActionType c _) as [[controller method] | e]; [| done].
  destruct (controllers this !! controller) as [controllerClass |]; [| done].
  pose proof (loadTypes_tables c this controller method) as H.
  destruct (loadTypes c this controller method) as [this' [types | e]]; [| done].
  destruct (parseBody_parameterSchema c _ _); [| done].
  destruct (injector_get c _); [| done].
  by destruct (parametersDeserialize types _).
Qed.

Lemma handleAction_begin_tables c message this :
  let this' := (handleAction_begin c message this).1.1 in
  observableSubjects this' = observableSubjects this
  /\ collections this' = collections this
  /\ observables this' = observables this
  /\ controllers this' = controllers this.
Proof.
  unfold handleAction_begin.
  pose proof (prepare_tables c message this) as H.
  destruct (prepare c message this) as [this' [call | e]]; [| done].
  destruct (negb _); [done |].
  by destruct (callMethod c _ _ _).
Qed.

Lemma consistent_same σ σ' :
  consistent σ -> sys_later σ σ' ->
  subObjs σ' = subObjs σ ->
  observables (this σ') = observables (this σ) ->
  observableSubjects (this σ') = observableSubjects (this σ) ->
  collections (this σ') = collections (this σ) ->
  consistent σ'.
Proof.
  intros (Hlive & Hsubj & Hcoll) Hlater Eso Eo Es Ec. split_and!.
  - by eapply live_but_same.
  - by eapply wf_subjects_later.
  - eapply wf_collections_later; [done.. |]. intros cid e. by rewrite Ec.
Qed.

Lemma step_consistent c i σ : consistent σ -> consistent (step c i σ).1.
Proof.
  intros Hcons.
  destruct i as [message | p | k n | k event | b | message upto inner]; simpl.
  - unfold receive.
    destruct (msg_type message) eqn:Hty;
      try solve [pose proof (handle_consistent c message σ Hcons) as H;
                 by destruct (handle c message σ) as [[σ' w] r]].
    + unfold handleActionTypes.
      destruct (parseBody_rpcActionType c _) as [[controller method] | e]; [| done].
      pose proof (loadTypes_tables c (this σ) controller method) as (Hs & Hc & Ho & _).
      destruct (loadTypes c (this σ) controller method) as [this' [types | e]];
        simpl in *; (eapply consistent_same; [exact Hcons | solve_later | done ..]).
    + pose proof (handleAction_begin_tables c message (this σ)) as (Hs & Hc & Ho & _).
      destruct (handleAction_begin c message (this σ)) as [[this' w] [[p |] | e]];
        simpl in *; (eapply consistent_same; [exact Hcons | solve_later | done ..]).
  - destruct (pendings σ !! p) as [pe |]; [| done].
    destruct (pe_resumed pe); [done |].
    apply handleAction_resume_consistent.
    eapply consistent_same; [exact Hcons | solve_later | done ..].
  - destruct (rxSubscriptions σ !! k) as [s |]; [| done].
    destruct (delivers c (closed s) n); [| done].
    eapply consistent_same; [exact Hcons | apply rx_delivered_later | ..];
      unfold rx_delivered; by destruct (isTerminal n).
  - destruct (rxSubscriptions σ !! k) as [s |]; [| done].
    destruct (subscriber s); try done.
    destruct (deliversEvent c (closed s) event); [| done].
    eapply consistent_same; [exact Hcons | solve_later | done ..].
  - destruct (bridges σ !! b) as [br |]; [| done].
    destruct (taskScheduled br); [| done].
    eapply consistent_same; [exact Hcons | solve_later | done ..].
  - destruct (subscribing c message σ) as [[body_id entry] |] eqn:Hsub; [| done].
    apply subscribing_Some in Hsub as (_ & Hentry & _).
    by apply client_subscribe_reentered_consistent.
Qed.

Lemma run_consistent turns σ : consistent σ -> consistent (run turns σ).1.
Proof.
  revert σ. induction turns as [| [c i] turns IH]; intros σ Hc; simpl; [done |].
  pose proof (step_consistent c i σ Hc) as H1.
  destruct (step c i σ) as [σ1 w1]. specialize (IH σ1 H1).
  by destruct (run turns σ1) as [σ2 w2].
Qed.

Lemma reachable_consistent σ : reachable σ -> consistent σ.
Proof.
  intros (controllers & turns & <-). apply run_consistent.
  split_and!; intros ? *; simpl; by rewrite lookup_empty.
Qed.

Lemma consistent_wf σ : consistent σ -> wf σ.
Proof.
  intros (Hlive & _ & Hcoll). split; [| done].
  intros cid entry subID subObj He Hs.
  destruct (Hlive _ _ _ _ He Hs) as (o & k & s & ? & ? & ? & ? & ?); [done |].
  by exists o, k, s.
Qed.

Lemma reachable_wf σ : reachable σ -> wf σ.
Proof. intros H. by apply consistent_wf, reachable_consistent. Qed.

Lemma run_app turns1 turns2 σ :
  run (turns1 ++ turns2) σ
  = ((run turns2 (run turns1 σ).1).1, (run turns1 σ).2 ++ (run turns2 (run turns1 σ).1).2).
Proof.
  revert σ. induction turns1 as [| [c i] turns1 IH]; intros σ; simpl.
  - by destruct (run turns2 σ).
  - destruct (step c i σ) as [σ1 w1]. rewrite IH.
    destruct (run turns1 σ1) as [σ2 w2]. simpl.
    destruct (run turns2 σ2) as [σ3 w3]. simpl. by rewrite app_assoc.
Qed.

Lemma reachable_run turns σ : reachable σ -> reachable (run turns σ).1.
Proof.
  intros (controllers & turns0 & <-). exists controllers, (turns0 ++ turns).
  by rewrite run_app.
Qed.

(** ** Who writes which frame *)

Ltac elem_cases H :=
  cbn [fst snd] in H;
  repeat
    match type of H with
    | _ ∈ [] => apply elem_of_nil in H; destruct H
    | _ ∈ [_] => apply list_elem_of_singleton in H
    | _ ∈ _ :: _ => apply elem_of_cons in H; destruct H as [H | H]
    | _ ∈ _ ++ _ => apply elem_of_app in H; destruct H as [H | H]
    end.

Lemma onNotification_type σ s n f :
  f ∈ onNotification σ s n ->
  frame_type f = RpcTypes.ResponseActionObservableNext
  \/ frame_type f = RpcTypes.ResponseActionObservableError
  \/ frame_type f = RpcTypes.ResponseActionObservableComplete.
Proof.
  destruct s, n; simpl; intros H;
    try (destruct (subObjs σ !! subObj) as [o |]; [destruct (negb (active o)) |]);
    elem_cases H; subst; simpl; auto.
Qed.

Lemma notifications_sent o σ s ns o' f :
  Sent o' f ∈ (Sent o <$> flat_map (onNotification σ s) ns) ->
  o' = o /\ exists n, f ∈ onNotification σ s n.
Proof.
  intros H. apply list_elem_of_fmap in H as (f' & [= -> ->] & Hf).
  split; [done |].
  apply list_elem_of_In, in_flat_map in Hf as (n & _ & Hn).
  exists n. by apply list_elem_of_In.
Qed.

Lemma try_send_sent c id f0 o f :
  Sent o f ∈ try_send c id f0 -> o = ByHandler /\ (f = f0 \/ isErrorFrame f = true).
Proof.
  unfold try_send, response_error. intros H.
  destruct (sendThrows c f0); elem_cases H; simplify_eq; auto.
Qed.

(** What [handle] writes itself are error frames; anything else comes from
    the callbacks of the subscription it has just made. *)
Lemma handle_sent c message σ o f :
  Sent o f ∈ (handle c message σ).1.2 ->
  (o = ByHandler /\ isErrorFrame f = true)
  \/ (o = BySubscription (length (rxSubscriptions σ))
      /\ exists σ' s n, f ∈ onNotification σ' s n).
Proof.
  unfold handle, response_error. intros H.
  destruct (msg_type message); simpl in H; try (by elem_cases H).
  - destruct (observables (this σ) !! msg_id message) as [entry |];
      [| elem_cases H; simplify_eq; auto].
    destruct (parseBody_rpcActionObservableSubscribeId c _) as [body_id | e];
      [| by elem_cases H].
    destruct (subscriptions entry !! body_id); [elem_cases H; simplify_eq; auto |].
    unfold client_subscribe, rx_subscribe in H. simpl in H.
    apply notifications_sent in H as [-> [n Hn]]. right. eauto.
  - destruct (observables (this σ) !! msg_id message) as [entry |];
      [| elem_cases H; simplify_eq; auto].
    destruct (parseBody_rpcActionObservableSubscribeId c _) as [body_id | e];
      [| by elem_cases H].
    destruct (subscriptions entry !! body_id); elem_cases H; simplify_eq; auto.
  - destruct (observableSubjects (this σ) !! msg_id message);
      elem_cases H; simplify_eq; auto.
  - destruct (collections (this σ) !! msg_id message) as [e |];
      [| elem_cases H; simplify_eq; auto].
    unfold collection_unsubscribe in H. simpl in H.
    destruct (bridges σ !! ce_bridge e); elem_cases H; simplify_eq.
Qed.

Lemma handleAction_begin_sent c message this o f :
  Sent o f ∈ (handleAction_begin c message this).1.2 ->
  o = ByHandler /\ isErrorFrame f = true.
Proof.
  unfold handleAction_begin, response_error. intros H.
  destruct (prepare c message this) as [this' [call | e]]; simpl in H; [| by elem_cases H].
  destruct (negb _); simpl in H; [elem_cases H; simplify_eq; auto |].
  destruct (callMethod c _ _ _); simpl in H; elem_cases H; simplify_eq; auto.
Qed.

(** What the continuation of [handleAction] writes itself is the frame of its
    branch or an error frame; anything else comes from the callbacks of the
    subscription to a subject it has just made. *)
Lemma handleAction_resume_sent c p σ o f :
  Sent o f ∈ (handleAction_resume c p σ).2 ->
  (o = ByHandler
   /\ (isErrorFrame f = true
       \/ frame_type f = RpcTypes.ResponseEntity
       \/ frame_type f = RpcTypes.ResponseActionCollection
       \/ frame_type f = RpcTypes.ResponseActionObservable
       \/ frame_type f = RpcTypes.ResponseActionSimple))
  \/ (o = BySubscription (length (rxSubscriptions σ))
      /\ exists σ' s n, f ∈ onNotification σ' s n).
Proof.
  unfold handleAction_resume, response_error. intros H.
  destruct (pe_settled p) as [result | e]; [| elem_cases H; simplify_eq; auto].
  destruct (instanceof result "EntitySubject").
  { apply try_send_sent in H as [-> [-> | ?]]; auto. }
  destruct (instanceof result "Collection").
  { destruct (sendThrows c _); simpl in H; elem_cases H; simplify_eq; auto 10. }
  destruct (instanceof result "Observable").
  2: { apply try_send_sent in H as [-> [-> | ?]]; auto 10. }
  destruct (instanceof result "Subject"); simpl in H.
  - apply elem_of_app in H as [H | H].
    + unfold rx_subscribe in H. simpl in H.
      apply notifications_sent in H as [-> [n Hn]]. right. eauto.
    + apply try_send_sent in H as [-> [-> | ?]]; auto 10.
  - apply try_send_sent in H as [-> [-> | ?]]; auto 10.
Qed.

Lemma client_subscribe_reentered_sent c id body_id entry upto inner σ o f :
  Sent o f ∈ (client_subscribe_reentered c id body_id entry upto inner σ).2 ->
  (o = ByHandler /\ isErrorFrame f = true)
  \/ (exists j, o = BySubscription j /\ (length (rxSubscriptions σ) <= j)%nat
                /\ exists σ' s n, f ∈ onNotification σ' s n).
Proof.
  unfold client_subscribe_reentered. intros H.
  pose proof (handle_sent c inner (client_subscribe_open c id body_id entry σ) o f) as Hh.
  destruct (handle c inner (client_subscribe_open c id body_id entry σ)) as [[σ2 w] r].
  cbn [fst snd] in *.
  apply elem_of_app in H as [H | H]; [| apply elem_of_app in H as [H | H]].
  - apply notifications_sent in H as [-> [n Hn]]. right. eauto 10.
  - apply elem_of_app in H as [H | H].
    + destruct (Hh H) as [[-> ?] | [-> ?]]; [by left |].
      right. eexists. split; [done |]. split; [| done].
      unfold client_subscribe_open. simpl. rewrite length_app. lia.
    + destruct r; simpl in H; elem_cases H; simplify_eq.
  - apply notifications_sent in H as [-> [n Hn]]. right. eauto 10.
Qed.

(** The frames of one turn: written by a handler, by the callbacks of a
    subscription made in this turn, by the callbacks of the subscription
    the source has handed a notification, or by the batch callback of the
    bridge whose microtask runs. *)
Lemma step_sent c i σ o f :
  Sent o f ∈ (step c i σ).2 ->
  (o = ByHandler /\ frame_type f <> RpcTypes.ResponseActionCollectionChange)
  \/ (exists j, o = BySubscription j /\ (length (rxSubscriptions σ) <= j)%nat
                /\ exists σ' s n, f ∈ onNotification σ' s n)
  \/ (exists k n s, i = Emit k n /\ o = BySubscription k
                    /\ rxSubscriptions σ !! k = Some s
                    /\ delivers c (closed s) n = true
                    /\ f ∈ onNotification σ (subscriber s) n)
  \/ (exists b br, i = Microtask b /\ o = ByBridge b
                   /\ bridges σ !! b = Some br /\ taskScheduled br = true
                   /\ f ∈ eventsCallback c br (br_items br)).
Proof.
  assert (Herr : forall g, isErrorFrame g = true ->
                           frame_type g <> RpcTypes.ResponseActionCollectionChange).
  { by intros []. }
  intros H.
  destruct i as [message | p | k n | k event | b | message upto inner]; simpl in H.
  - unfold receive in H.
    destruct (msg_type message) eqn:Hty;
      try (pose proof (handle_sent c message σ o f) as Hh;
           destruct (handle c message σ) as [[σ' w] r]; simpl in *;
           apply elem_of_app in H as [H | H];
           [destruct (Hh H) as [[-> ?] | [-> ?]]; eauto 10
           | destruct r; simpl in H; elem_cases H; simplify_eq]).
    + unfold handleActionTypes in H.
      destruct (parseBody_rpcActionType c _) as [[controller method] | e]; simpl in H;
        [| elem_cases H; simplify_eq].
      destruct (loadTypes c (this σ) controller method) as [this' [types | e]];
        simpl in H; elem_cases H; simplify_eq.
      left. by split.
    + pose proof (handleAction_begin_sent c message (this σ) o f) as Hb.
      destruct (handleAction_begin c message (this σ)) as [[this' w] [[p |] | e]];
        simpl in *; [| apply elem_of_app in H as [H | H] ..];
        try (destruct (Hb H) as [-> ?]; auto);
        elem_cases H; simplify_eq.
  - destruct (pendings σ !! p) as [pe |]; [| by elem_cases H].
    destruct (pe_resumed pe); [by elem_cases H |].
    apply handleAction_resume_sent in H as [[-> Hf] | [-> ?]]; [left | eauto 10].
    split; [done |].
    destruct Hf as [? | [? | [? | [? | ?]]]]; [auto | congruence ..].
  - destruct (rxSubscriptions σ !! k) as [s |] eqn:Hs; [| by elem_cases H].
    destruct (delivers c (closed s) n) eqn:Hd; [| by elem_cases H].
    apply list_elem_of_fmap in H as (f' & [= -> ->] & Hf).
    right; right; left. eauto 10.
  - destruct (rxSubscriptions σ !! k) as [s |]; [| by elem_cases H].
    destruct (subscriber s); try (by elem_cases H).
    destruct (deliversEvent c (closed s) event); by elem_cases H.
  - destruct (bridges σ !! b) as [br |] eqn:Hb; [| by elem_cases H].
    destruct (taskScheduled br) eqn:Ht; [| by elem_cases H].
    apply list_elem_of_fmap in H as (f' & [= -> ->] & Hf).
    right; right; right. eauto 10.
  - destruct (subscribing c message σ) as [[body_id entry] |]; [| by elem_cases H].
    apply client_subscribe_reentered_sent in H as [[-> ?] | ?]; auto.
Qed.

(** ** After unsubscribe *)

Lemma framesBy_app o l1 l2 : framesBy o (l1 ++ l2) = framesBy o l1 ++ framesBy o l2.
Proof. unfold framesBy. by rewrite omap_app. Qed.

Lemma framesBy_cons o e l :
  framesBy o (e :: l)
  = match e with
    | Sent o' f => if decide (o' = o) then f :: framesBy o l else framesBy o l
    | _ => framesBy o l
    end.
Proof.
  unfold framesBy. simpl. destruct e as [| o' f | |]; try done.
  by destruct (decide (o' = o)).
Qed.

Lemma framesBy_nil o l : (forall f, Sent o f ∉ l) -> framesBy o l = [].
Proof.
  intros Hl. induction l as [| e l IH]; [done |].
  rewrite framesBy_cons, IH by (intros f Hf; apply (Hl f); by right).
  destruct e as [| o' f | |]; try done.
  destruct (decide (o' = o)) as [-> |]; [| done].
  exfalso. apply (Hl f). by left.
Qed.

Lemma eventsCallback_unsubscribed c br events :
  unsubscribed br = true -> eventsCallback c br events = [].
Proof. intros H. unfold eventsCallback. by rewrite H. Qed.

(** A bridge whose [unsubscribed] is set writes nothing in any later turn. *)
Lemma unsubscribed_bridge_silent turns σ b br :
  bridges σ !! b = Some br -> unsubscribed br = true ->
  framesBy (ByBridge b) (run turns σ).2 = [].
Proof.
  revert σ br. induction turns as [| [c i] turns IH]; intros σ br Hb Hu; [done |].
  simpl.
  pose proof (step_later c i σ) as (_ & _ & Hbr).
  pose proof (step_sent c i σ (ByBridge b)) as Hsent.
  destruct (step c i σ) as [σ1 w1]. simpl in *.
  destruct (Hbr _ _ Hb) as (br1 & Hb1 & _ & _ & Hu1).
  specialize (IH σ1 br1 Hb1 (Hu1 Hu)).
  destruct (run turns σ1) as [σ2 w2]. simpl in *.
  rewrite framesBy_app, IH, app_nil_r.
  apply framesBy_nil. intros f Hf.
  destruct (Hsent f Hf) as [[? _] | [(? & ? & _) | [(k & n & s & _ & ? & _) | H]]];
    try done.
  destruct H as (b' & br' & _ & [= <-] & Hb' & _ & Hin).
  rewrite Hb in Hb'. simplify_eq.
  rewrite eventsCallback_unsubscribed in Hin by done. by apply elem_of_nil in Hin.
Qed.

(** C5: when [ResponseActionCollectionUnsubscribe] finds the entry of call id
    [cid], the entry is removed, [unsubscribed] of its bridge is set, and in
    every run that follows the batch callback of that bridge writes no frame:
    neither for events collected before (a scheduled microtask still runs)
    nor for events the feed still hands over.  The flag is the first thing
    the callback tests. *)
Theorem no_change_after_collection_unsubscribe (σ : Sys) c message e :
  reachable σ ->
  msg_type message = RpcTypes.ResponseActionCollectionUnsubscribe ->
  collections (this σ) !! msg_id message = Some e ->
  let σ' := (handle c message σ).1.1 in
  collections (this σ') !! msg_id message = None
  /\ (exists br, bridges σ' !! ce_bridge e = Some br
                 /\ br_id br = msg_id message /\ unsubscribed br = true)
  /\ (forall c' br events, unsubscribed br = true -> eventsCallback c' br events = [])
  /\ forall turns, framesBy (ByBridge (ce_bridge e)) (run turns σ').2 = [].
Proof.
  intros Hreach Hty He σ'.
  destruct (reachable_wf σ Hreach) as [_ Hcoll].
  destruct (Hcoll _ _ He) as (br & s & Hb & Hid & _).
  assert (Hσ' : σ' = set_this (collection_unsubscribe e σ).1
                       (set_collections (this (collection_unsubscribe e σ).1)
                          (delete (msg_id message)
                             (collections (this (collection_unsubscribe e σ).1))))).
  { subst σ'. unfold handle. rewrite Hty, He.
    by destruct (collection_unsubscribe e σ). }
  assert (Hb' : bridges σ' !! ce_bridge e = Some (set_unsubscribed br)).
  { rewrite Hσ'. unfold collection_unsubscribe, rx_unsubscribe. simpl.
    by rewrite list_lookup_alter_eq, Hb. }
  split.
  { rewrite Hσ'. simpl. by rewrite lookup_delete_eq. }
  split; [by exists (set_unsubscribed br) |].
  split; [intros; by apply eventsCallback_unsubscribed |].
  intros turns. by eapply unsubscribed_bridge_silent.
Qed.

Lemma no_change_after_collection_unsubscribe_witness :
  let unsubscribed :=
    (handle Sample.world
       (Sample.control RpcTypes.ResponseActionCollectionUnsubscribe 9 "")
       SampleRuns.collectionOpen).1.1 in
  framesBy (ByBridge 0)
    (run [(Sample.racing,
           EmitEvent 0%nat {| ev_type := "remove"; ev_items := []; ev_ids := [VStr "x"] |});
          (Sample.racing, Microtask 0%nat)] unsubscribed).2 = [].
Proof.
  refine (proj2 (proj2 (proj2
    (no_change_after_collection_unsubscribe SampleRuns.collectionOpen Sample.world
       (Sample.control RpcTypes.ResponseActionCollectionUnsubscribe 9 "")
       {| ce_bridge := 0; ce_eventsSub := 0 |} _ eq_refl eq_refl))) _).
  eexists _, _. reflexivity.
Defined.















(** ** Collections: the opening composite *)

Lemma lookup_alter_inv {A} (f : A -> A) (i j : nat) (l : list A) (x' : A) :
  alter f i l !! j = Some x' -> exists x, l !! j = Some x /\ (x' = x \/ x' = f x).
Proof.
  destruct (decide (i = j)) as [-> | Hne].
  - rewrite list_lookup_alter_eq. destruct (l !! j) as [x |]; [| done].
    intros [= <-]. eauto.
  - rewrite list_lookup_alter_ne by done. eauto.
Qed.

Lemma sameBridgeBefore_refl σ b br : bridges σ !! b = Some br -> sameBridgeBefore σ b br.
Proof. intros H. by exists br. Qed.

Lemma sameBridgeBefore_alter (f : Bridge -> Bridge) σ i b br' :
  (forall x, br_id (f x) = br_id x) ->
  alter f i (bridges σ) !! b = Some br' -> sameBridgeBefore σ b br'.
Proof.
  intros Hf H. apply lookup_alter_inv in H as (br & Hb & [-> | ->]);
    exists br; by rewrite ?Hf.
Qed.

Lemma handle_bridges c message σ b br' :
  bridges (handle c message σ).1.1 !! b = Some br' -> sameBridgeBefore σ b br'.
Proof.
  unfold handle.
  destruct (msg_type message); try apply sameBridgeBefore_refl.
  - destruct (observables (this σ) !! msg_id message) as [entry |];
      [| apply sameBridgeBefore_refl].
    destruct (parseBody_rpcActionObservableSubscribeId c _) as [body_id | e];
      [| apply sameBridgeBefore_refl].
    destruct (subscriptions entry !! body_id); apply sameBridgeBefore_refl.
  - destruct (observables (this σ) !! msg_id message) as [entry |];
      [| apply sameBridgeBefore_refl].
    destruct (parseBody_rpcActionObservableSubscribeId c _) as [body_id | e];
      [| apply sameBridgeBefore_refl].
    destruct (subscriptions entry !! body_id) as [subObj |];
      [| apply sameBridgeBefore_refl].
    unfold client_unsubscribe, rx_unsubscribe.
    destruct (subObjs σ !! subObj ≫= sub); apply sameBridgeBefore_refl.
  - destruct (observableSubjects (this σ) !! msg_id message);
      apply sameBridgeBefore_refl.
  - destruct (collections (this σ) !! msg_id message) as [e |];
      [| apply sameBridgeBefore_refl].
    unfold collection_unsubscribe, rx_unsubscribe. simpl.
    intros H. eapply sameBridgeBefore_alter; [| exact H]. done.
Qed.

(** The collection branch is the only place that makes a bridge, and it has
    written the opening composite before. *)
Lemma handleAction_resume_bridges c p σ b br' :
  bridges (handleAction_resume c p σ).1 !! b = Some br' ->
  sameBridgeBefore σ b br'
  \/ (exists f, Sent ByHandler f ∈ (handleAction_resume c p σ).2 /\ isOpening (br_id br') f).
Proof.
  unfold handleAction_resume.
  destruct (pe_settled p) as [result | e]; [| left; by apply sameBridgeBefore_refl].
  destruct (instanceof result "EntitySubject"); [left; by apply sameBridgeBefore_refl |].
  destruct (instanceof result "Collection").
  { destruct (sendThrows c _); simpl; [left; by apply sameBridgeBefore_refl |].
    intros H. apply lookup_snoc_Some in H as [[_ H] | [_ <-]].
    - left. by apply sameBridgeBefore_refl.
    - right. eexists. split; [by left |]. simpl. by eexists _, _, _. }
  destruct (instanceof result "Observable"); [| left; by apply sameBridgeBefore_refl].
  destruct (instanceof result "Subject"); simpl; left; by apply sameBridgeBefore_refl.
Qed.

Lemma step_bridges c i σ b br' :
  bridges (step c i σ).1 !! b = Some br' ->
  sameBridgeBefore σ b br'
  \/ (exists f, Sent ByHandler f ∈ (step c i σ).2 /\ isOpening (br_id br') f).
Proof.
  destruct i as [message | p | k n | k event | b0 | message upto inner]; simpl.
  - unfold receive.
    destruct (msg_type message) eqn:Hty;
      try solve [pose proof (handle_bridges c message σ b br') as Hh;
                 destruct (handle c message σ) as [[σ' w] r]; simpl in *; auto].
    + unfold handleActionTypes.
      destruct (parseBody_rpcActionType c _) as [[controller method] | e]; simpl;
        [| left; by apply sameBridgeBefore_refl].
      destruct (loadTypes c (this σ) controller method) as [this' [types | e]]; simpl;
        left; by apply sameBridgeBefore_refl.
    + destruct (handleAction_begin c message (this σ)) as [[this' w] [[p |] | e]];
        simpl; left; by apply sameBridgeBefore_refl.
  - destruct (pendings σ !! p) as [pe |]; [| left; by apply sameBridgeBefore_refl].
    destruct (pe_resumed pe); [left; by apply sameBridgeBefore_refl |].
    intros H. apply handleAction_resume_bridges in H as [H | H]; auto.
  - destruct (rxSubscriptions σ !! k) as [s |]; [| left; by apply sameBridgeBefore_refl].
    destruct (delivers c (closed s) n); [| left; by apply sameBridgeBefore_refl].
    unfold rx_delivered. destruct (isTerminal n); left; by apply sameBridgeBefore_refl.
  - destruct (rxSubscriptions σ !! k) as [s |]; [| left; by apply sameBridgeBefore_refl].
    destruct (subscriber s); try (left; by apply sameBridgeBefore_refl).
    destruct (deliversEvent c (closed s) event); [| left; by apply sameBridgeBefore_refl].
    simpl. intros H. left. eapply sameBridgeBefore_alter; [| exact H]. done.
  - destruct (bridges σ !! b0) as [br |]; [| left; by apply sameBridgeBefore_refl].
    destruct (taskScheduled br); [| left; by apply sameBridgeBefore_refl].
    simpl. intros H. left. eapply sameBridgeBefore_alter; [| exact H]. done.
  - destruct (subscribing c message σ) as [[body_id entry] |];
      [| left; by apply sameBridgeBefore_refl].
    unfold client_subscribe_reentered.
    pose proof (handle_bridges c inner (client_subscribe_open c (msg_id message)
                                          body_id entry σ) b br') as Hh.
    destruct (handle c inner _) as [[σ2 w] r]. cbn [fst] in *.
    intros H. left. exact (Hh H).
Qed.

Lemma step_opened c i σ log :
  opened σ log -> opened (step c i σ).1 (log ++ (step c i σ).2).
Proof.
  intros Hop b br' Hb.
  apply step_bridges in Hb as [(br & Hbr & Hid) | (f & Hf & Hopening)].
  - destruct (Hop _ _ Hbr) as (o & f & Hin & Hopening).
    exists o, f. split; [apply elem_of_app; by left | by rewrite Hid].
  - exists ByHandler, f. split; [apply elem_of_app; by right | done].
Qed.

Lemma eventsCallback_frame c br events f :
  f ∈ eventsCallback c br events ->
  frame_id f = br_id br /\ frame_type f = RpcTypes.ResponseActionCollectionChange.
Proof.
  unfold eventsCallback. destruct (unsubscribed br); intros H; elem_cases H.
  by subst.
Qed.

(** In a run, every change composite comes after an opening composite with
    the same id. *)
Lemma run_change_after_opening turns σ log0 :
  opened σ log0 ->
  forall l1 o f l2,
    (run turns σ).2 = l1 ++ Sent o f :: l2 ->
    frame_type f = RpcTypes.ResponseActionCollectionChange ->
    exists o' f', Sent o' f' ∈ log0 ++ l1 /\ isOpening (frame_id f) f'.
Proof.
  revert σ log0. induction turns as [| [c i] turns IH]; intros σ log0 Hop l1 o f l2 Hrun Hty.
  { simpl in Hrun. by destruct l1. }
  simpl in Hrun.
  pose proof (step_opened c i σ log0 Hop) as Hop1.
  pose proof (step_sent c i σ o f) as Hsent.
  destruct (step c i σ) as [σ1 w1]. simpl in *.
  specialize (IH σ1 (log0 ++ w1) Hop1).
  destruct (run turns σ1) as [σ2 w2]. simpl in *.
  apply app_eq_inv in Hrun as [(k & Hw1 & Hk) | (k & -> & Hk)].
  - destruct k as [| e k].
    + (* the first frame of the later turns *)
      simpl in Hk. rewrite app_nil_r in Hw1. subst w1.
      destruct (IH [] o f l2 (eq_sym Hk) Hty) as (o' & f' & Hin & Hopening).
      rewrite app_nil_r in Hin. eauto.
    + (* a frame of this turn *)
      simpl in Hk. injection Hk as <- ->.
      assert (Hin : Sent o f ∈ w1).
      { rewrite Hw1. apply elem_of_app. right. left. }
      destruct (Hsent Hin) as [[_ Hne] | [(j & _ & _ & σ' & s & n & Hn) | [H | H]]].
      * done.
      * apply onNotification_type in Hn. rewrite Hty in Hn.
        destruct Hn as [? | [? | ?]]; discriminate.
      * destruct H as (k' & n & s & _ & _ & _ & _ & Hn).
        apply onNotification_type in Hn. rewrite Hty in Hn.
        destruct Hn as [? | [? | ?]]; discriminate.
      * destruct H as (b & br & _ & _ & Hb & _ & Hf).
        apply eventsCallback_frame in Hf as [-> _].
        destruct (Hop _ _ Hb) as (o' & f' & Hin' & Hopening).
        exists o', f'. split; [apply elem_of_app; by left | done].
  - (* a frame of the later turns *)
    destruct (IH k o f l2 Hk Hty) as (o' & f' & Hin & Hopening).
    exists o', f'. split; [| done]. by rewrite app_assoc.
Qed.

Lemma handleAction_begin_suspended c message this this' written p :
  handleAction_begin c message this = (this', written, Return (Some p)) ->
  frames written = []
  /\ exists call settled,
       (prepare c message this).2 = Return call
       /\ callMethod c (pr_instance call) (pr_method call) (pr_converted call)
          = Return settled
       /\ pe_id p = msg_id message /\ pe_settled p = settled.
Proof.
  unfold handleAction_begin.
  destruct (prepare c message this) as [this1 [call | e]]; [| done].
  destruct (negb _); [done |].
  destruct (callMethod c _ _ _) as [settled | e] eqn:Hcall; [| done].
  intros [= <- <- <-]. split; [done |]. by exists call, settled.
Qed.

(** C7: a call whose method resolves to a collection writes exactly one
    frame, the composite [ResponseActionCollection] with the three parts
    model, state and set (the items of [all()]) in this order; and in every
    run of a new dispatcher, each composite [ResponseActionCollectionChange]
    comes after an opening composite with the same id. *)
Theorem collection_opening_composite_first :
  (forall c message (σ : Sys) call collection,
      (prepare c message (this σ)).2 = Return call ->
      pr_errors call = [] ->
      callMethod c (pr_instance call) (pr_method call) (pr_converted call)
      = Return (Fulfilled collection) ->
      instanceof collection "EntitySubject" = false ->
      instanceof collection "Collection" = true ->
      sendThrows c (openingComposite c (msg_id message) collection) = None ->
      frames (handleAction c message σ).1.2
      = [Composite (msg_id message) RpcTypes.ResponseActionCollection
           [(RpcTypes.ResponseActionCollectionModel,
             BodyModel (collection_model c collection));
            (RpcTypes.ResponseActionCollectionState,
             BodyState (collection_state c collection));
            (RpcTypes.ResponseActionCollectionSet,
             BodyItems (collection_all c collection))]])
  /\ (forall controllers turns l1 o f l2,
        (run turns (new_Sys controllers)).2 = l1 ++ Sent o f :: l2 ->
        frame_type f = RpcTypes.ResponseActionCollectionChange ->
        exists o' f', Sent o' f' ∈ l1 /\ isOpening (frame_id f) f').
Proof.
  split.
  - intros c message σ call collection Hprep Herr Hcall He Hc Hsend.
    unfold handleAction, handleAction_begin.
    destruct (prepare c message (this σ)) as [this' [call' | e]]; simpl in Hprep; [| done].
    injection Hprep as ->. rewrite Herr, Hcall. simpl.
    unfold handleAction_resume. simpl. rewrite He, Hc, Hsend. simpl. reflexivity.
  - intros controllers turns l1 o f l2 Hrun Hty.
    destruct (run_change_after_opening turns (new_Sys controllers) []) with
      (l1 := l1) (o := o) (f := f) (l2 := l2) as (o' & f' & Hin & Hopening);
      [| done | done | eauto].
    intros b br Hb. simpl in Hb. by rewrite lookup_nil in Hb.
Qed.

(** Scenario S5: the opening composite of call 9, and the change composite
    after it. *)
Lemma collection_opening_composite_first_witness :
  frames (handleAction Sample.world (Sample.action 9 "c1 list") Sample.start).1.2
  = [Composite 9 RpcTypes.ResponseActionCollection
       [(RpcTypes.ResponseActionCollectionModel, BodyModel (VStr "model"));
        (RpcTypes.ResponseActionCollectionState, BodyState (VStr "state"));
        (RpcTypes.ResponseActionCollectionSet, BodyItems [VStr "x"; VStr "y"])]]
  /\ exists o' f',
       Sent o' f'
       ∈ [Invoked (instanceOfClass Sample.C1) "list" [];
          Sent ByHandler
            (Composite 9 RpcTypes.ResponseActionCollection
               [(RpcTypes.ResponseActionCollectionModel, BodyModel (VStr "model"));
                (RpcTypes.ResponseActionCollectionState, BodyState (VStr "state"));
                (RpcTypes.ResponseActionCollectionSet, BodyItems [VStr "x"; VStr "y"])])]
       /\ isOpening 9 f'.
Proof.
  split.
  - exact (proj1 collection_opening_composite_first Sample.world
             (Sample.action 9 "c1 list") Sample.start
             {| pr_controller := "c1"; pr_method := "list";
                pr_types :=
                  match (loadTypes Sample.world (this Sample.start) "c1" "list").2 with
                  | Return types => types
                  | Throw _ => Sample.addTypes
                  end;
                pr_instance := instanceOfClass Sample.C1;
                pr_converted := []; pr_errors := [] |}
             {| classOf := Some Sample.Collection; payload := VUndefined |}
             eq_refl eq_refl eq_refl eq_refl eq_refl eq_refl).
  - apply (proj2 collection_opening_composite_first {["c1" := Sample.C1]}
             [(Sample.world, Receive (Sample.action 9 "c1 list"));
              (Sample.world, Resume 0%nat);
              (Sample.world,
               EmitEvent 0%nat {| ev_type := "add"; ev_items := [VStr "z"]; ev_ids := [] |});
              (Sample.world, Microtask 0%nat)]
             [Invoked (instanceOfClass Sample.C1) "list" [];
              Sent ByHandler
                (Composite 9 RpcTypes.ResponseActionCollection
                   [(RpcTypes.ResponseActionCollectionModel, BodyModel (VStr "model"));
                    (RpcTypes.ResponseActionCollectionState, BodyState (VStr "state"));
                    (RpcTypes.ResponseActionCollectionSet,
                     BodyItems [VStr "x"; VStr "y"])])]
             (ByBridge 0)
             (Composite 9 RpcTypes.ResponseActionCollectionChange
                [(RpcTypes.ResponseActionCollectionAdd, BodyItems [VStr "z"])])
             []).
    + vm_compute. reflexivity.
    + reflexivity.
Defined.

(** ** The table of types *)

Lemma ensure_collectionSchema_idem types :
  ensure_collectionSchema (ensure_collectionSchema types) = ensure_collectionSchema types.
Proof.
  unfold ensure_collectionSchema.
  destruct (collectionSchema types) eqn:H; simpl; [by rewrite H | done].
Qed.

Lemma ensure_collectionSchema_Some types s :
  collectionSchema types = Some s -> ensure_collectionSchema types = types.
Proof. intros H. unfold ensure_collectionSchema. by rewrite H. Qed.

Lemma typesLater_refl types : typesLater types types.
Proof. by left. Qed.

Lemma typesLater_ensure types : typesLater types (ensure_collectionSchema types).
Proof.
  destruct (collectionSchema types) as [s |] eqn:Hs.
  - left. by eapply ensure_collectionSchema_Some.
  - by right.
Qed.

Lemma typesLater_trans t1 t2 t3 : typesLater t1 t2 -> typesLater t2 t3 -> typesLater t1 t3.
Proof.
  intros [-> | [H1 ->]] [-> | [H2 ->]].
  - by left.
  - by right.
  - by right.
  - right. split; [done |]. apply ensure_collectionSchema_idem.
Qed.

(** [loadTypes] returns what is cached and stores only under a key that was
    free. *)
Lemma loadTypes_cache c this controller method key types :
  cachedActionsTypes this !! key = Some types ->
  cachedActionsTypes (loadTypes c this controller method).1 !! key = Some types.
Proof.
  intros Hkey. unfold loadTypes.
  destruct (cachedActionsTypes this !! cacheIdOf controller method) eqn:Hmiss; [done |].
  destruct (controllers this !! controller) as [controllerClass |]; [| done].
  destruct (negb _); [done |].
  destruct (unwrapResultProperty _ _ _ _); [| done].
  simpl. rewrite lookup_insert_ne; [done |]. intros <-. congruence.
Qed.

Lemma prepare_cache c message this key types :
  cachedActionsTypes this !! key = Some types ->
  cachedActionsTypes (prepare c message this).1 !! key = Some types.
Proof.
  intros Hkey. unfold prepare.
  destruct (parseBody_rpcActionType c _) as [[controller method] | e]; [| done].
  destruct (controllers this !! controller) as [controllerClass |]; [| done].
  pose proof (loadTypes_cache c this controller method key types Hkey) as H.
  destruct (loadTypes c this controller method) as [this' [types' | e]]; [| done].
  destruct (parseBody_parameterSchema c _ _); [| done].
  destruct (injector_get c _); [| done].
  by destruct (parametersDeserialize types' _).
Qed.

Lemma handleAction_begin_cache c message this key types :
  cachedActionsTypes this !! key = Some types ->
  cachedActionsTypes (handleAction_begin c message this).1.1 !! key = Some types.
Proof.
  intros Hkey. unfold handleAction_begin.
  pose proof (prepare_cache c message this key types Hkey) as H.
  destruct (prepare c message this) as [this' [call | e]]; [| done].
  destruct (negb _); [done |].
  by destruct (callMethod c _ _ _).
Qed.

Lemma handle_cache c message σ :
  cachedActionsTypes (this (handle c message σ).1.1) = cachedActionsTypes (this σ).
Proof.
  unfold handle.
  destruct (msg_type message); try done.
  - destruct (observables (this σ) !! msg_id message) as [entry |]; [| done].
    destruct (parseBody_rpcActionObservableSubscribeId c _) as [body_id | e]; [| done].
    by destruct (subscriptions entry !! body_id).
  - destruct (observables (this σ) !! msg_id message) as [entry |]; [| done].
    destruct (parseBody_rpcActionObservableSubscribeId c _) as [body_id | e]; [| done].
    destruct (subscriptions entry !! body_id) as [subObj |]; [| done].
    cbn [fst]. by rewrite client_unsubscribe_this.
  - by destruct (observableSubjects (this σ) !! msg_id message).
  - by destruct (collections (this σ) !! msg_id message).
Qed.

(** The continuation touches a cached entry in the collection branch only,
    and only to fill in [collectionSchema]. *)
Lemma handleAction_resume_cache c p σ key types :
  cachedActionsTypes (this σ) !! key = Some types ->
  exists types', cachedActionsTypes (this (handleAction_resume c p σ).1) !! key = Some types'
                 /\ typesLater types types'.
Proof.
  intros Hkey. unfold handleAction_resume.
  destruct (pe_settled p) as [result | e]; [| eauto using typesLater_refl].
  destruct (instanceof result "EntitySubject"); [eauto using typesLater_refl |].
  destruct (instanceof result "Collection").
  { assert (Halter : exists types',
               alter ensure_collectionSchema (pe_cacheId p) (cachedActionsTypes (this σ))
               !! key = Some types' /\ typesLater types types').
    { destruct (decide (pe_cacheId p = key)) as [-> | Hne].
      - rewrite lookup_alter_eq, Hkey. simpl. eauto using typesLater_ensure.
      - rewrite lookup_alter_ne by done. eauto using typesLater_refl. }
    by destruct (sendThrows c _). }
  destruct (instanceof result "Observable"); [| eauto using typesLater_refl].
  destruct (instanceof result "Subject"); simpl; eauto using typesLater_refl.
Qed.

Lemma rx_delivered_this k n σ : this (rx_delivered k n σ) = this σ.
Proof. unfold rx_delivered. by destruct (isTerminal n). Qed.

Lemma client_subscribe_reentered_cache c id body_id entry upto inner σ :
  cachedActionsTypes (this (client_subscribe_reentered c id body_id entry upto inner σ).1)
  = cachedActionsTypes (this σ).
Proof.
  unfold client_subscribe_reentered.
  pose proof (handle_cache c inner (client_subscribe_open c id body_id entry σ)) as H.
  destruct (handle c inner _) as [[σ2 w] r]. cbn [fst] in *. simpl. by rewrite H.
Qed.

Lemma step_cache c i σ key types :
  cachedActionsTypes (this σ) !! key = Some types ->
  exists types', cachedActionsTypes (this (step c i σ).1) !! key = Some types'
                 /\ typesLater types types'.
Proof.
  intros Hkey.
  destruct i as [message | p | k n | k event | b | message upto inner]; simpl.
  - unfold receive.
    destruct (msg_type message) eqn:Hty;
      try solve [pose proof (handle_cache c message σ) as Hh;
                 destruct (handle c message σ) as [[σ' w] r]; simpl in *;
                 rewrite Hh; eauto using typesLater_refl].
    + unfold handleActionTypes.
      destruct (parseBody_rpcActionType c _) as [[controller method] | e]; simpl;
        [| eauto using typesLater_refl].
      pose proof (loadTypes_cache c (this σ) controller method key types Hkey) as H.
      destruct (loadTypes c (this σ) controller method) as [this' [types' | e]];
        simpl in *; eauto using typesLater_refl.
    + pose proof (handleAction_begin_cache c message (this σ) key types Hkey) as H.
      destruct (handleAction_begin c message (this σ)) as [[this' w] [[p |] | e]];
        simpl in *; eauto using typesLater_refl.
  - destruct (pendings σ !! p) as [pe |]; [| eauto using typesLater_refl].
    destruct (pe_resumed pe); [eauto using typesLater_refl |].
    by apply handleAction_resume_cache.
  - destruct (rxSubscriptions σ !! k) as [s |]; [| eauto using typesLater_refl].
    destruct (delivers c (closed s) n); [| eauto using typesLater_refl].
    simpl. rewrite rx_delivered_this. eauto using typesLater_refl.
  - destruct (rxSubscriptions σ !! k) as [s |]; [| eauto using typesLater_refl].
    destruct (subscriber s); try eauto using typesLater_refl.
    destruct (deliversEvent c (closed s) event); eauto using typesLater_refl.
  - destruct (bridges σ !! b) as [br |]; [| eauto using typesLater_refl].
    destruct (taskScheduled br); eauto using typesLater_refl.
  - destruct (subscribing c message σ) as [[body_id entry] |];
      [| eauto using typesLater_refl].
    rewrite client_subscribe_reentered_cache. eauto using typesLater_refl.
Qed.

(** C4, as the code has it: an entry of [cachedActionsTypes] is never removed
    or replaced, and of its fields only [collectionSchema] is ever written:
    after any run the entry under a key is the one read before, or that one
    with [collectionSchema], which was absent, filled in by the collection
    branch.  An entry whose [collectionSchema] is there never changes. *)
Theorem cached_types_change_only_by_collectionSchema turns (σ : Sys) key types :
  cachedActionsTypes (this σ) !! key = Some types ->
  exists types',
    cachedActionsTypes (this (run turns σ).1) !! key = Some types'
    /\ (types' = types
        \/ (collectionSchema types = None /\ types' = ensure_collectionSchema types)).
Proof.
  revert σ types. induction turns as [| [c i] turns IH]; intros σ types Hkey; simpl.
  { exists types. split; [done | by left]. }
  destruct (step_cache c i σ key types Hkey) as (types1 & H1 & Hl1).
  destruct (step c i σ) as [σ1 w1]. simpl in *.
  destruct (IH σ1 types1 H1) as (types2 & H2 & Hl2).
  destruct (run turns σ1) as [σ2 w2]. simpl in *.
  exists types2. split; [done |].
  exact (typesLater_trans _ _ _ Hl1 Hl2).
Qed.

Lemma cached_types_change_only_by_collectionSchema_witness :
  exists types',
    cachedActionsTypes (this SampleCache.afterCollection) !! "c1!list" = Some types'
    /\ collectionSchema types'
       = Some [{| name := "v"; type := "array"; isOptional := false; classType := None;
                  templateArgs := [{| name := "v"; type := "string"; isOptional := true;
                                      classType := None; templateArgs := [] |}] |}].
Proof.
  assert (Hloaded : cachedActionsTypes (this SampleCache.loaded) !! "c1!list"
                    = Some match cachedActionsTypes (this SampleCache.loaded) !! "c1!list" with
                           | Some types => types
                           | None => Sample.addTypes
                           end) by (vm_compute; reflexivity).
  destruct (cached_types_change_only_by_collectionSchema
              [(Sample.world, Receive (Sample.action 9 "c1 list"));
               (Sample.world, Resume 0%nat)]
              SampleCache.loaded "c1!list" _ Hloaded)
    as (types' & Hlookup & Hlater).
  exists types'. split; [exact Hlookup |].
  assert (Some types' = cachedActionsTypes (this SampleCache.afterCollection) !! "c1!list")
    as Heq by (symmetry; exact Hlookup).
  vm_compute in Heq. injection Heq as ->. reflexivity.
Defined.

(** C4, as stated, fails: the entry of [c1.list] read after the types were
    loaded and the entry read after a call has resolved to a collection
    differ. *)
Lemma cached_types_entry_mutated :
  exists types1 types2,
    cachedActionsTypes (this SampleCache.loaded) !! "c1!list" = Some types1
    /\ cachedActionsTypes (this SampleCache.afterCollection) !! "c1!list" = Some types2
    /\ types1 <> types2.
Proof.
  eexists _, _. split; [vm_compute; reflexivity |]. split; [vm_compute; reflexivity |].
  intros H. apply (f_equal collectionSchema) in H. discriminate H.
Qed.

(** * Further properties *)

(** ** [loadTypes]: memoization and failures *)

(** X1: [loadTypes] is memoized.  Once it has returned the types of
    [(controller, method)], every later call for the same pair returns the
    same types and leaves the dispatcher as it is, whatever the registry and
    the schema system would answer by then. *)
Theorem loadTypes_memoized c c' this controller method this' types :
  loadTypes c this controller method = (this', Return types) ->
  cachedActionsTypes this' !! cacheIdOf controller method = Some types
  /\ loadTypes c' this' controller method = (this', Return types).
Proof.
  intros Hload.
  assert (Hcached : cachedActionsTypes this' !! cacheIdOf controller method = Some types).
  { unfold loadTypes in Hload.
    destruct (cachedActionsTypes this !! cacheIdOf controller method) eqn:Hc.
    { by injection Hload as <- <-. }
    destruct (controllers this !! controller) as [controllerClass |]; [| done].
    destruct (negb _); [done |].
    destruct (unwrapResultProperty _ _ _ _); [| done].
    injection Hload as <- <-. simpl. by rewrite lookup_insert_eq. }
  split; [done |]. unfold loadTypes. by rewrite Hcached.
Qed.

Lemma loadTypes_memoized_witness :
  let first := loadTypes Sample.world (this Sample.start) "c1" "add" in
  loadTypes Sample.racing first.1 "c1" "add" = (first.1, Return Sample.addTypes).
Proof.
  exact (proj2 (loadTypes_memoized Sample.world Sample.racing (this Sample.start)
                  "c1" "add" _ Sample.addTypes eq_refl)).
Defined.

(** X2: the key of the table is [controller + '!' + method], so two pairs
    with the same concatenation share one entry: after the types of one pair
    were loaded, a load for the other pair returns them, without looking at
    the registry. *)
Theorem loadTypes_shares_equal_keys c c' this controller method controller' method'
    this' types :
  cacheIdOf controller method = cacheIdOf controller' method' ->
  loadTypes c this controller method = (this', Return types) ->
  loadTypes c' this' controller' method' = (this', Return types).
Proof.
  intros Hkey Hload.
  destruct (loadTypes_memoized c c' this controller method this' types Hload) as [Hc _].
  unfold loadTypes. by rewrite <- Hkey, Hc.
Qed.

Lemma loadTypes_shares_equal_keys_witness :
  let this0 := new_RpcServerAction {["a!b" := Sample.C1]} in
  let first := loadTypes Sample.world this0 "a!b" "add" in
  controllers first.1 !! "a" = None
  /\ loadTypes Sample.world first.1 "a" "b!add" = (first.1, Return Sample.addTypes).
Proof.
  split; [reflexivity |].
  exact (loadTypes_shares_equal_keys Sample.world Sample.world
           (new_RpcServerAction {["a!b" := Sample.C1]}) "a!b" "add" "a" "b!add"
           _ Sample.addTypes eq_refl eq_refl).
Defined.

(** X3: a load that fails leaves the dispatcher as it was; a load that
    succeeds changes at most the table of types, and there only the entry of
    its own key, which then holds the returned types. *)
Theorem loadTypes_effect c this controller method :
  let this' := (loadTypes c this controller method).1 in
  (forall e, (loadTypes c this controller method).2 = Throw e -> this' = this)
  /\ observableSubjects this' = observableSubjects this
  /\ collections this' = collections this
  /\ observables this' = observables this
  /\ controllers this' = controllers this
  /\ (forall key, key <> cacheIdOf controller method ->
        cachedActionsTypes this' !! key = cachedActionsTypes this !! key)
  /\ (forall types, (loadTypes c this controller method).2 = Return types ->
        cachedActionsTypes this' !! cacheIdOf controller method = Some types).
Proof.
  intros this'. subst this'.
  pose proof (loadTypes_tables c this controller method) as (Hs & Hc & Ho & Hk).
  split_and!; try done.
  - unfold loadTypes.
    destruct (cachedActionsTypes this !! cacheIdOf controller method); [done |].
    destruct (controllers this !! controller) as [controllerClass |]; [| done].
    destruct (negb _); [done |].
    by destruct (unwrapResultProperty _ _ _ _).
  - intros key Hne. unfold loadTypes.
    destruct (cachedActionsTypes this !! cacheIdOf controller method); [done |].
    destruct (controllers this !! controller) as [controllerClass |]; [| done].
    destruct (negb _); [done |].
    destruct (unwrapResultProperty _ _ _ _); [| done].
    simpl. by rewrite lookup_insert_ne.
  - intros types Hret.
    destruct (loadTypes c this controller method) as [this' r] eqn:Hload.
    simpl in *. subst r.
    by destruct (loadTypes_memoized c c this controller method this' types Hload).
Qed.

(** ** The shape of the cached types *)

Lemma fold_registerProperty (ps : list PropertySchema) (acc : ClassSchema) :
  fold_left registerProperty ps acc = acc ++ ps.
Proof.
  revert acc. induction ps as [| p ps IH]; intros acc; simpl.
  - by rewrite app_nil_r.
  - rewrite IH. unfold registerProperty. by rewrite <- app_assoc.
Qed.

Lemma wellShaped_ensure types : wellShaped types -> wellShaped (ensure_collectionSchema types).
Proof.
  intros (v & Hn & Ho & Hr & Hon & Hp & Hc).
  unfold ensure_collectionSchema.
  destruct (collectionSchema types) as [s |] eqn:Hs.
  - exists v. by rewrite Hs.
  - exists v. simpl. split_and!; try done.
    right. rewrite Hr. unfold getProperty. simpl.
    by rewrite bool_decide_eq_true_2.
Qed.

Lemma loadTypes_wellShaped c this controller method :
  (forall key types, cachedActionsTypes this !! key = Some types -> wellShaped types) ->
  forall key types,
    cachedActionsTypes (loadTypes c this controller method).1 !! key = Some types ->
    wellShaped types.
Proof.
  intros Hall key types. unfold loadTypes.
  destruct (cachedActionsTypes this !! cacheIdOf controller method); [apply Hall |].
  destruct (controllers this !! controller) as [controllerClass |]; [| apply Hall].
  destruct (negb _); [apply Hall |].
  destruct (unwrapResultProperty _ _ _ _) as [p | e]; [| apply Hall].
  simpl. destruct (decide (cacheIdOf controller method = key)) as [<- | Hne].
  - rewrite lookup_insert_eq. intros [= <-].
    exists {| name := "v"; type := type p; isOptional := true;
              classType := classType p; templateArgs := templateArgs p |}.
    simpl. split_and!; try reflexivity.
    + unfold createClassSchema. by rewrite fold_registerProperty.
    + by left.
  - rewrite lookup_insert_ne by done. apply Hall.
Qed.

Lemma prepare_wellShaped c message this :
  (forall key types, cachedActionsTypes this !! key = Some types -> wellShaped types) ->
  forall key types,
    cachedActionsTypes (prepare c message this).1 !! key = Some types -> wellShaped types.
Proof.
  intros Hall. unfold prepare.
  destruct (parseBody_rpcActionType c _) as [[controller method] | e]; [| done].
  destruct (controllers this !! controller) as [controllerClass |]; [| done].
  pose proof (loadTypes_wellShaped c this controller method Hall) as H.
  destruct (loadTypes c this controller method) as [this' [types' | e]]; [| done].
  destruct (parseBody_parameterSchema c _ _); [| done].
  destruct (injector_get c _); [| done].
  by destruct (parametersDeserialize types' _).
Qed.

Lemma step_wellShaped c i σ :
  (forall key types, cachedActionsTypes (this σ) !! key = Some types -> wellShaped types) ->
  forall key types,
    cachedActionsTypes (this (step c i σ).1) !! key = Some types -> wellShaped types.
Proof.
  intros Hall.
  destruct i as [message | p | k n | k event | b | message upto inner]; simpl.
  - unfold receive.
    destruct (msg_type message) eqn:Hty;
      try solve [pose proof (handle_cache c message σ) as Hh;
                 destruct (handle c message σ) as [[σ' w] r]; simpl in *;
                 by rewrite Hh].
    + unfold handleActionTypes.
      destruct (parseBody_rpcActionType c _) as [[controller method] | e]; [| done].
      pose proof (loadTypes_wellShaped c (this σ) controller method Hall) as H.
      by destruct (loadTypes c (this σ) controller method) as [this' [types' | e]].
    + unfold handleAction_begin.
      pose proof (prepare_wellShaped c message (this σ) Hall) as H.
      destruct (prepare c message (this σ)) as [this' [call | e]]; [| done].
      destruct (negb _); [done |].
      by destruct (callMethod c _ _ _).
  - destruct (pendings σ !! p) as [pe |]; [| done].
    destruct (pe_resumed pe); [done |].
    unfold handleAction_resume.
    destruct (pe_settled pe) as [result | e]; [| done].
    destruct (instanceof result "EntitySubject"); [done |].
    destruct (instanceof result "Collection").
    { assert (Halter : forall key types,
                 alter ensure_collectionSchema (pe_cacheId pe) (cachedActionsTypes (this σ))
                 !! key = Some types -> wellShaped types).
      { intros key types.
        destruct (decide (pe_cacheId pe = key)) as [-> | Hne].
        - rewrite lookup_alter_eq.
          destruct (cachedActionsTypes (this σ) !! key) as [t |] eqn:Ht; [| done].
          intros [= <-]. eapply wellShaped_ensure, Hall, Ht.
        - rewrite lookup_alter_ne by done. apply Hall. }
      by destruct (sendThrows c _). }
    destruct (instanceof result "Observable"); [| done].
    by destruct (instanceof result "Subject").
  - destruct (rxSubscriptions σ !! k) as [s |]; [| done].
    destruct (delivers c (closed s) n); [| done].
    simpl. by rewrite rx_delivered_this.
  - destruct (rxSubscriptions σ !! k) as [s |]; [| done].
    destruct (subscriber s); try done.
    by destruct (deliversEvent c (closed s) event).
  - destruct (bridges σ !! b) as [br |]; [| done].
    by destruct (taskScheduled br).
  - destruct (subscribing c message σ) as [[body_id entry] |]; [| done].
    by rewrite client_subscribe_reentered_cache.
Qed.

(** X4: every cached [ActionTypes], in every state the dispatcher reaches,
    has the same shape: [resultSchema] is the one property [v], optional;
    [observableNextSchema] is [id] followed by the same [v];
    [parameterSchema] wraps the parameters in their order; and
    [collectionSchema] is absent or the one property [v] of type array with
    that [v] as its template argument. *)
Theorem cached_types_shape (σ : Sys) key types :
  reachable σ ->
  cachedActionsTypes (this σ) !! key = Some types ->
  wellShaped types.
Proof.
  intros (controllers & turns & <-). revert key types.
  assert (Hgen : forall turns σ,
             (forall key types, cachedActionsTypes (this σ) !! key = Some types ->
                                wellShaped types) ->
             forall key types,
               cachedActionsTypes (this (run turns σ).1) !! key = Some types ->
               wellShaped types).
  { clear. induction turns as [| [c i] turns IH]; intros σ Hall; [done |].
    simpl. pose proof (step_wellShaped c i σ Hall) as H1.
    destruct (step c i σ) as [σ1 w1]. specialize (IH σ1 H1).
    by destruct (run turns σ1). }
  apply Hgen. intros key types. simpl. by rewrite lookup_empty.
Qed.

Lemma cached_types_shape_witness :
  exists types,
    cachedActionsTypes (this SampleCache.afterCollection) !! "c1!list" = Some types
    /\ wellShaped types.
Proof.
  destruct (cachedActionsTypes (this SampleCache.afterCollection) !! "c1!list")
    as [types |] eqn:Hlookup; [| vm_compute in Hlookup; discriminate Hlookup].
  exists types. split; [reflexivity |].
  apply (cached_types_shape SampleCache.afterCollection "c1!list" types); [| exact Hlookup].
  exists {["c1" := Sample.C1]},
    [(Sample.world, Receive (Sample.control RpcTypes.ActionType 1 "c1 list"));
     (Sample.world, Receive (Sample.action 9 "c1 list"));
     (Sample.world, Resume 0%nat)].
  reflexivity.
Defined.

(** ** [handle]: control messages *)

(** X5: [handle] either does its work or answers with an error, never both:
    when it rejects (a body that does not parse; there is no [try] in
    [handle]) it has written nothing and changed nothing; when it writes an
    error frame, that frame is the only thing written, it carries the id of
    the message and one of the four messages of [handle], the promise
    resolves and the state is unchanged. *)
Theorem handle_fails_without_effect c message (σ : Sys) :
  (forall e, (handle c message σ).2 = Throw e -> (handle c message σ).1 = (σ, []))
  /\ (forall o f, Sent o f ∈ (handle c message σ).1.2 -> isErrorFrame f = true ->
        exists msg,
          msg ∈ controlErrors
          /\ handle c message σ
             = (σ, [Sent ByHandler (ErrorReply (msg_id message) (Error msg))], Return ())).
Proof.
  unfold handle, response_error, controlErrors. split.
  - intros e.
    destruct (msg_type message); try done.
    + destruct (observables (this σ) !! msg_id message) as [entry |]; [| done].
      destruct (parseBody_rpcActionObservableSubscribeId c _) as [body_id | e']; [| done].
      destruct (subscriptions entry !! body_id); [done |].
      by destruct (client_subscribe c (msg_id message) body_id entry σ).
    + destruct (observables (this σ) !! msg_id message) as [entry |]; [| done].
      destruct (parseBody_rpcActionObservableSubscribeId c _) as [body_id | e']; [| done].
      by destruct (subscriptions entry !! body_id).
    + by destruct (observableSubjects (this σ) !! msg_id message).
    + destruct (collections (this σ) !! msg_id message) as [e' |]; [| done].
      by destruct (collection_unsubscribe e' σ).
  - intros o f Hin Herr.
    destruct (msg_type message); try (by elem_cases Hin).
    + destruct (observables (this σ) !! msg_id message) as [entry |];
        [| elem_cases Hin; eexists; split; [| reflexivity]; set_solver].
      destruct (parseBody_rpcActionObservableSubscribeId c _) as [body_id | e'];
        [| by elem_cases Hin].
      destruct (subscriptions entry !! body_id);
        [elem_cases Hin; eexists; split; [| reflexivity]; set_solver |].
      unfold client_subscribe, rx_subscribe in Hin. simpl in Hin.
      apply notifications_sent in Hin as [_ [n Hn]].
      apply onNotification_not_error in Hn. congruence.
    + destruct (observables (this σ) !! msg_id message) as [entry |];
        [| elem_cases Hin; eexists; split; [| reflexivity]; set_solver].
      destruct (parseBody_rpcActionObservableSubscribeId c _) as [body_id | e'];
        [| by elem_cases Hin].
      destruct (subscriptions entry !! body_id);
        [by elem_cases Hin | elem_cases Hin; eexists; split; [| reflexivity]; set_solver].
    + destruct (observableSubjects (this σ) !! msg_id message);
        [by elem_cases Hin | elem_cases Hin; eexists; split; [| reflexivity]; set_solver].
    + destruct (collections (this σ) !! msg_id message) as [e' |];
        [| elem_cases Hin; eexists; split; [| reflexivity]; set_solver].
      unfold collection_unsubscribe in Hin. simpl in Hin.
      destruct (bridges σ !! ce_bridge e'); elem_cases Hin; simplify_eq.
Qed.

(** ** The tables only grow *)

Lemma handle_keeps c message σ :
  let σ' := (handle c message σ).1.1 in
  (forall id, is_Some (observables (this σ) !! id) -> is_Some (observables (this σ') !! id))
  /\ observableSubjects (this σ') = observableSubjects (this σ)
  /\ controllers (this σ') = controllers (this σ).
Proof.
  unfold handle.
  destruct (msg_type message); try done.
  - destruct (observables (this σ) !! msg_id message) as [entry |]; [| done].
    destruct (parseBody_rpcActionObservableSubscribeId c _) as [body_id | e]; [| done].
    destruct (subscriptions entry !! body_id); [done |].
    unfold client_subscribe, rx_subscribe. simpl. split; [| done].
    intros id Hid. destruct (decide (msg_id message = id)) as [<- | Hne].
    + by rewrite lookup_insert_eq.
    + by rewrite lookup_insert_ne.
  - destruct (observables (this σ) !! msg_id message) as [entry |]; [| done].
    destruct (parseBody_rpcActionObservableSubscribeId c _) as [body_id | e]; [| done].
    destruct (subscriptions entry !! body_id) as [subObj |]; [| done].
    cbn [fst]. rewrite client_unsubscribe_this. simpl. split; [| done].
    intros id Hid. destruct (decide (msg_id message = id)) as [<- | Hne].
    + by rewrite lookup_insert_eq.
    + by rewrite lookup_insert_ne.
  - by destruct (observableSubjects (this σ) !! msg_id message).
  - by destruct (collections (this σ) !! msg_id message).
Qed.

Lemma handleAction_resume_keeps c p σ :
  let σ' := (handleAction_resume c p σ).1 in
  (forall id, is_Some (observables (this σ) !! id) -> is_Some (observables (this σ') !! id))
  /\ (forall id, is_Some (observableSubjects (this σ) !! id) ->
                 is_Some (observableSubjects (this σ') !! id))
  /\ controllers (this σ') = controllers (this σ).
Proof.
  assert (Hins : forall {V} (m : gmap Z V) i (x : V) id,
             is_Some (m !! id) -> is_Some (<[i := x]> m !! id)).
  { intros V m i x id Hid. destruct (decide (i = id)) as [<- | Hne].
    - by rewrite lookup_insert_eq.
    - by rewrite lookup_insert_ne. }
  unfold handleAction_resume.
  destruct (pe_settled p) as [result | e]; [| done].
  destruct (instanceof result "EntitySubject"); [done |].
  destruct (instanceof result "Collection"); [by destruct (sendThrows c _) |].
  destruct (instanceof result "Observable"); [| done].
  destruct (instanceof result "Subject"); simpl; split_and!; auto.
Qed.

(** X6: nothing is ever removed from [observables], [observableSubjects] and
    [cachedActionsTypes], and [controllers] never changes: whatever the
    dispatcher receives (unsubscribe messages included) and whatever the
    sources do (completion and error included), a key present once is present
    for the rest of the run. *)
Theorem tables_never_shrink turns (σ : Sys) :
  let σ' := (run turns σ).1 in
  (forall id, is_Some (observables (this σ) !! id) -> is_Some (observables (this σ') !! id))
  /\ (forall id, is_Some (observableSubjects (this σ) !! id) ->
                 is_Some (observableSubjects (this σ') !! id))
  /\ (forall key, is_Some (cachedActionsTypes (this σ) !! key) ->
                  is_Some (cachedActionsTypes (this σ') !! key))
  /\ controllers (this σ') = controllers (this σ).
Proof.
  assert (Hstep : forall c i σ,
             (forall id, is_Some (observables (this σ) !! id) ->
                         is_Some (observables (this (step c i σ).1) !! id))
             /\ (forall id, is_Some (observableSubjects (this σ) !! id) ->
                            is_Some (observableSubjects (this (step c i σ).1) !! id))
             /\ controllers (this (step c i σ).1) = controllers (this σ)).
  { clear. intros c i σ.
    destruct i as [message | p | k n | k event | b | message upto inner]; simpl.
    - unfold receive.
      destruct (msg_type message) eqn:Hty;
        try solve [pose proof (handle_keeps c message σ) as (Ho & Hs & Hc);
                   destruct (handle c message σ) as [[σ' w] r]; simpl in *;
                   rewrite Hs; auto].
      + unfold handleActionTypes.
        destruct (parseBody_rpcActionType c _) as [[controller method] | e]; [| done].
        pose proof (loadTypes_tables c (this σ) controller method) as (Hs & _ & Ho & Hc).
        destruct (loadTypes c (this σ) controller method) as [this' [types | e]];
          simpl in *; by rewrite Hs, Ho, Hc.
      + pose proof (handleAction_begin_tables c message (this σ)) as (Hs & _ & Ho & Hc).
        destruct (handleAction_begin c message (this σ)) as [[this' w] [[p |] | e]];
          simpl in *; by rewrite Hs, Ho, Hc.
    - destruct (pendings σ !! p) as [pe |]; [| done].
      destruct (pe_resumed pe); [done |].
      apply (handleAction_resume_keeps c pe
               (set_pendings σ (alter set_resumed p (pendings σ)))).
    - destruct (rxSubscriptions σ !! k) as [s |]; [| done].
      destruct (delivers c (closed s) n); [| done].
      simpl. by rewrite rx_delivered_this.
    - destruct (rxSubscriptions σ !! k) as [s |]; [| done].
      destruct (subscriber s); try done.
      by destruct (deliversEvent c (closed s) event).
    - destruct (bridges σ !! b) as [br |]; [| done].
      by destruct (taskScheduled br).
    - destruct (subscribing c message σ) as [[body_id entry] |]; [| done].
      unfold client_subscribe_reentered.
      pose proof (handle_keeps c inner
                    (client_subscribe_open c (msg_id message) body_id entry σ))
        as (Ho & Hs & Hc).
      destruct (handle c inner _) as [[σ2 w] r]. cbn [fst] in *. simpl.
      rewrite Hs, Hc. split_and!; [| done | done].
      intros id Hid. apply Ho. unfold client_subscribe_open. simpl.
      destruct (decide (msg_id message = id)) as [<- | Hne];
        [by rewrite lookup_insert_eq | by rewrite lookup_insert_ne]. }
  revert σ. induction turns as [| [c i] turns IH]; intros σ; [done |].
  simpl. destruct (Hstep c i σ) as (Ho & Hs & Hc).
  pose proof (fun key types => step_cache c i σ key types) as Hcache.
  destruct (step c i σ) as [σ1 w1]. specialize (IH σ1). simpl in *.
  destruct (run turns σ1) as [σ2 w2]. simpl in *.
  destruct IH as (Ho' & Hs' & Hk' & Hc').
  split_and!; auto.
  - intros key [types Hkey]. apply Hk'.
    destruct (Hcache key types Hkey) as (types' & -> & _). done.
  - congruence.
Qed.

(** ** Unsubscribing twice *)

(** X7: the two unsubscribe messages for server-side subscriptions behave
    differently when repeated.  [ResponseActionCollectionUnsubscribe] deletes
    its entry, so a second one is answered with "No collection found" and
    changes nothing.  [ActionObservableSubjectUnsubscribe] keeps its entry,
    so it is accepted again at any later time of the run: no error frame is
    written and the promise resolves. *)
Theorem unsubscribe_twice c c' message (σ : Sys) :
  (forall e,
      msg_type message = RpcTypes.ResponseActionCollectionUnsubscribe ->
      collections (this σ) !! msg_id message = Some e ->
      handle c' message (handle c message σ).1.1
      = ((handle c message σ).1.1,
         [Sent ByHandler (ErrorReply (msg_id message) (Error "No collection found"))],
         Return ()))
  /\ (forall k turns,
        msg_type message = RpcTypes.ActionObservableSubjectUnsubscribe ->
        observableSubjects (this σ) !! msg_id message = Some k ->
        let later := (run turns (handle c message σ).1.1).1 in
        (handle c' message later).1.2 = [] /\ (handle c' message later).2 = Return ()).
Proof.
  split.
  - intros e Hty He.
    assert (Hgone : collections (this (handle c message σ).1.1) !! msg_id message = None).
    { unfold handle. rewrite Hty, He.
      destruct (collection_unsubscribe e σ) as [σ1 w]. simpl.
      by rewrite lookup_delete_eq. }
    unfold handle at 1. by rewrite Hty, Hgone.
  - intros k turns Hty Hk later.
    assert (Hkept : is_Some (observableSubjects (this later) !! msg_id message)).
    { subst later. apply tables_never_shrink.
      pose proof (handle_keeps c message σ) as (_ & -> & _). by rewrite Hk. }
    destruct Hkept as [k' Hk']. unfold handle. by rewrite Hty, Hk'.
Qed.

(** ** Results that leave nothing behind *)

(** X8: a call whose method resolves to a plain value or to an entity
    subject writes exactly one frame, [ResponseActionSimple] or
    [ResponseEntity] with the value as [v], and registers nothing: apart from
    the table of types, the dispatcher is as it was before the call. *)
Theorem plain_result_leaves_no_state c message (σ : Sys) call result :
  (prepare c message (this σ)).2 = Return call ->
  pr_errors call = [] ->
  callMethod c (pr_instance call) (pr_method call) (pr_converted call)
  = Return (Fulfilled result) ->
  classify result = PlainBranch \/ classify result = EntitySubjectBranch ->
  (forall f, sendThrows c f = None) ->
  let type := if instanceof result "EntitySubject"
              then RpcTypes.ResponseEntity else RpcTypes.ResponseActionSimple in
  let σ' := (handleAction c message σ).1.1 in
  frames (handleAction c message σ).1.2
  = [Reply (msg_id message) type (BodyV (payload result))]
  /\ (handleAction c message σ).2 = Return ()
  /\ observables (this σ') = observables (this σ)
  /\ observableSubjects (this σ') = observableSubjects (this σ)
  /\ collections (this σ') = collections (this σ)
  /\ subObjs σ' = subObjs σ
  /\ rxSubscriptions σ' = rxSubscriptions σ
  /\ bridges σ' = bridges σ.
Proof.
  intros Hprep Herr Hcall Hclass Hsend type σ'. subst type σ'.
  pose proof (prepare_tables c message (this σ)) as (Hs & Hc & Ho & _).
  unfold handleAction, handleAction_begin.
  destruct (prepare c message (this σ)) as [this' [call' | e]]; simpl in Hprep; [| done].
  injection Hprep as ->. rewrite Herr, Hcall. simpl in *.
  unfold handleAction_resume, try_send. simpl.
  destruct (classify_cases result) as
    [[He Hb] | [(He & Hcoll & Hb) | [(He & Hcoll & Hobs & Hb) | (He & Hcoll & Hobs & Hb)]]];
    rewrite Hb in Hclass; destruct Hclass as [? | ?]; try discriminate.
  - rewrite He, Hsend. simpl. by rewrite Hs, Hc, Ho.
  - rewrite He, Hcoll, Hobs, Hsend. simpl. by rewrite Hs, Hc, Ho.
Qed.

Lemma plain_result_leaves_no_state_witness :
  frames (handleAction Sample.world (Sample.action 7 "c1 add 2 3") Sample.start).1.2
  = [Reply 7 RpcTypes.ResponseActionSimple (BodyV (VNum 5))].
Proof.
  exact (proj1 (plain_result_leaves_no_state Sample.world
                  (Sample.action 7 "c1 add 2 3") Sample.start
                  {| pr_controller := "c1"; pr_method := "add";
                     pr_types := Sample.addTypes;
                     pr_instance := instanceOfClass Sample.C1;
                     pr_converted := [VNum 2; VNum 3]; pr_errors := [] |}
                  {| classOf := None; payload := VNum 5 |}
                  eq_refl eq_refl eq_refl (or_introl eq_refl) (fun _ => eq_refl))).
Defined.

(** ** [handleActionTypes] *)



(** ** Plain streams are subscribed on request *)

(** X10: for a result that is an [Observable] but not a [Subject] the call
    subscribes to nothing: it registers the entry with no subscriptions,
    makes no rxjs subscription, leaves [observableSubjects] alone and writes
    only the announcement with type [observable].  The source is subscribed
    to by the first [ActionObservableSubscribe] for the call id: it makes one
    subscription, stores an active object under the subscription id, and every
    value the source hands over inside [subscribe] is written as a
    [ResponseActionObservableNext] frame carrying the subscription id. *)
Theorem plain_stream_subscribed_on_request
    c c' id cacheId types result resumed (σ : Sys) subscribeBody subID :
  instanceof result "EntitySubject" = false ->
  instanceof result "Collection" = false ->
  instanceof result "Observable" = true ->
  instanceof result "Subject" = false ->
  parseBody_rpcActionObservableSubscribeId c' subscribeBody = Return subID ->
  let p := {| pe_id := id; pe_cacheId := cacheId; pe_types := types;
              pe_settled := Fulfilled result; pe_resumed := resumed |} in
  let σ1 := (handleAction_resume c p σ).1 in
  let subscribe := {| msg_id := id; msg_type := RpcTypes.ActionObservableSubscribe;
                      msg_body := subscribeBody |} in
  let σ2 := (handle c' subscribe σ1).1.1 in
  (handleAction_resume c p σ).2
  = try_send c id (Reply id RpcTypes.ResponseActionObservable
                     (BodyType ActionObservableTypes.observable))
  /\ rxSubscriptions σ1 = rxSubscriptions σ
  /\ subObjs σ1 = subObjs σ
  /\ observableSubjects (this σ1) = observableSubjects (this σ)
  /\ (subscriptions <$> observables (this σ1) !! id) = Some ∅
  /\ (handle c' subscribe σ1).2 = Return ()
  /\ rxSubscriptions σ2
     = rxSubscriptions σ
       ++ [{| subscriber := ClientSubscriber id subID (length (subObjs σ));
              closed := existsb isTerminal (subscribeEmits c' result) |}]
  /\ subObjs σ2
     = subObjs σ ++ [{| active := true; sub := Some (length (rxSubscriptions σ)) |}]
  /\ (subscriptions <$> observables (this σ2) !! id)
     = Some {[subID := length (subObjs σ)]}
  /\ frames (handle c' subscribe σ1).1.2
     = flat_map (fun n => match n with
                          | OnNext v =>
                              [Reply id RpcTypes.ResponseActionObservableNext (BodyNext subID v)]
                          | OnError e =>
                              [Reply id RpcTypes.ResponseActionObservableError
                                 (BodyObservableError e subID)]
                          | OnComplete =>
                              [Reply id RpcTypes.ResponseActionObservableComplete (BodyId subID)]
                          end)
         (subscribeEmits c' result).
Proof.
  intros He Hc Ho Hs Hparse p σ1 subscribe σ2.
  assert (H1 : handleAction_resume c p σ
               = (set_this σ (set_observables (this σ)
                    (<[id := {| observable := result; subscriptions := ∅;
                                oe_observableNextSchema := observableNextSchema types |}]>
                       (observables (this σ)))),
                  try_send c id (Reply id RpcTypes.ResponseActionObservable
                                   (BodyType ActionObservableTypes.observable)))).
  { unfold handleAction_resume. simpl. by rewrite He, Hc, Ho, Hs. }
  subst σ2 σ1. rewrite H1. simpl.
  split_and!; try done.
  - by rewrite lookup_insert_eq.
  - unfold handle. simpl. rewrite lookup_insert_eq, Hparse. simpl. by rewrite lookup_empty.
  - unfold handle. simpl. rewrite lookup_insert_eq, Hparse. simpl. by rewrite lookup_empty.
  - unfold handle. simpl. rewrite lookup_insert_eq, Hparse. simpl. rewrite lookup_empty.
    simpl. f_equal.
    rewrite alter_app_r_alt, Nat.sub_diag; [done | lia].
  - unfold handle. simpl. rewrite lookup_insert_eq, Hparse. simpl. rewrite lookup_empty.
    simpl. rewrite lookup_insert_eq. simpl. by rewrite insert_empty.
  - unfold handle. simpl. rewrite lookup_insert_eq, Hparse. simpl. rewrite lookup_empty.
    simpl. rewrite frames_Sent.
    apply flat_map_ext. intros n.
    destruct n; simpl; [| done | done].
    rewrite lookup_app_r, Nat.sub_diag by lia. done.
Qed.

Lemma plain_stream_subscribed_on_request_witness :
  let σ1 := (handleAction Sample.world (Sample.action 4 "c1 stream") Sample.start).1.1 in
  rxSubscriptions σ1 = []
  /\ rxSubscriptions
       (handle Sample.world (Sample.control RpcTypes.ActionObservableSubscribe 4 "1") σ1).1.1
     = [{| subscriber := ClientSubscriber 4 1 0; closed := false |}].
Proof.
  destruct (plain_stream_subscribed_on_request Sample.world Sample.world 4 "c1!stream"
              match (loadTypes Sample.world (this Sample.start) "c1" "stream").2 with
              | Return types => types
              | Throw _ => Sample.addTypes
              end
              {| classOf := Some Sample.Observable; payload := VUndefined |} false
              (set_this Sample.start
                 (loadTypes Sample.world (this Sample.start) "c1" "stream").1)
              "1" 1 eq_refl eq_refl eq_refl eq_refl eq_refl)
    as (_ & H1 & _ & _ & _ & _ & H2 & _).
  split; [exact H1 | exact H2].
Defined.

(** ** Call ids that are used once *)

Lemma fmap_alter_same {A B} (g : A -> B) (f : A -> A) (i : nat) (l : list A) :
  (forall x, g (f x) = g x) -> g <$> alter f i l = g <$> l.
Proof.
  intros Hf. revert i. induction l as [| x l IH]; intros [| i]; [done.. | |].
  - change (g (f x) :: (g <$> l) = g x :: (g <$> l)). by rewrite Hf.
  - change (g x :: (g <$> alter f i l) = g x :: (g <$> l)). by rewrite IH.
Qed.

Lemma handle_calls c message σ :
  pendings (handle c message σ).1.1 = pendings σ
  /\ br_id <$> bridges (handle c message σ).1.1 = br_id <$> bridges σ.
Proof.
  unfold handle.
  destruct (msg_type message); try done.
  - destruct (observables (this σ) !! msg_id message) as [entry |]; [| done].
    destruct (parseBody_rpcActionObservableSubscribeId c _) as [body_id | e]; [| done].
    by destruct (subscriptions entry !! body_id).
  - destruct (observables (this σ) !! msg_id message) as [entry |]; [| done].
    destruct (parseBody_rpcActionObservableSubscribeId c _) as [body_id | e]; [| done].
    destruct (subscriptions entry !! body_id) as [subObj |]; [| done].
    unfold client_unsubscribe, rx_unsubscribe.
    by destruct (subObjs σ !! subObj ≫= sub).
  - by destruct (observableSubjects (this σ) !! msg_id message).
  - destruct (collections (this σ) !! msg_id message) as [e |]; [| done].
    unfold collection_unsubscribe, rx_unsubscribe. simpl.
    split; [done |]. by apply fmap_alter_same.
Qed.

Lemma handleAction_resume_calls c p σ :
  pendings (handleAction_resume c p σ).1 = pendings σ
  /\ (br_id <$> bridges (handleAction_resume c p σ).1 = br_id <$> bridges σ
      \/ br_id <$> bridges (handleAction_resume c p σ).1
         = (br_id <$> bridges σ) ++ [pe_id p]).
Proof.
  unfold handleAction_resume.
  destruct (pe_settled p) as [result | e]; [| auto].
  destruct (instanceof result "EntitySubject"); [auto |].
  destruct (instanceof result "Collection").
  { destruct (sendThrows c _); simpl; [auto |].
    split; [done |]. right. by rewrite fmap_app. }
  destruct (instanceof result "Observable"); [| auto].
  destruct (instanceof result "Subject"); simpl; auto.
Qed.

Lemma handleAction_begin_pending c message this this' written p :
  handleAction_begin c message this = (this', written, Return (Some p)) ->
  pe_id p = msg_id message /\ pe_resumed p = false.
Proof.
  unfold handleAction_begin.
  destruct (prepare c message this) as [this1 [call | e]]; [| done].
  destruct (negb _); [done |].
  destruct (callMethod c _ _ _); [| done].
  by intros [= <- <- <-].
Qed.

Lemma actionIds_app turns1 turns2 :
  actionIds (turns1 ++ turns2) = actionIds turns1 ++ actionIds turns2.
Proof. unfold actionIds. by rewrite omap_app. Qed.

Lemma lookup_snoc_cases {A} (l : list A) (x y : A) (i : nat) :
  (l ++ [x]) !! i = Some y -> l !! i = Some y \/ (i = length l /\ y = x).
Proof. intros H. apply lookup_snoc_Some in H as [[_ H] | [-> <-]]; auto. Qed.

Lemma rx_delivered_calls k n σ :
  pendings (rx_delivered k n σ) = pendings σ
  /\ bridges (rx_delivered k n σ) = bridges σ.
Proof. unfold rx_delivered. by destruct (isTerminal n). Qed.

Lemma client_subscribe_reentered_calls c id body_id entry upto inner σ :
  pendings (client_subscribe_reentered c id body_id entry upto inner σ).1 = pendings σ
  /\ br_id <$> bridges (client_subscribe_reentered c id body_id entry upto inner σ).1
     = br_id <$> bridges σ.
Proof.
  unfold client_subscribe_reentered.
  pose proof (handle_calls c inner (client_subscribe_open c id body_id entry σ)) as H.
  by destruct (handle c inner _) as [[σ2 w] r].
Qed.

(** One turn keeps [calledOnce], provided an [Action] message with this id
    is not received a second time. *)
Lemma step_calledOnce cid c i σ processed :
  calledOnce cid σ processed ->
  (cid ∈ actionIds [(c, i)] -> cid ∉ actionIds processed) ->
  calledOnce cid (step c i σ).1 (processed ++ [(c, i)]).
Proof.
  intros (J1 & J2 & J3 & J4) Hnew.
  assert (Hsame : forall σ' : Sys,
             pendings σ' = pendings σ ->
             br_id <$> bridges σ' = br_id <$> bridges σ ->
             calledOnce cid σ' (processed ++ [(c, i)])).
  { intros σ' Hp Hb. unfold calledOnce. rewrite Hp, Hb. split_and!; try done.
    intros Hn. apply J1. intros Hin. apply Hn. rewrite actionIds_app.
    apply elem_of_app. by left. }
  destruct i as [message | p | k n | k event | b | message upto inner]; simpl.
  - unfold receive.
    destruct (msg_type message) eqn:Hty;
      try solve [pose proof (handle_calls c message σ) as [Hp Hb];
                 destruct (handle c message σ) as [[σ' w] r]; by apply Hsame].
    + unfold handleActionTypes.
      destruct (parseBody_rpcActionType c _) as [[controller method] | e];
        [| by apply Hsame].
      destruct (loadTypes c (this σ) controller method) as [this' [types | e]];
        by apply Hsame.
    + pose proof (fun this' w p => handleAction_begin_pending c message (this σ) this' w p)
        as Hpe.
      destruct (handleAction_begin c message (this σ)) as [[this' w] [[p |] | e]];
        [| by apply Hsame..].
      destruct (Hpe this' w p eq_refl) as [Hid Hres].
      assert (Hids : actionIds [(c, Receive message)] = [msg_id message]).
      { unfold actionIds. simpl. by rewrite decide_True. }
      unfold calledOnce. simpl. rewrite fmap_app, actionIds_app, Hids. simpl.
      split_and!.
      * intros Hn Hin. apply elem_of_app in Hin as [Hin | Hin].
        -- apply J1; [| done]. intros H. apply Hn, elem_of_app. by left.
        -- apply list_elem_of_singleton in Hin. apply Hn, elem_of_app. right.
           rewrite Hid in Hin. subst. by left.
      * intros p1 p2 H1 H2.
        assert (Hfresh : cid = msg_id message -> cid ∉ pe_id <$> pendings σ).
        { intros ->. apply J1, Hnew. rewrite Hids. by left. }
        apply lookup_snoc_cases in H1 as [H1 | [-> H1]];
          apply lookup_snoc_cases in H2 as [H2 | [-> H2]].
        -- by apply J2.
        -- exfalso. apply Hfresh; [congruence |]. by eapply list_elem_of_lookup_2.
        -- exfalso. apply Hfresh; [congruence |]. by eapply list_elem_of_lookup_2.
        -- done.
      * intros Hin. destruct (J3 Hin) as (p0 & pe & Hp0 & Hpid & Hpres).
        exists p0, pe. split; [by apply lookup_app_l_Some | done].
      * done.
  - destruct (pendings σ !! p) as [pe |] eqn:Hpe; [| by apply Hsame].
    destruct (pe_resumed pe) eqn:Hres; [by apply Hsame |].
    pose proof (handleAction_resume_calls c pe
                  (set_pendings σ (alter set_resumed p (pendings σ)))) as [Hp Hb].
    destruct (handleAction_resume c pe _) as [σ' w]. simpl in *.
    assert (Hpids : pe_id <$> pendings σ' = pe_id <$> pendings σ).
    { rewrite Hp. by apply fmap_alter_same. }
    assert (Hresumed : forall p0 pe0, pendings σ !! p0 = Some pe0 -> pe_resumed pe0 = true ->
                         exists pe1, pendings σ' !! p0 = Some pe1 /\ pe_id pe1 = pe_id pe0
                                     /\ pe_resumed pe1 = true).
    { intros p0 pe0 Hp0 Hr0. rewrite Hp.
      destruct (decide (p = p0)) as [-> | Hne].
      - rewrite list_lookup_alter_eq, Hp0. by eexists.
      - rewrite list_lookup_alter_ne by done. by eexists. }
    unfold calledOnce. rewrite Hpids. split_and!.
    + intros Hn. apply J1. intros Hin. apply Hn. rewrite actionIds_app.
      apply elem_of_app. by left.
    + done.
    + intros Hin. destruct Hb as [Hb | Hb]; rewrite Hb in Hin.
      * destruct (J3 Hin) as (p0 & pe0 & Hp0 & Hpid & Hpres).
        destruct (Hresumed _ _ Hp0 Hpres) as (pe1 & ? & ? & ?).
        exists p0, pe1. split_and!; congruence.
      * apply elem_of_app in Hin as [Hin | Hin].
        -- destruct (J3 Hin) as (p0 & pe0 & Hp0 & Hpid & Hpres).
           destruct (Hresumed _ _ Hp0 Hpres) as (pe1 & ? & ? & ?).
           exists p0, pe1. split_and!; congruence.
        -- apply list_elem_of_singleton in Hin. exists p, (set_resumed pe).
           rewrite Hp, list_lookup_alter_eq, Hpe. by split_and!.
    + intros b1 b2 H1 H2. destruct Hb as [Hb | Hb]; rewrite Hb in H1, H2; [by apply J4 |].
      assert (Hold : pe_id pe = cid -> cid ∉ br_id <$> bridges σ).
      { intros Hid Hin. destruct (J3 Hin) as (p0 & pe0 & Hp0 & Hpid & Hpres).
        assert (p0 = p) as ->.
        { apply J2; rewrite list_lookup_fmap; [by rewrite Hp0; simpl; rewrite Hpid
                                              | by rewrite Hpe; simpl; rewrite Hid]. }
        congruence. }
      apply lookup_snoc_cases in H1 as [H1 | [-> H1]];
        apply lookup_snoc_cases in H2 as [H2 | [-> H2]].
      * by apply J4.
      * exfalso. apply Hold; [congruence |]. by eapply list_elem_of_lookup_2.
      * exfalso. apply Hold; [congruence |]. by eapply list_elem_of_lookup_2.
      * done.
  - destruct (rxSubscriptions σ !! k) as [s |]; [| by apply Hsame].
    destruct (delivers c (closed s) n); [| by apply Hsame].
    destruct (rx_delivered_calls k n σ) as [Hp Hb]. apply Hsame; [done |].
    simpl. by rewrite Hb.
  - destruct (rxSubscriptions σ !! k) as [s |]; [| by apply Hsame].
    destruct (subscriber s); try by apply Hsame.
    destruct (deliversEvent c (closed s) event); [| by apply Hsame].
    apply Hsame; [done |]. simpl. by apply fmap_alter_same.
  - destruct (bridges σ !! b) as [br |]; [| by apply Hsame].
    destruct (taskScheduled br); [| by apply Hsame].
    apply Hsame; [done |]. simpl. by apply fmap_alter_same.
  - destruct (subscribing c message σ) as [[body_id entry] |]; [| by apply Hsame].
    destruct (client_subscribe_reentered_calls c (msg_id message) body_id entry
                upto inner σ) as [Hp Hb].
    by apply Hsame.
Qed.

Lemma calledOnce_new cid controllers : calledOnce cid (new_Sys controllers) [].
Proof.
  unfold calledOnce. simpl. split_and!.
  - intros _ H. by apply elem_of_nil in H.
  - intros p1 p2 H. by rewrite lookup_nil in H.
  - intros H. by apply elem_of_nil in H.
  - intros b1 b2 H. by rewrite lookup_nil in H.
Qed.

Lemma NoDup_actionIds_step processed c i turns cid :
  NoDup (actionIds (processed ++ (c, i) :: turns)) ->
  cid ∈ actionIds [(c, i)] -> cid ∉ actionIds processed.
Proof.
  change ((c, i) :: turns) with ([(c, i)] ++ turns).
  rewrite !actionIds_app. intros Hnd Hin Hin'.
  apply NoDup_app in Hnd as (_ & Hdisj & _).
  apply (Hdisj cid Hin'). apply elem_of_app. by left.
Qed.

Lemma run_calledOnce cid turns σ processed :
  calledOnce cid σ processed ->
  NoDup (actionIds (processed ++ turns)) ->
  calledOnce cid (run turns σ).1 (processed ++ turns).
Proof.
  revert σ processed. induction turns as [| [c i] turns IH]; intros σ processed HJ Hnd.
  { by rewrite app_nil_r. }
  rewrite run_cons. cbn [fst].
  replace (processed ++ (c, i) :: turns) with ((processed ++ [(c, i)]) ++ turns)
    by (by rewrite <- app_assoc).
  apply IH.
  - apply step_calledOnce; [done |]. by eapply NoDup_actionIds_step.
  - by rewrite <- app_assoc.
Qed.

(** With call ids used once, a bridge with [unsubscribed] set is the only
    bridge of its call id, so no change composite with that id is written. *)
Lemma run_no_change_for_id cid turns σ processed b br :
  calledOnce cid σ processed ->
  bridges σ !! b = Some br -> br_id br = cid -> unsubscribed br = true ->
  NoDup (actionIds (processed ++ turns)) ->
  forall o f, Sent o f ∈ (run turns σ).2 ->
              frame_type f = RpcTypes.ResponseActionCollectionChange ->
              frame_id f <> cid.
Proof.
  revert σ processed br.
  induction turns as [| [c i] turns IH]; intros σ processed br HJ Hb Hid Hu Hnd o f Hin Hty.
  { by apply elem_of_nil in Hin. }
  rewrite run_cons in Hin. cbn [snd] in Hin.
  apply elem_of_app in Hin as [Hin | Hin].
  - destruct (step_sent c i σ o f Hin)
      as [[_ Hne] | [(j & _ & _ & σ' & s & n & Hn) | [H | H]]].
    + done.
    + apply onNotification_type in Hn. rewrite Hty in Hn.
      destruct Hn as [? | [? | ?]]; discriminate.
    + destruct H as (k' & n & s & _ & _ & _ & _ & Hn).
      apply onNotification_type in Hn. rewrite Hty in Hn.
      destruct Hn as [? | [? | ?]]; discriminate.
    + destruct H as (b' & br' & _ & _ & Hb' & _ & Hf).
      intros Hcid.
      pose proof (eventsCallback_frame c br' _ f Hf) as [Hfid _].
      destruct HJ as (_ & _ & _ & J4).
      assert (b' = b) as ->.
      { apply J4; rewrite list_lookup_fmap; [rewrite Hb' | rewrite Hb]; simpl; congruence. }
      rewrite Hb in Hb'. injection Hb' as <-.
      rewrite eventsCallback_unsubscribed in Hf by done. by apply elem_of_nil in Hf.
  - pose proof (step_later c i σ) as (_ & _ & Hbr).
    destruct (Hbr _ _ Hb) as (br1 & Hb1 & Hid1 & _ & Hu1).
    eapply (IH (step c i σ).1 (processed ++ [(c, i)]) br1); try done.
    + apply step_calledOnce; [done |]. by eapply NoDup_actionIds_step.
    + congruence.
    + auto.
    + by rewrite <- app_assoc.
Qed.

(** X12: when no two [Action] messages of a run carry the same call id,
    then after [ResponseActionCollectionUnsubscribe] has found the entry of
    call id [cid], no composite [ResponseActionCollectionChange] with id
    [cid] is written for the rest of the run, whoever writes. *)
Theorem no_change_on_the_wire_after_collection_unsubscribe
    controllers turns0 c message e turns :
  let σ := (run turns0 (new_Sys controllers)).1 in
  msg_type message = RpcTypes.ResponseActionCollectionUnsubscribe ->
  collections (this σ) !! msg_id message = Some e ->
  NoDup (actionIds (turns0 ++ turns)) ->
  forall o f,
    Sent o f ∈ (run turns (handle c message σ).1.1).2 ->
    frame_type f = RpcTypes.ResponseActionCollectionChange ->
    frame_id f <> msg_id message.
Proof.
  intros σ Hty He Hnd o f Hin Hf.
  assert (Hreach : reachable σ) by (by exists controllers, turns0).
  destruct (no_change_after_collection_unsubscribe σ c message e Hreach Hty He)
    as (_ & (br & Hb & Hid & Hu) & _).
  assert (Hstep : (step c (Receive message) σ).1 = (handle c message σ).1.1).
  { simpl. unfold receive. rewrite Hty. by destruct (handle c message σ) as [[σ' w] r]. }
  assert (Hids : actionIds [(c, Receive message)] = []).
  { unfold actionIds. simpl. rewrite decide_False; [done |]. by rewrite Hty. }
  assert (Hnd0 : NoDup (actionIds ([] ++ turns0))).
  { rewrite actionIds_app in Hnd. by apply NoDup_app in Hnd as (? & _). }
  pose proof (run_calledOnce (msg_id message) turns0 (new_Sys controllers) []
                (calledOnce_new _ _) Hnd0) as HJ.
  simpl in HJ. fold σ in HJ.
  assert (HJ' : calledOnce (msg_id message) (handle c message σ).1.1
                  (turns0 ++ [(c, Receive message)])).
  { rewrite <- Hstep. apply step_calledOnce; [done |].
    rewrite Hids. intros H. by apply elem_of_nil in H. }
  eapply (run_no_change_for_id (msg_id message) turns _ _ _ br HJ' Hb Hid Hu); try done.
  rewrite <- app_assoc, !actionIds_app, Hids. simpl.
  by rewrite <- actionIds_app.
Qed.

Lemma no_change_on_the_wire_after_collection_unsubscribe_witness :
  Forall (fun e => match e with
                   | Sent _ f =>
                       frame_type f = RpcTypes.ResponseActionCollectionChange ->
                       frame_id f <> 9
                   | _ => True
                   end)
    (run [(Sample.racing,
           EmitEvent 0%nat {| ev_type := "remove"; ev_items := []; ev_ids := [VStr "x"] |});
          (Sample.racing, Microtask 0%nat);
          (Sample.world, Receive (Sample.action 10 "c1 list"));
          (Sample.world, Resume 1%nat)]
       (handle Sample.world
          (Sample.control RpcTypes.ResponseActionCollectionUnsubscribe 9 "")
          SampleRuns.collectionOpen).1.1).2.
Proof.
  apply Forall_forall. intros [| o f | |] Hin; try exact I. revert Hin.
  apply (no_change_on_the_wire_after_collection_unsubscribe {["c1" := Sample.C1]}
           [(Sample.world, Receive (Sample.action 9 "c1 list"));
            (Sample.world, Resume 0%nat);
            (Sample.world,
             EmitEvent 0%nat {| ev_type := "add"; ev_items := [VStr "z"]; ev_ids := [] |});
            (Sample.world,
             EmitEvent 0%nat {| ev_type := "set"; ev_items := []; ev_ids := [] |})]
           Sample.world
           (Sample.control RpcTypes.ResponseActionCollectionUnsubscribe 9 "")
           {| ce_bridge := 0; ce_eventsSub := 0 |}).
  - reflexivity.
  - reflexivity.
  - vm_compute. apply NoDup_cons. split; [| apply NoDup_singleton].
    intros H. apply list_elem_of_singleton in H. discriminate H.
Defined.

(** ** The tables list what is active *)

(** X13: the table [observables] lists active subscriptions only.  At the end
    of every turn, also of one in which [handle] was entered again while
    [subscribe] was running, each subscription id of each entry leads to an
    object with [active: true] whose [sub] is assigned, and assigned to the
    subscription whose callbacks were made for this call id, this
    subscription id and this object.  (The id stays in the table when the
    source ends: the subscription may be closed.) *)
Theorem subscriptions_in_table_are_active (σ : Sys) cid entry subID subObj :
  reachable σ ->
  observables (this σ) !! cid = Some entry ->
  subscriptions entry !! subID = Some subObj ->
  exists k s,
    subObjs σ !! subObj = Some {| active := true; sub := Some k |}
    /\ rxSubscriptions σ !! k = Some s
    /\ subscriber s = ClientSubscriber cid subID subObj.
Proof.
  intros Hreach He Hs.
  destruct (reachable_consistent σ Hreach) as (Hlive & _).
  destruct (Hlive _ _ _ _ He Hs) as ([a o] & k & s & Ho & Ha & Hk & Hsk & Hcb); [done |].
  simpl in *. subst. by exists k, s.
Qed.

Lemma subscriptions_in_table_are_active_witness :
  exists k s,
    subObjs SampleRuns.streamEnded !! 0%nat = Some {| active := true; sub := Some k |}
    /\ rxSubscriptions SampleRuns.streamEnded !! k = Some s
    /\ subscriber s = ClientSubscriber 4 1 0.
Proof.
  apply (subscriptions_in_table_are_active SampleRuns.streamEnded 4
           {| observable := {| classOf := Some Sample.Observable; payload := VUndefined |};
              subscriptions := {[1 := 0%nat]};
              oe_observableNextSchema :=
                registerProperty rpcActionObservableSubscribeId
                  {| name := "v"; type := "string"; isOptional := true;
                     classType := None; templateArgs := [] |} |}
           1 0%nat).
  - apply (reachable_run [(Sample.world, Emit 0%nat OnComplete)]).
    eexists _, _. reflexivity.
  - vm_compute. reflexivity.
  - reflexivity.
Defined.

(** ** The forward of a subject has no flag of its own *)

Lemma closed_subject_later σ σ' k id :
  (exists s, rxSubscriptions σ !! k = Some s /\ closed s = true
             /\ subscriber s = SubjectSubscriber id) ->
  sys_later σ σ' ->
  exists s, rxSubscriptions σ' !! k = Some s /\ closed s = true
            /\ subscriber s = SubjectSubscriber id.
Proof.
  intros (s & Hs & Hc & Hcb) (_ & Hrx & _).
  destruct (Hrx _ _ Hs) as (s' & Hs' & Hcb' & Hc').
  exists s'. split_and!; [done | auto | congruence].
Qed.

Lemma closed_subject_silent turns σ k id :
  (exists s, rxSubscriptions σ !! k = Some s /\ closed s = true
             /\ subscriber s = SubjectSubscriber id) ->
  (forall c i, (c, i) ∈ turns -> stopsOnUnsubscribe c) ->
  framesBy (BySubscription k) (run turns σ).2 = [].
Proof.
  revert σ. induction turns as [| [c i] turns IH]; intros σ Hdead Hpol; [done |].
  rewrite run_cons. cbn [snd]. rewrite framesBy_app.
  rewrite IH; [| eapply closed_subject_later; [done | apply step_later]
               | intros c' i' H; eapply Hpol; by right].
  rewrite app_nil_r. apply framesBy_nil. intros f Hf.
  destruct Hdead as (s & Hs & Hc & Hcb).
  destruct (step_sent c i σ _ f Hf)
    as [[? _] | [(j & [= ->] & Hj & _) | [H | (? & ? & _ & ? & _)]]];
    try done.
  - apply lookup_lt_Some in Hs. lia.
  - destruct H as (k' & n & s' & -> & [= <-] & Hs' & Hd & Hin).
    rewrite Hs in Hs'. simplify_eq. rewrite Hc in Hd.
    rewrite (Hpol c (Emit k n)) in Hd by left. done.
Qed.

(** X14: [ActionObservableSubjectUnsubscribe] for a call id with a subject
    forward closes the rxjs subscription [k] made in [handleAction] and does
    nothing else.  After it, the callbacks of [k] write no frame in any run
    in which rxjs hands nothing to a closed subscription.  The callbacks
    themselves test no flag: a notification that does reach them afterwards
    is written to the connection, with the call id as id in the body. *)
Theorem subject_unsubscribe_closes_forward (σ : Sys) c message k :
  reachable σ ->
  msg_type message = RpcTypes.ActionObservableSubjectUnsubscribe ->
  observableSubjects (this σ) !! msg_id message = Some k ->
  let σ' := (handle c message σ).1.1 in
  rxSubscriptions σ' !! k
  = Some {| subscriber := SubjectSubscriber (msg_id message); closed := true |}
  /\ (handle c message σ).1.2 = []
  /\ (forall turns,
        (forall c' i, (c', i) ∈ turns -> stopsOnUnsubscribe c') ->
        framesBy (BySubscription k) (run turns σ').2 = [])
  /\ (forall c' n,
        delivers c' true n = true ->
        framesBy (BySubscription k) (run [(c', Emit k n)] σ').2
        = onNotification σ' (SubjectSubscriber (msg_id message)) n
        /\ length (onNotification σ' (SubjectSubscriber (msg_id message)) n) = 1%nat).
Proof.
  intros Hreach Hty Hk σ'.
  destruct (reachable_consistent σ Hreach) as (_ & Hsubj & _).
  destruct (Hsubj _ _ Hk) as ([cb cl] & Hs & Hcb). simpl in Hcb. subst cb.
  assert (Hσ' : σ' = rx_unsubscribe k σ).
  { subst σ'. unfold handle. by rewrite Hty, Hk. }
  assert (Hs' : rxSubscriptions σ' !! k
                = Some {| subscriber := SubjectSubscriber (msg_id message);
                          closed := true |}).
  { rewrite Hσ'. unfold rx_unsubscribe. simpl.
    by rewrite list_lookup_alter_eq, Hs. }
  split_and!.
  - done.
  - unfold handle. by rewrite Hty, Hk.
  - intros turns Hpol. apply closed_subject_silent with (id := msg_id message); [| done].
    eexists. by split_and!.
  - intros c' n Hd. cbn [run step]. rewrite Hs'. cbn [closed subscriber]. rewrite Hd.
    cbn [snd]. rewrite app_nil_r. split.
    + generalize (onNotification σ' (SubjectSubscriber (msg_id message)) n).
      intros l. induction l as [| f l IH]; [done |].
      rewrite fmap_cons, framesBy_cons. cbn. rewrite decide_True by done.
      by rewrite <- IH at 2.
    + by destruct n.
Qed.

Lemma subject_unsubscribe_closes_forward_witness :
  rxSubscriptions SampleSubject.unsubscribed !! 0%nat
  = Some {| subscriber := SubjectSubscriber 5; closed := true |}
  /\ framesBy (BySubscription 0)
       (run [(Sample.world, Emit 0 (OnNext (VStr "late")))] SampleSubject.unsubscribed).2
     = []
  /\ framesBy (BySubscription 0)
       (run [(Sample.racing, Emit 0 (OnNext (VStr "late")))] SampleSubject.unsubscribed).2
     = [Reply 5 RpcTypes.ResponseActionObservableNext (BodyNext 5 (VStr "late"))].
Proof.
  destruct (subject_unsubscribe_closes_forward SampleSubject.forwarded Sample.world
              SampleSubject.unsubscribe 0%nat) as (H1 & _ & H3 & H4).
  - eexists _, _. reflexivity.
  - reflexivity.
  - vm_compute. reflexivity.
  - split_and!.
    + exact H1.
    + apply H3. intros c' i Hin. apply elem_of_cons in Hin as [[= -> _] | Hin];
        [| by apply elem_of_nil in Hin].
      intros n. reflexivity.
    + exact (proj1 (H4 Sample.racing (OnNext (VStr "late")) eq_refl)).
Defined.

(** ** Every frame answers a message *)

Lemma onNotification_id σ s n f :
  f ∈ onNotification σ s n -> subscriber_id s = Some (frame_id f).
Proof.
  destruct s, n; simpl; intros H;
    try (destruct (subObjs σ !! subObj) as [o |]; [destruct (negb (active o)) |]);
    elem_cases H; by subst.
Qed.

Lemma notifications_id o σ s ns o' f :
  Sent o' f ∈ (Sent o <$> flat_map (onNotification σ s) ns) ->
  subscriber_id s = Some (frame_id f).
Proof.
  intros H. apply notifications_sent in H as [_ [n Hn]]. by eapply onNotification_id.
Qed.

Lemma try_send_id c id f0 o f :
  frame_id f0 = id -> Sent o f ∈ try_send c id f0 -> frame_id f = id.
Proof.
  unfold try_send, response_error. intros Hid H.
  destruct (sendThrows c f0); elem_cases H; by simplify_eq.
Qed.

Lemma handle_frame_id c message σ o f :
  Sent o f ∈ (handle c message σ).1.2 -> frame_id f = msg_id message.
Proof.
  unfold handle, response_error. intros H.
  destruct (msg_type message); simpl in H; try (by elem_cases H).
  - destruct (observables (this σ) !! msg_id message) as [entry |];
      [| elem_cases H; by simplify_eq].
    destruct (parseBody_rpcActionObservableSubscribeId c _) as [body_id | e];
      [| by elem_cases H].
    destruct (subscriptions entry !! body_id); [elem_cases H; by simplify_eq |].
    unfold client_subscribe, rx_subscribe in H. simpl in H.
    apply notifications_id in H. by injection H.
  - destruct (observables (this σ) !! msg_id message) as [entry |];
      [| elem_cases H; by simplify_eq].
    destruct (parseBody_rpcActionObservableSubscribeId c _) as [body_id | e];
      [| by elem_cases H].
    destruct (subscriptions entry !! body_id); elem_cases H; by simplify_eq.
  - destruct (observableSubjects (this σ) !! msg_id message);
      elem_cases H; by simplify_eq.
  - destruct (collections (this σ) !! msg_id message) as [e |];
      [| elem_cases H; by simplify_eq].
    unfold collection_unsubscribe in H. simpl in H.
    destruct (bridges σ !! ce_bridge e); elem_cases H; by simplify_eq.
Qed.

Lemma handleAction_begin_frame_id c message this o f :
  Sent o f ∈ (handleAction_begin c message this).1.2 -> frame_id f = msg_id message.
Proof.
  unfold handleAction_begin, response_error. intros H.
  destruct (prepare c message this) as [this' [call | e]]; simpl in H; [| by elem_cases H].
  destruct (negb _); simpl in H; [elem_cases H; by simplify_eq |].
  destruct (callMethod c _ _ _); simpl in H; elem_cases H; by simplify_eq.
Qed.

Lemma handleAction_begin_pending_id c message this p :
  (handleAction_begin c message this).2 = Return (Some p) -> pe_id p = msg_id message.
Proof.
  unfold handleAction_begin.
  destruct (prepare c message this) as [this' [call | e]]; simpl; [| done].
  destruct (negb _); simpl; [done |].
  destruct (callMethod c _ _ _); simpl; [| done]. by intros [= <-].
Qed.

Lemma handleAction_resume_frame_id c p σ o f :
  Sent o f ∈ (handleAction_resume c p σ).2 -> frame_id f = pe_id p.
Proof.
  unfold handleAction_resume, response_error. intros H.
  destruct (pe_settled p) as [result | e]; [| elem_cases H; by simplify_eq].
  destruct (instanceof result "EntitySubject").
  { by apply try_send_id in H. }
  destruct (instanceof result "Collection").
  { destruct (sendThrows c _); simpl in H; elem_cases H; by simplify_eq. }
  destruct (instanceof result "Observable").
  2: { by apply try_send_id in H. }
  destruct (instanceof result "Subject"); simpl in H.
  - apply elem_of_app in H as [H | H].
    + unfold rx_subscribe in H. simpl in H.
      apply notifications_id in H. by injection H.
    + by apply try_send_id in H.
  - by apply try_send_id in H.
Qed.

Lemma handle_subscribers c message σ :
  subscriber <$> rxSubscriptions (handle c message σ).1.1 = subscriber <$> rxSubscriptions σ
  \/ exists body_id subObj,
       subscriber <$> rxSubscriptions (handle c message σ).1.1
       = (subscriber <$> rxSubscriptions σ)
           ++ [ClientSubscriber (msg_id message) body_id subObj].
Proof.
  unfold handle.
  destruct (msg_type message); auto.
  - destruct (observables (this σ) !! msg_id message) as [entry |]; [| auto].
    destruct (parseBody_rpcActionObservableSubscribeId c _) as [body_id | e]; [| auto].
    destruct (subscriptions entry !! body_id); [auto |].
    right. exists body_id, (length (subObjs σ)).
    unfold client_subscribe, rx_subscribe. simpl. by rewrite fmap_app.
  - destruct (observables (this σ) !! msg_id message) as [entry |]; [| auto].
    destruct (parseBody_rpcActionObservableSubscribeId c _) as [body_id | e]; [| auto].
    destruct (subscriptions entry !! body_id) as [subObj |]; [| auto].
    left. unfold client_unsubscribe, rx_unsubscribe.
    destruct (subObjs σ !! subObj ≫= sub); simpl; [| done].
    by apply fmap_alter_same.
  - destruct (observableSubjects (this σ) !! msg_id message); [| auto].
    left. unfold rx_unsubscribe. simpl. by apply fmap_alter_same.
  - destruct (collections (this σ) !! msg_id message) as [e |]; [| auto].
    left. unfold collection_unsubscribe, rx_unsubscribe. simpl.
    by apply fmap_alter_same.
Qed.

Lemma handleAction_resume_subscribers c p σ :
  let before := subscriber <$> rxSubscriptions σ in
  let after := subscriber <$> rxSubscriptions (handleAction_resume c p σ).1 in
  after = before \/ after = before ++ [SubjectSubscriber (pe_id p)]
  \/ exists b, after = before ++ [EventsSubscriber b].
Proof.
  unfold handleAction_resume.
  destruct (pe_settled p) as [result | e]; [| auto].
  destruct (instanceof result "EntitySubject"); [auto |].
  destruct (instanceof result "Collection").
  { destruct (sendThrows c _); simpl; [auto |].
    right. right. eexists. by rewrite fmap_app. }
  destruct (instanceof result "Observable"); [| auto].
  destruct (instanceof result "Subject"); simpl; [| auto].
  right. left. by rewrite fmap_app.
Qed.

Lemma idsFrom_same (S : Z -> Prop) σ σ' :
  idsFrom S σ ->
  subscriber <$> rxSubscriptions σ' = subscriber <$> rxSubscriptions σ ->
  br_id <$> bridges σ' = br_id <$> bridges σ ->
  pe_id <$> pendings σ' = pe_id <$> pendings σ ->
  idsFrom S σ'.
Proof. unfold idsFrom. by intros ? -> -> ->. Qed.

Lemma idsFrom_impl (S S' : Z -> Prop) σ :
  (forall id, S id -> S' id) -> idsFrom S σ -> idsFrom S' σ.
Proof.
  intros HS (H1 & H2 & H3). split_and!.
  - eapply Forall_impl; [exact H1 |].
    intros s. simpl. destruct (subscriber_id s); simpl; auto.
  - eapply Forall_impl; [exact H2 | exact HS].
  - eapply Forall_impl; [exact H3 | exact HS].
Qed.

Lemma handle_ids (S : Z -> Prop) c message σ :
  idsFrom S σ -> S (msg_id message) -> idsFrom S (handle c message σ).1.1.
Proof.
  intros (H1 & H2 & H3) Hid.
  destruct (handle_calls c message σ) as [Hp Hb].
  unfold idsFrom. rewrite Hp, Hb. split_and!; [| done ..].
  destruct (handle_subscribers c message σ) as [-> | (body_id & subObj & ->)]; [done |].
  apply Forall_app. split; [done |]. by apply Forall_singleton.
Qed.

Lemma handleAction_resume_ids (S : Z -> Prop) c p σ :
  idsFrom S σ -> S (pe_id p) -> idsFrom S (handleAction_resume c p σ).1.
Proof.
  intros (H1 & H2 & H3) Hid.
  destruct (handleAction_resume_calls c p σ) as [Hp Hb].
  unfold idsFrom. rewrite Hp. split_and!; [| | done].
  - destruct (handleAction_resume_subscribers c p σ) as [-> | [-> | [b ->]]];
      [done | |]; apply Forall_app; split; try done; by apply Forall_singleton.
  - destruct Hb as [-> | ->]; [done |].
    apply Forall_app. split; [done |]. by apply Forall_singleton.
Qed.

(** One turn: the ids kept stay among the received ones, and every frame of
    the turn carries one of them. *)
Lemma step_ids (S : Z -> Prop) c i σ :
  idsFrom S σ ->
  (forall id, id ∈ receivedIds [(c, i)] -> S id) ->
  idsFrom S (step c i σ).1
  /\ forall o f, Sent o f ∈ (step c i σ).2 -> S (frame_id f).
Proof.
  intros Hids Hrecv'. pose proof Hids as (H1 & H2 & H3).
  destruct i as [message | p | k n | k event | b | message upto inner]; simpl.
  - assert (Hrecv : S (msg_id message)) by (apply Hrecv'; by left).
    unfold receive.
    assert (Hother :
              idsFrom S (let '(σ', written, r) := handle c message σ in
                         (σ', written ++ escaped r)).1
              /\ forall o f,
                   Sent o f ∈ (let '(σ', written, r) := handle c message σ in
                               (σ', written ++ escaped r)).2 ->
                   S (frame_id f)).
    { pose proof (handle_ids S c message σ Hids Hrecv) as Hh.
      pose proof (handle_frame_id c message σ) as Hf.
      destruct (handle c message σ) as [[σ' w] r]. cbn [fst snd] in *.
      split; [done |]. intros o f H.
      apply elem_of_app in H as [H | H]; [by rewrite (Hf _ _ H) |].
      destruct r; simpl in H; by elem_cases H. }
    destruct (msg_type message) eqn:Hty; try exact Hother; clear Hother.
    + unfold handleActionTypes.
      destruct (parseBody_rpcActionType c _) as [[controller method] | e]; simpl;
        [| split; [done |]; intros o f H; by elem_cases H].
      destruct (loadTypes c (this σ) controller method) as [this' [types | e]];
        simpl; (split; [done |]); intros o f H; elem_cases H; by simplify_eq.
    + pose proof (handleAction_begin_frame_id c message (this σ)) as Hf.
      pose proof (handleAction_begin_pending_id c message (this σ)) as Hp.
      destruct (handleAction_begin c message (this σ)) as [[this' w] [[p |] | e]];
        simpl in *.
      * split; [| intros o f H; by rewrite (Hf _ _ H)].
        unfold idsFrom. simpl. rewrite fmap_app. split_and!; [done | done |].
        apply Forall_app. split; [done |]. apply Forall_singleton.
        by rewrite (Hp p eq_refl).
      * split; [done |]. intros o f H. rewrite app_nil_r in H. by rewrite (Hf _ _ H).
      * split; [done |]. intros o f H. apply elem_of_app in H as [H | H];
          [by rewrite (Hf _ _ H) | simpl in H; by elem_cases H].
  - destruct (pendings σ !! p) as [pe |] eqn:Hpe;
      [| split; [done |]; intros o f H; by elem_cases H].
    destruct (pe_resumed pe); [split; [done |]; intros o f H; by elem_cases H |].
    assert (Hid : S (pe_id pe)).
    { eapply Forall_lookup_1; [exact H3 |]. by rewrite list_lookup_fmap, Hpe. }
    split.
    + apply handleAction_resume_ids; [| done].
      eapply idsFrom_same; [exact Hids | done | done |]. simpl.
      by apply fmap_alter_same.
    + intros o f H. by rewrite (handleAction_resume_frame_id _ _ _ _ _ H).
  - destruct (rxSubscriptions σ !! k) as [s |] eqn:Hs;
      [| split; [done |]; intros o f H; by elem_cases H].
    destruct (delivers c (closed s) n);
      [| split; [done |]; intros o f H; by elem_cases H].
    split.
    { eapply idsFrom_same; [exact Hids | ..]; unfold rx_delivered;
        destruct (isTerminal n); try done. simpl. by apply fmap_alter_same. }
    intros o f H. simpl in H.
    apply list_elem_of_fmap in H as (f' & [= -> ->] & Hf).
    apply onNotification_id in Hf.
    assert (Hk : from_option S True (subscriber_id (subscriber s))).
    { apply (Forall_lookup_1 _ _ k (subscriber s) H1).
      by rewrite list_lookup_fmap, Hs. }
    by rewrite Hf in Hk.
  - destruct (rxSubscriptions σ !! k) as [s |];
      [| split; [done |]; intros o f H; by elem_cases H].
    destruct (subscriber s); try (split; [done |]; intros o f H; by elem_cases H).
    destruct (deliversEvent c (closed s) event);
      [| split; [done |]; intros o f H; by elem_cases H].
    split; [| intros o f H; by elem_cases H].
    eapply idsFrom_same; [exact Hids | done | | done]. simpl.
    by apply fmap_alter_same.
  - destruct (bridges σ !! b) as [br |] eqn:Hb;
      [| split; [done |]; intros o f H; by elem_cases H].
    destruct (taskScheduled br);
      [| split; [done |]; intros o f H; by elem_cases H].
    split.
    + eapply idsFrom_same; [exact Hids | done | | done]. simpl.
      by apply fmap_alter_same.
    + intros o f H. simpl in H.
      apply list_elem_of_fmap in H as (f' & [= -> ->] & Hf).
      unfold eventsCallback in Hf. destruct (unsubscribed br); elem_cases Hf. subst.
      simpl. eapply Forall_lookup_1; [exact H2 |]. by rewrite list_lookup_fmap, Hb.
  - destruct (subscribing c message σ) as [[body_id entry] |];
      [| split; [done |]; intros o f H; by elem_cases H].
    assert (Hm : S (msg_id message)) by (apply Hrecv'; by left).
    assert (Hi : S (msg_id inner)) by (apply Hrecv'; right; by left).
    unfold client_subscribe_reentered.
    set (σ1 := client_subscribe_open c (msg_id message) body_id entry σ).
    assert (Hids1 : idsFrom S σ1).
    { subst σ1. unfold idsFrom, client_subscribe_open. simpl. rewrite fmap_app.
      split_and!; [| done | done].
      apply Forall_app. split; [done |]. by apply Forall_singleton. }
    pose proof (handle_ids S c inner σ1 Hids1 Hi) as Hh.
    pose proof (handle_frame_id c inner σ1) as Hf.
    destruct (handle c inner σ1) as [[σ2 w] r]. cbn [fst snd] in *.
    split; [exact Hh |]. intros o f H.
    apply elem_of_app in H as [H | H]; [| apply elem_of_app in H as [H | H]].
    + apply notifications_id in H. injection H as <-. done.
    + apply elem_of_app in H as [H | H]; [by rewrite (Hf _ _ H) |].
      destruct r; simpl in H; by elem_cases H.
    + apply notifications_id in H. injection H as <-. done.
Qed.

Lemma receivedIds_app turns1 turns2 :
  receivedIds (turns1 ++ turns2) = receivedIds turns1 ++ receivedIds turns2.
Proof. unfold receivedIds. by rewrite flat_map_app. Qed.

Lemma run_ids (S : Z -> Prop) turns σ :
  idsFrom S σ -> (forall id, id ∈ receivedIds turns -> S id) ->
  idsFrom S (run turns σ).1.
Proof.
  revert σ. induction turns as [| [c i] turns IH]; intros σ Hids Hrecv; [done |].
  rewrite run_cons. cbn [fst]. apply IH.
  - apply step_ids; [done |]. intros id Hid. apply Hrecv.
    change ((c, i) :: turns) with ([(c, i)] ++ turns).
    rewrite receivedIds_app. apply elem_of_app. by left.
  - intros id Hid. apply Hrecv. change ((c, i) :: turns) with ([(c, i)] ++ turns).
    rewrite receivedIds_app. apply elem_of_app. by right.
Qed.

(** X15: every frame the dispatcher writes carries the id of a message it
    has received: in a turn that follows the turns [processed] from a new
    dispatcher, whoever writes a frame (a handler, a callback of a
    subscription, the batch callback of a collection) writes it under the id
    of a message received in [processed] or in this very turn. *)
Theorem frames_carry_received_ids controllers processed c i o f :
  Sent o f ∈ (step c i (run processed (new_Sys controllers)).1).2 ->
  frame_id f ∈ receivedIds (processed ++ [(c, i)]).
Proof.
  intros H.
  assert (Hids : idsFrom (fun id => id ∈ receivedIds (processed ++ [(c, i)]))
                   (run processed (new_Sys controllers)).1).
  { eapply idsFrom_impl; [| apply (run_ids (fun id => id ∈ receivedIds processed))].
    - intros id Hid. rewrite receivedIds_app. apply elem_of_app. by left.
    - split_and!; apply Forall_nil_2.
    - done. }
  eapply (step_ids _ c i _ Hids); [| exact H].
  intros id Hid. rewrite receivedIds_app. apply elem_of_app. by right.
Qed.

Lemma frames_carry_received_ids_witness :
  4 ∈ receivedIds
        [(Sample.world, Receive (Sample.action 4 "c1 stream"));
         (Sample.world, Resume 0%nat);
         (Sample.world, Receive (Sample.control RpcTypes.ActionObservableSubscribe 4 "1"));
         (Sample.world, Emit 0 (OnNext (VStr "a")))].
Proof.
  apply (frames_carry_received_ids {["c1" := Sample.C1]}
           [(Sample.world, Receive (Sample.action 4 "c1 stream"));
            (Sample.world, Resume 0%nat);
            (Sample.world, Receive (Sample.control RpcTypes.ActionObservableSubscribe 4 "1"))]
           Sample.world (Emit 0 (OnNext (VStr "a"))) (BySubscription 0)
           (Reply 4 RpcTypes.ResponseActionObservableNext (BodyNext 1 (VStr "a")))).
  vm_compute. left.
Defined.
